(** * Clocktick JS/TS SDK: a shallow embedding of the router, the webhook
    dispatcher, the payload cipher and the job property builders.

    Sources embedded here: [index.js] (createRouter, _write, customEndpoint,
    apiHandlerBuilder, httpRoute, verifySignature, fromHex, encrypt, decrypt,
    errorHandledFetch, deleteJob), [properties.ts] (DeltaBuilder,
    CreateJobProperties, fromDatetime, fromNow) and [typed.ts] (fixedIv,
    toBase64Polyfill, fromBase64). Of the two versions of [index.js] in the
    repository, the one embedded is the one its tests run against: it
    verifies the signature itself and calls [clocktick.dev]. The other one
    hands the whole authentication to the library discord-verify and calls
    [clocktick.io]; the rest of the two files is the same.

    Conventions.
    - A JS string is a Rocq [string]: the bytes of its UTF-8 form. A lone
      surrogate, which has no UTF-8 form, stands as the three bytes of its
      generalised form ([ED A0..BF 80..BF]); [Js.well_formed] tells the
      strings that hold none.
    - A [Uint8Array] is a [list byte].
    - A JS number that the code computes with is a binary64 double, a
      primitive [float]: the fields of the delta builder, the numbers on
      the heap and in JSON. [Js.double z] is the double of the integer
      literal [z]. Integers that the code only compares or prints (HTTP
      statuses, timestamps, the integers of a msgpack payload) stay in [Z].
    - A JS plain object whose key order is observable ([Object.entries],
      [JSON.stringify]) is an association list in insertion order, written
      to with [obj_set] (overwrite in place, else append).
    - Objects that are shared and mutated live in a heap: a list of cells
      indexed by location.
    - A function that can throw returns a sum: [inl e] is the exception.
    - What the platform provides and the repository does not define
      (WebCrypto, Ed25519 verification, msgpack, JSON.parse, fetch, the
      prototype chain, the clock, the random source) is a field of the
      record [Platform], or an argument. *)

From Stdlib Require Import ZArith List String Ascii Lia Bool Permutation DecimalString.
From Stdlib Require Import Floats.
From Stdlib.Strings Require Import Byte.
From stdpp Require Import base list strings.
Import ListNotations.

#[local] Set Warnings "-register-all".

Local Open Scope string_scope.
Local Open Scope list_scope.
Local Open Scope Z_scope.

(* ===================================================================== *)
(** * Part I: the embedding *)
(* ===================================================================== *)

(** ** JavaScript built-ins used by the sources *)

Module Js.

(** [arr.join(sep)] on an array of strings. *)
Definition join (sep : string) (arr : list string) : string :=
  String.concat sep arr.

(** [s.split(sep)] for a one-character separator: always at least one
    piece; [n] separators give [n + 1] pieces. *)
Fixpoint split (sep : ascii) (s : string) : list string :=
  match s with
  | EmptyString => [EmptyString]
  | String c rest =>
      if Ascii.eqb c sep then EmptyString :: split sep rest
      else match split sep rest with
           | [] => [String c EmptyString]
           | piece :: pieces => String c piece :: pieces
           end
  end.

(** [s.split(sep, limit)]: the pieces of [split], truncated to [limit]. *)
Definition split_limit (sep : ascii) (limit : nat) (s : string) : list string :=
  firstn limit (split sep s).

(** Truthiness of a string: [!s] holds exactly for the empty string. *)
Definition str_truthy (s : string) : bool :=
  match s with EmptyString => false | _ => true end.

(** [String(v)] of a header value: [headers.get] gives [null] when the
    header is absent, and [null + body] and [parseInt(null)] see "null". *)
Definition string_of_nullable (v : option string) : string :=
  match v with Some s => s | None => "null" end.

Definition code (c : ascii) : Z := Z.of_N (N_of_ascii c).

(** Value of a digit character in a radix up to 36, if it is one. *)
Definition digit_value (radix : Z) (c : ascii) : option Z :=
  let n := code c in
  let d := if (48 <=? n) && (n <=? 57) then Some (n - 48)
           else if (97 <=? n) && (n <=? 122) then Some (n - 87)
           else if (65 <=? n) && (n <=? 90) then Some (n - 55)
           else None in
  match d with
  | Some v => if v <? radix then Some v else None
  | None => None
  end.

Definition is_str_whitespace (c : ascii) : bool :=
  let n := code c in
  ((9 <=? n) && (n <=? 13)) || (n =? 32) || (n =? 160).

Fixpoint skip_whitespace (s : string) : string :=
  match s with
  | String c rest => if is_str_whitespace c then skip_whitespace rest else s
  | EmptyString => s
  end.

Fixpoint parse_digits (radix : Z) (s : string) (acc : option Z) : option Z :=
  match s with
  | EmptyString => acc
  | String c rest =>
      match digit_value radix c with
      | Some d => parse_digits radix rest
                    (Some (match acc with Some a => a * radix + d | None => d end))
      | None => acc
      end
  end.

Definition strip_hex_prefix (s : string) : string :=
  match s with
  | String "0" (String "x" rest) => rest
  | String "0" (String "X" rest) => rest
  | _ => s
  end.

(** [parseInt(s, radix)]; [None] is [NaN]. *)
Definition parseInt (s : string) (radix : Z) : option Z :=
  let s1 := skip_whitespace s in
  let '(sign, s2) :=
    match s1 with
    | String "-" rest => (-1, rest)
    | String "+" rest => (1, rest)
    | _ => (1, s1)
    end in
  let s3 := if radix =? 16 then strip_hex_prefix s2 else s2 in
  match parse_digits radix s3 None with
  | Some n => Some (sign * n)
  | None => None
  end.

Definition hex_digit (n : Z) : ascii :=
  ascii_of_N (Z.to_N (if n <? 10 then 48 + n else 55 + n)).

Definition uri_unreserved (c : ascii) : bool :=
  let n := code c in
  ((48 <=? n) && (n <=? 57)) || ((65 <=? n) && (n <=? 90)) || ((97 <=? n) && (n <=? 122))
  || existsb (Ascii.eqb c) (list_ascii_of_string "-_.!~*'()").

(** The bytes outside the unreserved set become [%XX]. *)
Fixpoint escape (s : string) : string :=
  match s with
  | EmptyString => EmptyString
  | String c rest =>
      if uri_unreserved c then String c (escape rest)
      else String "%" (String (hex_digit (code c / 16))
             (String (hex_digit (code c mod 16)) (escape rest)))
  end.

Definition between (lo hi : Z) (c : ascii) : bool :=
  (lo <=? code c) && (code c <=? hi).

(** The string is the UTF-8 form of a sequence of Unicode scalar values
    (RFC 3629): as a JS string it holds no lone surrogate. The three bytes
    [ED A0..BF 80..BF] of a surrogate are refused by the case of [ED]. *)
Fixpoint well_formed (s : string) : bool :=
  match s with
  | EmptyString => true
  | String c rest =>
      let n := code c in
      if n <=? 127 then well_formed rest
      else if between 194 223 c then
        match rest with
        | String c1 rest' => between 128 191 c1 && well_formed rest'
        | _ => false
        end
      else if between 224 239 c then
        match rest with
        | String c1 (String c2 rest') =>
            (if n =? 224 then between 160 191 c1
             else if n =? 237 then between 128 159 c1
             else between 128 191 c1)
            && between 128 191 c2 && well_formed rest'
        | _ => false
        end
      else if between 240 244 c then
        match rest with
        | String c1 (String c2 (String c3 rest')) =>
            (if n =? 240 then between 144 191 c1
             else if n =? 244 then between 128 143 c1
             else between 128 191 c1)
            && between 128 191 c2 && between 128 191 c3 && well_formed rest'
        | _ => false
        end
      else false
  end.

(** [encodeURIComponent(s)]: the UTF-8 bytes of [s] outside the unreserved
    set become [%XX]; [None] is the [URIError] thrown when [s] holds a lone
    surrogate. *)
Definition encodeURIComponent (s : string) : option string :=
  if well_formed s then Some (escape s) else None.

(** The elements of the string iterator: one string per code point. *)
Fixpoint code_points (s : string) : list string :=
  match s with
  | EmptyString => []
  | String c rest =>
      let n := code c in
      let one := String c EmptyString :: code_points rest in
      if 240 <=? n then
        match rest with
        | String c1 (String c2 (String c3 rest')) =>
            String c (String c1 (String c2 (String c3 EmptyString))) :: code_points rest'
        | _ => one
        end
      else if 224 <=? n then
        match rest with
        | String c1 (String c2 rest') =>
            String c (String c1 (String c2 EmptyString)) :: code_points rest'
        | _ => one
        end
      else if 192 <=? n then
        match rest with
        | String c1 rest' => String c (String c1 EmptyString) :: code_points rest'
        | _ => one
        end
      else one
  end.

(** A line terminator is what the regular expression [.] does not match. *)
Definition is_line_terminator (c : ascii) : bool :=
  (code c =? 10) || (code c =? 13).

(** [s.match(/.{1,2}/g)]: the successive chunks of two characters (one, when
    a line terminator or the end follows); line terminators are skipped. The
    empty list stands for [null] (no match). *)
Fixpoint match_chunks (s : string) : list string :=
  match s with
  | EmptyString => []
  | String c rest =>
      if is_line_terminator c then match_chunks rest
      else match rest with
           | EmptyString => [String c EmptyString]
           | String d rest' =>
               if is_line_terminator d then String c EmptyString :: match_chunks rest'
               else String c (String d EmptyString) :: match_chunks rest'
           end
  end.

(** Storing a number into a [Uint8Array]: [NaN] becomes 0, an integer is
    taken modulo 256. *)
Definition to_uint8 (n : option Z) : byte :=
  match n with
  | None => x00%byte
  | Some z => match Byte.of_N (Z.to_N (z mod 256)) with
              | Some b => b
              | None => x00%byte
              end
  end.

(** [lacks sep s]: the character [sep] does not occur in [s]. *)
Fixpoint lacks (sep : ascii) (s : string) : bool :=
  match s with
  | EmptyString => true
  | String c rest => negb (Ascii.eqb c sep) && lacks sep rest
  end.

(** Decimal rendering of an integer, as in a template literal. *)
Definition string_of_Z (z : Z) : string := NilZero.string_of_int (Z.to_int z).

(** The double of the integer literal [z]: [z] itself up to 2^53 in
    magnitude, the nearest double (ties to even) beyond; [canon] is that
    double in the specification of binary64. *)
Definition canon (z : Z) : spec_float := binary_normalize prec emax z 0 false.

Definition double (z : Z) : float := SF2Prim (canon z).

(** The mantissa [k] followed by [j] zero bits. *)
Definition shl (k : positive) (j : nat) : positive := Nat.iter j xO k.

(** The integer that a double is, if it is one. *)
Definition integer_value (x : float) : option Z :=
  match Prim2SF x with
  | S754_zero _ => Some 0
  | S754_finite s m e =>
      let magnitude :=
        if 0 <=? e then Some (Zpos m * 2 ^ e)
        else if Zpos m mod 2 ^ (- e) =? 0 then Some (Zpos m / 2 ^ (- e))
        else None in
      match magnitude with
      | Some v => Some (if s then - v else v)
      | None => None
      end
  | _ => None
  end.

End Js.

(** ** typed.ts: the base64 codec

    [toBase64Polyfill] is one of [Uint8Array.prototype.toBase64],
    [Buffer.toString("base64")] and base64-js [fromByteArray]: each computes
    the RFC 4648 encoding with padding (the repository's tests check
    [[1, 2, 3]] against ["AQID"] for all three). [fromBase64] fetches the
    URL [data:application/octet-stream;base64,<str>]. The URL parser trims
    the C0 controls and spaces at the end of its input, removes the tabs
    and newlines and takes what follows the first [#] as the fragment; the [data:] URL processor
    percent-decodes what is left of the string and hands it to the
    forgiving base64 decoder: ASCII whitespace is dropped, padding is
    optional, any other character is an error. *)

Module Base64.

Definition alphabet : list ascii :=
  list_ascii_of_string
    "ABCDEFGHIJKLMNOPQRSTUVWXYZabcdefghijklmnopqrstuvwxyz0123456789+/".

(** The character of a 6-bit value. *)
Definition enc_char (n : N) : ascii := nth (N.to_nat n) alphabet "A"%char.

Fixpoint index_of (c : ascii) (l : list ascii) (i : N) : option N :=
  match l with
  | [] => None
  | x :: rest => if Ascii.eqb c x then Some i else index_of c rest (N.succ i)
  end.

(** The 6-bit value of a character of the alphabet. *)
Definition dec_char (c : ascii) : option N := index_of c alphabet 0%N.

Definition pad : ascii := "="%char.

(** RFC 4648 encoding, with padding. *)
Fixpoint encode (bs : list byte) : string :=
  match bs with
  | [] => EmptyString
  | [a] =>
      let a := Byte.to_N a in
      String (enc_char (a / 4)) (String (enc_char ((a mod 4) * 16))
        (String pad (String pad EmptyString)))
  | [a; b] =>
      let a := Byte.to_N a in
      let b := Byte.to_N b in
      String (enc_char (a / 4)) (String (enc_char ((a mod 4) * 16 + b / 16))
        (String (enc_char ((b mod 16) * 4)) (String pad EmptyString)))
  | a :: b :: c :: rest =>
      let a := Byte.to_N a in
      let b := Byte.to_N b in
      let c := Byte.to_N c in
      String (enc_char (a / 4)) (String (enc_char ((a mod 4) * 16 + b / 16))
        (String (enc_char ((b mod 16) * 4 + c / 64)) (String (enc_char (c mod 64))
          (encode rest))))
  end%N.

Definition is_ascii_whitespace (c : ascii) : bool :=
  let n := N_of_ascii c in
  ((n =? 9) || (n =? 10) || (n =? 12) || (n =? 13) || (n =? 32))%N.

Fixpoint remove_whitespace (s : string) : string :=
  match s with
  | EmptyString => EmptyString
  | String c rest =>
      if is_ascii_whitespace c then remove_whitespace rest
      else String c (remove_whitespace rest)
  end.

(** One byte from 12 bits (the low 4 are dropped). *)
Definition decode2 (c1 c2 : ascii) : option (list byte) :=
  match dec_char c1, dec_char c2 with
  | Some s1, Some s2 =>
      match Byte.of_N (s1 * 4 + s2 / 16) with
      | Some a => Some [a]
      | None => None
      end
  | _, _ => None
  end%N.

(** Two bytes from 18 bits (the low 2 are dropped). *)
Definition decode3 (c1 c2 c3 : ascii) : option (list byte) :=
  match dec_char c1, dec_char c2, dec_char c3 with
  | Some s1, Some s2, Some s3 =>
      match Byte.of_N (s1 * 4 + s2 / 16), Byte.of_N ((s2 mod 16) * 16 + s3 / 4) with
      | Some a, Some b => Some [a; b]
      | _, _ => None
      end
  | _, _, _ => None
  end%N.

(** Three bytes from 24 bits. *)
Definition decode4 (c1 c2 c3 c4 : ascii) : option (list byte) :=
  match dec_char c1, dec_char c2, dec_char c3, dec_char c4 with
  | Some s1, Some s2, Some s3, Some s4 =>
      match Byte.of_N (s1 * 4 + s2 / 16), Byte.of_N ((s2 mod 16) * 16 + s3 / 4),
            Byte.of_N ((s3 mod 4) * 64 + s4) with
      | Some a, Some b, Some c => Some [a; b; c]
      | _, _, _ => None
      end
  | _, _, _, _ => None
  end%N.

(** Groups of four characters give three bytes; a final group may be
    padded, or cut short to two or three characters. *)
Fixpoint decode_groups (s : string) : option (list byte) :=
  match s with
  | EmptyString => Some []
  | String _ EmptyString => None
  | String c1 (String c2 EmptyString) => decode2 c1 c2
  | String c1 (String c2 (String c3 EmptyString)) => decode3 c1 c2 c3
  | String c1 (String c2 (String c3 (String c4 rest))) =>
      match rest with
      | EmptyString =>
          if Ascii.eqb c4 pad
          then (if Ascii.eqb c3 pad then decode2 c1 c2 else decode3 c1 c2 c3)
          else decode4 c1 c2 c3 c4
      | _ =>
          match decode4 c1 c2 c3 c4, decode_groups rest with
          | Some x, Some y => Some (x ++ y)
          | _, _ => None
          end
      end
  end.

(** Forgiving decoding; [None] is failure. *)
Definition decode (s : string) : option (list byte) :=
  decode_groups (remove_whitespace s).

End Base64.

Module Typed.

(** [toBase64Polyfill(arr)]. *)
Definition toBase64Polyfill (arr : list byte) : string := Base64.encode arr.

(** The URL parser on the end of its input: trailing C0 controls and
    spaces are removed. *)
Fixpoint trim_end (s : string) : string :=
  match s with
  | EmptyString => EmptyString
  | String c rest =>
      match trim_end rest with
      | EmptyString => if (N_of_ascii c <=? 32)%N then EmptyString
                       else String c EmptyString
      | kept => String c kept
      end
  end.

(** Tabs and newlines are removed wherever they stand. *)
Definition is_tab_or_newline (c : ascii) : bool :=
  let n := N_of_ascii c in
  ((n =? 9) || (n =? 10) || (n =? 13))%N.

Fixpoint remove_tab_newline (s : string) : string :=
  match s with
  | EmptyString => EmptyString
  | String c rest =>
      if is_tab_or_newline c then remove_tab_newline rest
      else String c (remove_tab_newline rest)
  end.

(** The fragment, from the first [#] on, is no part of the body. *)
Fixpoint drop_fragment (s : string) : string :=
  match s with
  | EmptyString => EmptyString
  | String c rest => if Ascii.eqb c "#" then EmptyString
                     else String c (drop_fragment rest)
  end.

Definition hex_value (c : ascii) : option N :=
  let n := N_of_ascii c in
  if ((48 <=? n) && (n <=? 57))%N then Some (n - 48)%N
  else if ((65 <=? n) && (n <=? 70))%N then Some (n - 55)%N
  else if ((97 <=? n) && (n <=? 102))%N then Some (n - 87)%N
  else None.

(** Percent-decoding: [%XX] with two hexadecimal digits is one byte. *)
Fixpoint percent_decode (s : string) : string :=
  match s with
  | EmptyString => EmptyString
  | String c rest =>
      let kept := String c (percent_decode rest) in
      if Ascii.eqb c "%" then
        match rest with
        | String h1 (String h2 rest') =>
            match hex_value h1, hex_value h2 with
            | Some a, Some b => String (ascii_of_N (a * 16 + b)) (percent_decode rest')
            | _, _ => kept
            end
        | _ => kept
        end
      else kept
  end.

(** What the [data:] URL made of [str] holds as its body. *)
Definition data_url_body (str : string) : string :=
  percent_decode (drop_fragment (remove_tab_newline (trim_end str))).

(** A character that the [data:] URL leaves alone, and a string of such. *)
Definition url_plain (c : ascii) : bool :=
  negb (Ascii.eqb c "#") && negb (Ascii.eqb c "%") && negb (N_of_ascii c <=? 32)%N.

Fixpoint all_url_plain (s : string) : bool :=
  match s with
  | EmptyString => true
  | String c rest => url_plain c && all_url_plain rest
  end.

(** [fromBase64(str)]; [None] when the fetch rejects. *)
Definition fromBase64 (str : string) : option (list byte) :=
  Base64.decode (data_url_body str).

End Typed.

(** ** Values exchanged with the platform *)

(** A value that msgpack carries: an argument of a handler. [MBin] is
    decoded to a [Uint8Array], [MMap] to a plain object. *)
Inductive msg : Type :=
| MNil
| MBool (b : bool)
| MNum (n : Z)
| MStr (s : string)
| MArr (items : list msg)
| MBin (bytes : list byte)
| MMap (fields : list (string * msg)).

(** A value that [JSON.parse] returns or [JSON.stringify] serialises. *)
Inductive json : Type :=
| JNull
| JBool (b : bool)
| JNum (n : float)
| JStr (s : string)
| JArr (items : list json)
| JObj (fields : list (string * json)).

(** What can be thrown. *)
Inductive exn : Type :=
| TypeError
| SyntaxError
| RangeError
| URIError
| OperationError
| FetchError
| JsError (message : string)
| APIError (type : option json) (reasons : list json)
| Thrown (what : string).

(** Association lists as objects: [o[k]] and [o[k] = v]. *)
Fixpoint obj_get {A} (o : list (string * A)) (k : string) : option A :=
  match o with
  | [] => None
  | (k', v) :: rest => if String.eqb k k' then Some v else obj_get rest k
  end.

Fixpoint obj_set {A} (o : list (string * A)) (k : string) (v : A) : list (string * A) :=
  match o with
  | [] => [(k, v)]
  | (k', v') :: rest =>
      if String.eqb k k' then (k, v) :: rest else (k', v') :: obj_set rest k v
  end.

(** A number as [JSON.stringify] writes it: [NaN] and the infinities
    become [null], and the sign of zero is lost. *)
Definition json_of_number (x : float) : json :=
  if PrimFloat.is_nan x || PrimFloat.is_infinity x then JNull
  else if PrimFloat.is_zero x then JNum 0%float
  else JNum x.

(** [v.k] on a parsed JSON value; [None] is [undefined]. *)
Definition json_prop (v : json) (k : string) : option json :=
  match v with
  | JObj fields => obj_get fields k
  | _ => None
  end.

(** An outbound HTTP call as [fetch] receives it; the body is the value
    that was passed to [JSON.stringify]. *)
Record FetchCall : Type := mkFetchCall {
  fc_url : string;
  fc_method : string;
  fc_headers : list (string * string);
  fc_body : option json
}.

(** The part of a [Response] that the SDK reads: the status, the
    [X-Is-Application-Error] header and what [res.json()] yields
    ([None] when the body is not JSON). *)
Record FetchResponse : Type := mkFetchResponse {
  res_status : Z;
  res_is_application_error : option string;
  res_json : option json
}.

Definition res_ok (r : FetchResponse) : bool :=
  (200 <=? res_status r) && (res_status r <=? 299).

(** ** properties.ts: DeltaBuilder *)

(** The object returned by [DeltaBuilder.toObject()]. *)
Module DeltaBody.
Record t : Type := mk {
  years : float; months : float; days : float;
  hours : float; minutes : float; seconds : float
}.
End DeltaBody.

Module DeltaBuilder.

(** The six private fields [#years] .. [#seconds]. *)
Record t : Type := mk {
  p_years : float; p_months : float; p_days : float;
  p_hours : float; p_minutes : float; p_seconds : float
}.

(** [new DeltaBuilder()]: every field starts at 0. *)
Definition new : t := mk 0 0 0 0 0 0.

(** Each unit method is [this.#unit += v; return this], an addition of
    doubles: the builder is threaded through the call chain. *)
Definition years (v : float) (this : t) : t :=
  mk (p_years this + v) (p_months this) (p_days this)
     (p_hours this) (p_minutes this) (p_seconds this).
Definition months (v : float) (this : t) : t :=
  mk (p_years this) (p_months this + v) (p_days this)
     (p_hours this) (p_minutes this) (p_seconds this).
Definition days (v : float) (this : t) : t :=
  mk (p_years this) (p_months this) (p_days this + v)
     (p_hours this) (p_minutes this) (p_seconds this).
Definition hours (v : float) (this : t) : t :=
  mk (p_years this) (p_months this) (p_days this)
     (p_hours this + v) (p_minutes this) (p_seconds this).
Definition minutes (v : float) (this : t) : t :=
  mk (p_years this) (p_months this) (p_days this)
     (p_hours this) (p_minutes this + v) (p_seconds this).
Definition seconds (v : float) (this : t) : t :=
  mk (p_years this) (p_months this) (p_days this)
     (p_hours this) (p_minutes this) (p_seconds this + v).

Definition toObject (this : t) : DeltaBody.t :=
  DeltaBody.mk (p_years this) (p_months this) (p_days this)
               (p_hours this) (p_minutes this) (p_seconds this).

(** A call of one of the six unit methods. *)
Inductive unit_name : Type := Years | Months | Days | Hours | Minutes | Seconds.

Definition unit_eqb (a b : unit_name) : bool :=
  match a, b with
  | Years, Years | Months, Months | Days, Days
  | Hours, Hours | Minutes, Minutes | Seconds, Seconds => true
  | _, _ => false
  end.

Definition call (c : unit_name * float) (this : t) : t :=
  match fst c with
  | Years => years (snd c) this
  | Months => months (snd c) this
  | Days => days (snd c) this
  | Hours => hours (snd c) this
  | Minutes => minutes (snd c) this
  | Seconds => seconds (snd c) this
  end.

(** A chain [b.m1(v1).m2(v2)...], first call first. *)
Definition chain (calls : list (unit_name * float)) (this : t) : t :=
  fold_left (fun b c => call c b) calls this.

(** The values passed to the method of unit [u], in call order. *)
Definition passed (u : unit_name) (calls : list (unit_name * float)) : list float :=
  map snd (List.filter (fun c => unit_eqb u (fst c)) calls).

(** Their sum as the code computes it: from [start], one addition of
    doubles per call, in call order. *)
Definition running_sum (start : float) (values : list float) : float :=
  fold_left PrimFloat.add values start.

Definition total (u : unit_name) (calls : list (unit_name * float)) : float :=
  running_sum 0 (passed u calls).

(** Calls whose arguments are integers. *)
Definition integer_calls (calls : list (unit_name * Z)) : list (unit_name * float) :=
  map (fun c => (fst c, Js.double (snd c))) calls.

(** The sum, in [Z], of the integers passed to the method of unit [u],
    and the sum of their magnitudes. *)
Fixpoint integer_total (u : unit_name) (calls : list (unit_name * Z)) : Z :=
  match calls with
  | [] => 0
  | (u', v) :: rest => (if unit_eqb u u' then v else 0) + integer_total u rest
  end.

Fixpoint magnitude (u : unit_name) (calls : list (unit_name * Z)) : Z :=
  match calls with
  | [] => 0
  | (u', v) :: rest => (if unit_eqb u u' then Z.abs v else 0) + magnitude u rest
  end.

(** Every unit was passed integers whose magnitudes sum to 2^53 at most:
    every partial sum is a safe integer. *)
Definition safe (calls : list (unit_name * Z)) : Prop :=
  forall u, magnitude u calls <= 2 ^ 53.

End DeltaBuilder.
(** ** The heap of shared objects *)

Module Heap.

Abbreviation loc := nat.

(** A value held in a field. *)
Inductive val : Type :=
| VNull
| VNum (n : float)
| VStr (s : string)
| VRef (l : loc).

(** A heap cell: an instance of the class [CreateJobProperties] (its
    private [#customId] and its two constructor fields, typed as in
    properties.ts), or a plain object. *)
Inductive cell : Type :=
| PropsInstance (customId : option string) (startFrom : loc) (runEvery : option loc)
| PlainObject (fields : list (string * val)).

Abbreviation heap := (list cell).

(** A new object gets the next location; nothing else moves. *)
Definition alloc (h : heap) (c : cell) : heap * loc := (h ++ [c], length h).

(** [o.k] where [o] is the plain object at [l]. *)
Definition get_field (h : heap) (l : loc) (k : string) : option val :=
  match h !! l with
  | Some (PlainObject fields) => obj_get fields k
  | _ => None
  end.

(** [o.k = v] where [o] is the plain object at [l]. *)
Definition set_field (h : heap) (l : loc) (k : string) (v : val) : option heap :=
  match h !! l with
  | Some (PlainObject fields) => Some (<[l := PlainObject (obj_set fields k v)]> h)
  | _ => None
  end.

Definition val_of_string (s : option string) : val :=
  match s with Some x => VStr x | None => VNull end.

Definition val_of_loc (l : option loc) : val :=
  match l with Some x => VRef x | None => VNull end.

(** Sequencing of optional results over a list. *)
Fixpoint traverse {A B} (f : A -> option B) (l : list A) : option (list B) :=
  match l with
  | [] => Some []
  | x :: rest =>
      match f x, traverse f rest with
      | Some y, Some ys => Some (y :: ys)
      | _, _ => None
      end
  end.

(** The tree that [JSON.stringify] serialises, read off the heap down to
    depth [fuel]. *)
Fixpoint stringify (fuel : nat) (h : heap) (v : val) : option json :=
  match v with
  | VNull => Some JNull
  | VNum n => Some (json_of_number n)
  | VStr s => Some (JStr s)
  | VRef l =>
      match fuel with
      | O => None
      | S fuel' =>
          let field (kv : string * val) :=
            match stringify fuel' h (snd kv) with
            | Some j => Some (fst kv, j)
            | None => None
            end in
          match h !! l with
          | Some (PlainObject fields) =>
              match traverse field fields with
              | Some js => Some (JObj js)
              | None => None
              end
          | Some (PropsInstance _ startFrom runEvery) =>
              match traverse field [("startFrom", VRef startFrom);
                                    ("runEvery", val_of_loc runEvery)] with
              | Some js => Some (JObj js)
              | None => None
              end
          | None => None
          end
      end
  end.

(** [JSON.stringify(v)]. A path of references longer than the heap has
    cells goes through one cell twice: the structure is circular and
    [JSON.stringify] throws, here [None]. *)
Definition JSON_stringify (h : heap) (v : val) : option json :=
  stringify (S (length h)) h v.

End Heap.

(** ** properties.ts: CreateJobProperties, fromDatetime, fromNow *)

Module CreateJobProperties.
Import Heap.

(** [new CreateJobProperties(startFrom, runEvery)]; [#customId] is [null]. *)
Definition new (startFrom : loc) (runEvery : option loc) (h : heap) : heap * loc :=
  alloc h (PropsInstance None startFrom runEvery).

(** [this.#customId = customId; return this]. *)
Definition customId (id : string) (this : loc) (h : heap) : option heap :=
  match h !! this with
  | Some (PropsInstance _ startFrom runEvery) =>
      Some (<[this := PropsInstance (Some id) startFrom runEvery]> h)
  | _ => None
  end.

(** [toObject()]: two object literals are evaluated, so two objects are
    allocated; [start_from] and [run_every] are the references the instance
    holds. The result is the location of the outer object. *)
Definition toObject (this : loc) (h : heap) : option (heap * loc) :=
  match h !! this with
  | Some (PropsInstance id startFrom runEvery) =>
      let '(h1, data) :=
        alloc h (PlainObject [("start_from", VRef startFrom);
                              ("run_every", val_of_loc runEvery)]) in
      Some (alloc h1 (PlainObject [("id", val_of_string id); ("data", VRef data)]))
  | _ => None
  end.

End CreateJobProperties.

Module Properties.
Import Heap.

Definition delta_fields (d : DeltaBody.t) : list (string * val) :=
  [("years", VNum (DeltaBody.years d)); ("months", VNum (DeltaBody.months d));
   ("days", VNum (DeltaBody.days d)); ("hours", VNum (DeltaBody.hours d));
   ("minutes", VNum (DeltaBody.minutes d)); ("seconds", VNum (DeltaBody.seconds d))].

(** [fromDatetime(datetime, runEvery)]. [iso] is what
    [new Date(datetime).toISOString()] gives, [None] when it throws on an
    invalid date; [runEvery] is the optional callback, as what it does to
    the builder it is handed: the update it applies, or what it throws. *)
Definition fromDatetime (iso : option string)
    (runEvery : option (DeltaBuilder.t -> exn + DeltaBuilder.t)) (h : heap)
  : exn + heap * loc :=
  match iso with
  | None => inl RangeError
  | Some dtStr =>
      let runEveryBody :=
        match runEvery with
        | Some cb =>
            match cb DeltaBuilder.new with
            | inl e => inl e
            | inr builder =>
                let '(h', l) :=
                  alloc h (PlainObject (delta_fields (DeltaBuilder.toObject builder))) in
                inr (h', Some l)
            end
        | None => inr (h, None)
        end in
      match runEveryBody with
      | inl e => inl e
      | inr (h1, runEveryBody) =>
          let '(h2, startFrom) :=
            alloc h1 (PlainObject [("type", VStr "datetime"); ("datetime", VStr dtStr)]) in
          inr (CreateJobProperties.new startFrom runEveryBody h2)
      end
  end.

(** [DeltaBuilderWithRecurringFlag]: a builder and the [recurring] variable
    its callback sets. *)
Definition recurring (this : DeltaBuilder.t * bool) : DeltaBuilder.t * bool :=
  (fst this, true).

(** [fromNow(delta)]; the callback as for [fromDatetime]. *)
Definition fromNow
    (delta : option (DeltaBuilder.t * bool -> exn + DeltaBuilder.t * bool)) (h : heap)
  : exn + heap * loc :=
  let called :=
    match delta with
    | Some cb => cb (DeltaBuilder.new, false)
    | None => inr (DeltaBuilder.new, false)
    end in
  match called with
  | inl e => inl e
  | inr (builder, is_recurring) =>
      let fields := delta_fields (DeltaBuilder.toObject builder) in
      let '(h1, deltaBody) := alloc h (PlainObject fields) in
      let '(h2, startFrom) := alloc h1 (PlainObject (("type", VStr "delta") :: fields)) in
      let runEvery := if is_recurring then Some deltaBody else None in
      inr (CreateJobProperties.new startFrom runEvery h2)
  end.

End Properties.
(** ** What the platform provides *)

Record Platform : Type := mkPlatform {
  (** An imported [CryptoKey]. *)
  Key : Type;
  (** [crypto.subtle.digest("SHA-256", utf8(secret))] followed by
      [crypto.subtle.importKey("raw", ..., "AES-GCM", ...)]. *)
  derive_key : string -> Key;
  (** [crypto.subtle.encrypt({name: "AES-GCM", iv}, key, data)]: the
      ciphertext followed by the tag; [None] when the promise rejects. *)
  aes_gcm_encrypt : Key -> list byte -> list byte -> option (list byte);
  (** [crypto.subtle.decrypt({name: "AES-GCM", iv}, key, data)]; [None]
      when the promise rejects (the tag does not verify). *)
  aes_gcm_decrypt : Key -> list byte -> list byte -> option (list byte);
  (** [verifyAsync(signature, message, publicKey)] of @noble/ed25519 on the
      UTF-8 bytes of the message; [None] when it throws. *)
  verifyAsync : list byte -> string -> list byte -> option bool;
  (** msgpack [encode] of an argument array and [decode]; [None] when
      [decode] throws. *)
  msgpack_encode : list msg -> list byte;
  msgpack_decode : list byte -> option msg;
  (** [JSON.parse]; [None] when it throws a [SyntaxError]. *)
  JSON_parse : string -> option json;
  (** [fetch(url, init)]; [None] when the promise rejects. *)
  fetch : FetchCall -> option FetchResponse
}.

(** ** index.js: encrypt and decrypt *)

Module Cipher.

(** [crypto.getRandomValues(new Uint8Array(12))]: twelve bytes of the
    random source. *)
Definition getRandomValues12 (entropy : nat -> byte) : list byte :=
  map entropy (seq 0 12).

(** [encrypt(key, data)]. [fixedIv] is the module variable of typed.ts
    ([null] unless [poisonIv] was called); [entropy] is the random source at
    the time of the call. The pinned IV, being an object, is truthy whatever
    its length. *)
Definition encrypt (P : Platform) (fixedIv : option (list byte))
    (entropy : nat -> byte) (key : Key P) (data : list byte) : exn + string :=
  let iv := match fixedIv with
            | Some pinned => pinned
            | None => getRandomValues12 entropy
            end in
  match aes_gcm_encrypt P key iv data with
  | None => inl OperationError
  | Some encrypted =>
      inr (Typed.toBase64Polyfill iv +:+ ":" +:+ Typed.toBase64Polyfill encrypted)
  end.

(** [decrypt(key, data)]. [data] is whatever the request body held under
    [encrypted_data] ([None] for [undefined]): [data.split] exists on
    strings only. *)
Definition decrypt (P : Platform) (key : Key P) (data : option json)
  : exn + list byte :=
  match data with
  | Some (JStr s) =>
      let pieces := Js.split_limit ":" 2 s in
      let iv := nth 0 pieces EmptyString in
      let encrypted := nth 1 pieces EmptyString in
      if negb (Js.str_truthy iv) || negb (Js.str_truthy encrypted)
      then inl (JsError "Invalid encrypted data.")
      else
        match Typed.fromBase64 iv with
        | None => inl FetchError
        | Some iv_bytes =>
            match Typed.fromBase64 encrypted with
            | None => inl FetchError
            | Some encrypted_bytes =>
                match aes_gcm_decrypt P key iv_bytes encrypted_bytes with
                | None => inl OperationError
                | Some decrypted => inr decrypted
                end
            end
        end
  | _ => inl TypeError
  end.

(** The contract of AES-GCM: under a non-empty IV, sealing succeeds, its
    output carries the tag (so it is not empty) and opens, under the same
    key and IV, to the plaintext. *)
Definition aead_correct (P : Platform) : Prop :=
  forall (k : Key P) (iv p : list byte),
    iv <> [] ->
    exists ct, aes_gcm_encrypt P k iv p = Some ct /\ ct <> []
               /\ aes_gcm_decrypt P k iv ct = Some p.

End Cipher.

(** ** index.js: the handler tree and the router *)

Module Router.

(** A handler function of the application: an identity to tell calls
    apart, its declared number of parameters ([f.length]) and what a call
    does: [None] when the promise resolves, [Some e] when it throws or
    rejects with [e]. *)
Record Handler : Type := mkHandler {
  h_id : nat;
  h_length : nat;
  h_run : list msg -> option exn
}.

(** The tree given to [createRouter]: a function, a wrapper made by
    [customEndpoint], or an object listed as [Object.entries] lists it. *)
Inductive Fns : Type :=
| Fn (f : Handler)
| Wrapped (endpoint : string) (fnOrFns : Fns)
| Obj (entries : list (string * Fns)).

(** [customEndpoint(endpoint, fnOrFns)]: the object
    [{fnOrFns, [internalSym]: [endpoint, fnOrFns]}]. *)
Definition customEndpoint (endpoint : string) (fnOrFns : Fns) : Fns :=
  Wrapped endpoint fnOrFns.

(** What [_write] builds: under each key the closure made by
    [apiHandlerBuilder(apiKey, encryptionKey, jobType, endpoint)], or a
    nested object. *)
Inductive Route : Type :=
| ApiHandler (jobType endpoint : string)
| Sub (obj : list (string * Route)).

(** [keyStack.push(key)] and [keyStack.pop()] on the shared array. *)
Definition push (keyStack : list string) (key : string) : list string :=
  keyStack ++ [key].

Definition pop (keyStack : list string) : list string := removelast keyStack.

(** The job type computed for a function found under [key]. *)
Definition job_type (keyStack : list string) (key : string) : string :=
  let k := Js.join "." keyStack in
  if String.eqb k "" then key else k +:+ "." +:+ key.

(** One turn of the [for] loop of [_write] on the entry [[key, value]],
    from the state [(obj, keyStack)] of the two mutated arguments. The two
    recursive calls of [_write] are inlined: each is a loop over the
    entries it is given, followed by [keyStack.pop()]; the wrapped case
    loops over the single entry of [{[key]: customFns}]. *)
Fixpoint write_entry (endpointId : string) (key : string) (value : Fns)
    (st : list (string * Route) * list string) {struct value}
  : list (string * Route) * list string :=
  let '(obj, keyStack) := st in
  match value with
  | Fn _ =>
      (obj_set obj key (ApiHandler (job_type keyStack key) endpointId), keyStack)
  | Wrapped customEndpointId customFns =>
      let '(obj', keyStack') :=
        write_entry customEndpointId key customFns (obj, keyStack) in
      (obj', pop keyStack')
  | Obj entries =>
      let '(nextObj, keyStack') :=
        (fix loop (es : list (string * Fns)) st' :=
           match es with
           | [] => st'
           | (k, v) :: rest => loop rest (write_entry endpointId k v st')
           end) entries ([], push keyStack key) in
      (obj_set obj key (Sub nextObj), pop keyStack')
  end.

(** [_write(apiKey, encryptionKey, endpointId, obj, fns, keyStack)]: the
    loop over [Object.entries(fns)], then [keyStack.pop()]. Returns the two
    mutated arguments. *)
Definition _write (endpointId : string) (obj : list (string * Route))
    (fns : list (string * Fns)) (keyStack : list string)
  : list (string * Route) * list string :=
  let '(obj', keyStack') :=
    fold_left (fun st e => write_entry endpointId (fst e) (snd e) st) fns
              (obj, keyStack) in
  (obj', pop keyStack').

(** The router object: the routes, and under [internalSym] the handler
    tree, the derived key and the public key. The API key is the one every
    closure captured. *)
Record Router (P : Platform) : Type := mkRouter {
  routes : list (string * Route);
  internal_fns : list (string * Fns);
  internal_encryptionKey : Key P;
  internal_publicKey : string;
  router_apiKey : string
}.
Arguments routes {P}.
Arguments internal_fns {P}.
Arguments internal_encryptionKey {P}.
Arguments internal_publicKey {P}.
Arguments router_apiKey {P}.

(** [createRouter(apiKey, encryptionKey, publicKey, defaultEndpointId, fns)]. *)
Definition createRouter (P : Platform) (apiKey encryptionKey publicKey : string)
    (defaultEndpointId : string) (fns : list (string * Fns)) : Router P :=
  let key := derive_key P encryptionKey in
  let obj := fst (_write defaultEndpointId [] fns []) in
  mkRouter P obj fns key publicKey apiKey.

(** [router.k1.k2...]: the route reached by a chain of property reads. *)
Fixpoint route_at (obj : list (string * Route)) (path : list string) : option Route :=
  match path with
  | [] => None
  | [k] => obj_get obj k
  | k :: rest =>
      match obj_get obj k with
      | Some (Sub obj') => route_at obj' rest
      | _ => None
      end
  end.

(** The leaves of a handler tree, each with the keys from the root to it
    (wrappers add no key) and the endpoint of the innermost wrapper around
    it, [endpointId] when there is none. *)
Fixpoint leaves (endpointId : string) (path : list string) (value : Fns)
  : list (list string * string) :=
  match value with
  | Fn _ => [(path, endpointId)]
  | Wrapped customEndpointId customFns => leaves customEndpointId path customFns
  | Obj entries =>
      (fix each (es : list (string * Fns)) :=
         match es with
         | [] => []
         | (k, v) :: rest => leaves endpointId (path ++ [k]) v ++ each rest
         end) entries
  end.

(** The leaves of the tree handed to [createRouter]. *)
Definition router_leaves (defaultEndpointId : string) (fns : list (string * Fns))
  : list (list string * string) :=
  leaves defaultEndpointId [] (Obj fns).

(** The number of wrappers in a tree. *)
Fixpoint wrappers (value : Fns) : nat :=
  match value with
  | Fn _ => 0
  | Wrapped _ customFns => S (wrappers customFns)
  | Obj entries =>
      (fix sum (es : list (string * Fns)) : nat :=
         match es with
         | [] => 0
         | (_, v) :: rest => wrappers v + sum rest
         end) entries
  end%nat.

(** Keys are distinct inside every object of the tree (as they are in any
    JS object). *)
Fixpoint distinct_keys (value : Fns) : Prop :=
  match value with
  | Fn _ => True
  | Wrapped _ customFns => distinct_keys customFns
  | Obj entries =>
      List.NoDup (map fst entries)
      /\ (fix each (es : list (string * Fns)) : Prop :=
            match es with
            | [] => True
            | (_, v) :: rest => distinct_keys v /\ each rest
            end) entries
  end.

(** Inside every object of the tree, only the last entry holds wrappers. *)
Fixpoint tidy (value : Fns) : Prop :=
  match value with
  | Fn _ => True
  | Wrapped _ customFns => tidy customFns
  | Obj entries =>
      (fix each (es : list (string * Fns)) : Prop :=
         match es with
         | [] => True
         | (_, v) :: rest => tidy v /\ (rest = [] \/ wrappers v = 0%nat) /\ each rest
         end) entries
  end.

(** The stack holds a path whose dot-joined form tells it from no path. *)
Definition joinable (keyStack : list string) : Prop :=
  keyStack = [] \/ Js.join "." keyStack <> "".

End Router.

(** ** index.js: the inbound webhook *)

Module Http.
Import Router.

(** The part of a [Request] that [httpRoute] reads: the two headers as
    [headers.get] returns them ([None] is [null]: the header is absent) and
    the text of the body. *)
Record Request : Type := mkRequest {
  x_signature_ed25519 : option string;
  x_signature_timestamp : option string;
  text : string
}.

(** How a call of the request function ends: with a [Response], or with
    the returned promise rejected. *)
Inductive Outcome : Type :=
| Respond (status : Z) (body : option string)
| Reject (e : exn).

(** The outcome, and the handler calls made on the way: the handler's
    identity and the arguments it received. *)
Record Result : Type := mkResult {
  outcome : Outcome;
  invoked : list (nat * list msg)
}.

(** [fromHex(hex)]. [hex.match] throws on [null]; [match] gives [null]
    when nothing matches, and [null.map] throws. *)
Definition fromHex (hex : option string) : exn + list byte :=
  match hex with
  | None => inl TypeError
  | Some s =>
      match Js.match_chunks s with
      | [] => inl TypeError
      | chunks => inr (map (fun chunk => Js.to_uint8 (Js.parseInt chunk 16)) chunks)
      end
  end.

(** [verifySignature(publicKey, message, signature)]: the two conversions
    are outside the [try]; whatever [verifyAsync] throws is [false]. *)
Definition verifySignature (P : Platform) (publicKey : string) (message : string)
    (signature : option string) : exn + bool :=
  match fromHex (Some publicKey) with
  | inl e => inl e
  | inr publicKeyBytes =>
      match fromHex signature with
      | inl e => inl e
      | inr signatureBytes =>
          match verifyAsync P signatureBytes message publicKeyBytes with
          | Some valid => inr valid
          | None => inr false
          end
      end
  end.

(** A value met while walking [fns]: a node of the handler tree, or a
    value that is neither a function nor an object (then only its
    truthiness matters). *)
Inductive jsval : Type :=
| Node (v : Fns)
| Prim (truthy : bool).

(** Property reads that the handler tree does not answer fall through to
    what the objects inherit or carry besides their entries
    ([Object.prototype], [Function.prototype], [f.length], [f.name], the
    wrappers of primitives); [None] is [undefined]. *)
Definition Inherited : Type := jsval -> string -> option jsval.

(** [fn[part]]: own properties first. *)
Definition get_prop (inherited : Inherited) (fn : jsval) (part : string)
  : option jsval :=
  match fn with
  | Node (Obj entries) =>
      match obj_get entries part with
      | Some v => Some (Node v)
      | None => inherited fn part
      end
  | Node (Wrapped _ fnOrFns) =>
      if String.eqb part "fnOrFns" then Some (Node fnOrFns) else inherited fn part
  | _ => inherited fn part
  end.

(** The loop [for (const part of fnParts)]; [None] is the 404 returned
    from inside the loop. A wrapper is replaced by what it wraps, once. *)
Fixpoint walk (inherited : Inherited) (fn : jsval) (fnParts : list string)
  : option jsval :=
  match fnParts with
  | [] => Some fn
  | part :: rest =>
      match get_prop inherited fn part with
      | None => None
      | Some (Prim false) => None
      | Some (Node (Wrapped _ fnOrFns)) => walk inherited (Node fnOrFns) rest
      | Some fn' => walk inherited fn' rest
      end
  end.

(** [...data]: arrays, strings (by code point) and byte arrays are
    iterable; [None] is the [TypeError] of spreading anything else. *)
Definition spread (data : msg) : option (list msg) :=
  match data with
  | MArr items => Some items
  | MStr s => Some (map MStr (Js.code_points s))
  | MBin bytes => Some (map (fun b => MNum (Z.of_N (Byte.to_N b))) bytes)
  | _ => None
  end.

Definition MAX_TIME_DIFF : Z := 300.

(** [timeDifference > MAX_TIME_DIFF] where [requestTime], and with it
    [timeDifference], may be [NaN]: every comparison with [NaN] is false. *)
Definition too_old (currentTime : Z) (requestTime : option Z) : bool :=
  let timeDifference :=
    match requestTime with
    | Some t => Some (currentTime - t)
    | None => None
    end in
  match timeDifference with
  | Some d => MAX_TIME_DIFF <? d
  | None => false
  end.

(** [httpRoute(router)(req)], at a time when [Date.now()] is [date_now]
    milliseconds. *)
Definition httpRoute (P : Platform) (inherited : Inherited) (router : Router P)
    (date_now : Z) (req : Request) : Result :=
  let fns := internal_fns router in
  let encryptionKey := internal_encryptionKey router in
  let publicKey := internal_publicKey router in
  let signature := x_signature_ed25519 req in
  let timestamp := x_signature_timestamp req in
  let body := text req in
  let message := Js.string_of_nullable timestamp +:+ body in
  let currentTime := date_now / 1000 in
  let requestTime := Js.parseInt (Js.string_of_nullable timestamp) 10 in
  if too_old currentTime requestTime
  then mkResult (Respond 401 (Some "Bad Request - too old")) []
  else
    match verifySignature P publicKey message signature with
    | inl e => mkResult (Reject e) []
    | inr false => mkResult (Respond 401 (Some "Bad Request - invalid signature")) []
    | inr true =>
        match JSON_parse P body with
        | None => mkResult (Reject SyntaxError) []
        | Some JNull => mkResult (Reject TypeError) []
        | Some parsed =>
            let type := json_prop parsed "type" in
            let encrypted_data := json_prop parsed "encrypted_data" in
            let decoded :=
              match Cipher.decrypt P encryptionKey encrypted_data with
              | inl _ => None
              | inr bytes => msgpack_decode P bytes
              end in
            match decoded with
            | None => mkResult (Respond 400 (Some "Bad Request")) []
            | Some data =>
                match type with
                | Some (JStr type_str) =>
                    let fnParts := Js.split "." type_str in
                    match walk inherited (Node (Obj fns)) fnParts with
                    | Some (Node (Fn fn)) =>
                        match spread data with
                        | None => mkResult (Reject TypeError) []
                        | Some args =>
                            match h_run fn args with
                            | Some e => mkResult (Reject e) [(h_id fn, args)]
                            | None => mkResult (Respond 204 None) [(h_id fn, args)]
                            end
                        end
                    | _ => mkResult (Respond 404 (Some "Endpoint Not Found")) []
                    end
                | _ => mkResult (Reject TypeError) []
                end
            end
        end
    end.

(** The request gets through every stage before the call: it is not too
    old, its signature verifies, its body parses to an object whose
    [encrypted_data] decrypts and decodes to [data], whose [type] leads
    through the handler tree to the function [fn], and [data] spreads to
    [args]. *)
Definition reaches_handler (P : Platform) (inherited : Inherited) (router : Router P)
    (date_now : Z) (req : Request) (fn : Handler) (args : list msg) : Prop :=
  let timestamp := Js.string_of_nullable (x_signature_timestamp req) in
  too_old (date_now / 1000) (Js.parseInt timestamp 10) = false
  /\ verifySignature P (internal_publicKey router) (timestamp +:+ text req)
       (x_signature_ed25519 req) = inr true
  /\ exists parsed bytes data type_str,
       JSON_parse P (text req) = Some parsed
       /\ parsed <> JNull
       /\ Cipher.decrypt P (internal_encryptionKey router)
            (json_prop parsed "encrypted_data") = inr bytes
       /\ msgpack_decode P bytes = Some data
       /\ json_prop parsed "type" = Some (JStr type_str)
       /\ walk inherited (Node (Obj (internal_fns router))) (Js.split "." type_str)
          = Some (Node (Fn fn))
       /\ spread data = Some args.

(** The request gets through every stage up to the route: as
    [reaches_handler], with the decoded payload [data] not yet spread. *)
Definition resolves_to_handler (P : Platform) (inherited : Inherited) (router : Router P)
    (date_now : Z) (req : Request) (fn : Handler) (data : msg) : Prop :=
  let timestamp := Js.string_of_nullable (x_signature_timestamp req) in
  too_old (date_now / 1000) (Js.parseInt timestamp 10) = false
  /\ verifySignature P (internal_publicKey router) (timestamp +:+ text req)
       (x_signature_ed25519 req) = inr true
  /\ exists parsed bytes type_str,
       JSON_parse P (text req) = Some parsed
       /\ parsed <> JNull
       /\ Cipher.decrypt P (internal_encryptionKey router)
            (json_prop parsed "encrypted_data") = inr bytes
       /\ msgpack_decode P bytes = Some data
       /\ json_prop parsed "type" = Some (JStr type_str)
       /\ walk inherited (Node (Obj (internal_fns router))) (Js.split "." type_str)
          = Some (Node (Fn fn)).

(** The request is accepted by the two checks on the headers. *)
Definition authenticated (P : Platform) (router : Router P) (date_now : Z)
    (req : Request) : Prop :=
  let timestamp := Js.string_of_nullable (x_signature_timestamp req) in
  too_old (date_now / 1000) (Js.parseInt timestamp 10) = false
  /\ verifySignature P (internal_publicKey router) (timestamp +:+ text req)
       (x_signature_ed25519 req) = inr true.

(** The response to a request found too old. *)
Definition stale_response : Outcome := Respond 401 (Some "Bad Request - too old").

(** ** index.js: the outbound calls *)

Definition jobs_url : string := "https://clocktick.dev/api/v1/jobs".

(** [errorHandledFetch(url, apiKey, method, body)], with the calls made to
    [fetch]. [body] is the value to serialise, [None] when the argument is
    left out. *)
Definition errorHandledFetch (P : Platform) (url apiKey method : string)
    (body : option json) : (exn + FetchResponse) * list FetchCall :=
  let authorization := ("Authorization", "Bearer " +:+ apiKey) in
  let headers :=
    match body with
    | Some _ => [authorization; ("Content-Type", "application/json")]
    | None => [authorization]
    end in
  let call := mkFetchCall url method headers body in
  match fetch P call with
  | None => (inl FetchError, [call])
  | Some res =>
      if res_ok res then (inr res, [call])
      else
        let isAppError := res_is_application_error res in
        if match isAppError with Some v => String.eqb v "true" | None => false end
        then
          match res_json res with
          | None => (inl SyntaxError, [call])
          | Some JNull => (inl TypeError, [call])
          | Some error =>
              match json_prop error "reasons" with
              | Some (JArr reasons) =>
                  (inl (APIError (json_prop error "type") reasons), [call])
              | _ => (inl TypeError, [call])
              end
          end
        else (inl (JsError ("HTTP error: " +:+ Js.string_of_Z (res_status res))), [call])
  end.

(** [deleteJob(apiKey, jobId)], with the calls made to [fetch].
    [encodeURIComponent] throws before anything is fetched. *)
Definition deleteJob (P : Platform) (apiKey : string) (jobId : Heap.val)
  : (exn + unit) * list FetchCall :=
  match jobId with
  | Heap.VStr id =>
      if String.eqb id "" then (inl (JsError "Invalid job ID."), [])
      else
        match Js.encodeURIComponent id with
        | None => (inl URIError, [])
        | Some encoded =>
            let url := jobs_url +:+ "/" +:+ encoded in
            match errorHandledFetch P url apiKey "DELETE" None with
            | (inl e, calls) => (inl e, calls)
            | (inr _, calls) => (inr tt, calls)
            end
        end
  | _ => (inl (JsError "Invalid job ID."), [])
  end.

(** The URL a job is posted to: the collection, or the job of the
    identifier when it is neither [null] nor empty; [None] is the
    [URIError] of [encodeURIComponent]. *)
Definition post_url (id : option string) : option string :=
  match id with
  | Some s =>
      if String.eqb s "" then Some jobs_url
      else
        match Js.encodeURIComponent s with
        | Some encoded => Some (jobs_url +:+ "/" +:+ encoded)
        | None => None
        end
  | None => Some jobs_url
  end.

(** The closure returned by [apiHandlerBuilder(apiKey, encryptionKey,
    jobType, endpoint)], called as [handler(props, ...args)] on the heap
    [h]: the new heap, the result, and the calls made to [fetch]. The URL
    is built, and [encodeURIComponent] may throw, before the data object is
    written to and before anything is encrypted or fetched. *)
Definition apiHandlerBuilder (P : Platform) (apiKey : string) (encryptionKey : Key P)
    (jobType endpoint : string)
    (fixedIv : option (list byte)) (entropy : nat -> byte)
    (props : Heap.loc) (args : list msg) (h : Heap.heap)
  : Heap.heap * (exn + json) * list FetchCall :=
  match CreateJobProperties.toObject props h with
  | None => (h, inl TypeError, [])
  | Some (h1, obj) =>
      let url :=
        match Heap.get_field h1 obj "id" with
        | Some (Heap.VStr id) => post_url (Some id)
        | _ => post_url None
        end in
      match url, Heap.get_field h1 obj "data" with
      | None, _ => (h1, inl URIError, [])
      | Some url, Some (Heap.VRef data) =>
          match Heap.set_field h1 data "endpoint_id" (Heap.VStr endpoint) with
          | None => (h1, inl TypeError, [])
          | Some h2 =>
              match Cipher.encrypt P fixedIv entropy encryptionKey
                      (msgpack_encode P args) with
              | inl e => (h2, inl e, [])
              | inr encrypted =>
                  match Heap.set_field h2 data "encrypted_data" (Heap.VStr encrypted) with
                  | None => (h2, inl TypeError, [])
                  | Some h3 =>
                      match Heap.set_field h3 data "job_type" (Heap.VStr jobType) with
                      | None => (h3, inl TypeError, [])
                      | Some h4 =>
                          match Heap.JSON_stringify h4 (Heap.VRef data) with
                          | None => (h4, inl TypeError, [])
                          | Some body =>
                              match errorHandledFetch P url apiKey "POST" (Some body) with
                              | (inl e, calls) => (h4, inl e, calls)
                              | (inr res, calls) =>
                                  match res_json res with
                                  | Some j => (h4, inr j, calls)
                                  | None => (h4, inl SyntaxError, calls)
                                  end
                              end
                          end
                      end
                  end
              end
          end
      | Some _, _ => (h1, inl TypeError, [])
      end
  end.

(** Calling a route of the router: [router.k1.k2...(props, ...args)]. *)
Definition call_route (P : Platform) (router : Router P) (path : list string)
    (fixedIv : option (list byte)) (entropy : nat -> byte)
    (props : Heap.loc) (args : list msg) (h : Heap.heap)
  : Heap.heap * (exn + json) * list FetchCall :=
  match route_at (routes router) path with
  | Some (ApiHandler jobType endpoint) =>
      apiHandlerBuilder P (router_apiKey router) (internal_encryptionKey router)
        jobType endpoint fixedIv entropy props args h
  | _ => (h, inl TypeError, [])
  end.

(** One scheduling call on a route: the route's job type and endpoint,
    the IV override and random source at the time of the call, and the
    arguments. *)
Record Scheduling : Type := mkScheduling {
  s_jobType : string;
  s_endpoint : string;
  s_fixedIv : option (list byte);
  s_entropy : nat -> byte;
  s_args : list msg
}.

(** Scheduling calls made one after the other with the same [props]
    object: the final heap and all the calls made to [fetch]. *)
Fixpoint schedule_all (P : Platform) (apiKey : string) (encryptionKey : Key P)
    (props : Heap.loc) (calls : list Scheduling) (h : Heap.heap)
  : Heap.heap * list FetchCall :=
  match calls with
  | [] => (h, [])
  | c :: rest =>
      let '(h1, _, sent) :=
        apiHandlerBuilder P apiKey encryptionKey (s_jobType c) (s_endpoint c)
          (s_fixedIv c) (s_entropy c) props (s_args c) h in
      let '(h2, sent') := schedule_all P apiKey encryptionKey props rest h1 in
      (h2, sent ++ sent')
  end.

(** The call [c] is a POST for the identifier [id] whose body carries
    [start_from] and [run_every] under those two keys. *)
Definition sends (id : option string) (start_from run_every : json) (c : FetchCall)
  : Prop :=
  fc_method c = "POST"
  /\ post_url id = Some (fc_url c)
  /\ exists body,
       fc_body c = Some body
       /\ json_prop body "start_from" = Some start_from
       /\ json_prop body "run_every" = Some run_every.

End Http.

(** ** A small platform to run the definitions on

    Stand-ins for the platform, used by the examples only: an AEAD that
    appends a one-byte tag, a signature that is the length of the message,
    the msgpack encoding of arrays of small non-negative integers, a JSON
    parser that knows the bodies of the examples, and a [fetch] that always
    answers 200 with [{id: "job_id"}], as the mock of the repository's tests
    does. *)

Module Demo.
Import Router Http.

Definition tag : byte := x2a%byte.

Definition seal (key iv data : list byte) : option (list byte) :=
  Some (data ++ [tag]).

Definition open (key iv data : list byte) : option (list byte) :=
  match rev data with
  | t :: body => if Byte.eqb t tag then Some (rev body) else None
  | [] => None
  end.

Fixpoint bytes_eqb (a b : list byte) : bool :=
  match a, b with
  | [], [] => true
  | x :: a', y :: b' => Byte.eqb x y && bytes_eqb a' b'
  | _, _ => false
  end.

Definition sign (message : string) : list byte :=
  [Js.to_uint8 (Some (Z.of_nat (String.length message)))].

Definition verify (signature : list byte) (message : string) (publicKey : list byte)
  : option bool :=
  Some (bytes_eqb signature (sign message)).

(** msgpack, restricted to [fixarray] of positive [fixint]. *)
Definition small_int (m : msg) : option byte :=
  match m with
  | MNum n => if (0 <=? n) && (n <=? 127) then Byte.of_N (Z.to_N n) else None
  | _ => None
  end.

Definition pack (args : list msg) : list byte :=
  match Heap.traverse small_int args with
  | Some bytes =>
      match Byte.of_N (144 + N.of_nat (List.length args)) with
      | Some header => if (List.length args <=? 15)%nat then header :: bytes else []
      | None => []
      end
  | None => []
  end.

Definition unpack (bytes : list byte) : option msg :=
  match bytes with
  | header :: items =>
      if ((144 <=? Byte.to_N header) && (Byte.to_N header <=? 159)
          && (N.of_nat (List.length items) =? Byte.to_N header - 144)
          && forallb (fun b => Byte.to_N b <=? 127) items)%N
      then Some (MArr (map (fun b => MNum (Z.of_N (Byte.to_N b))) items))
      else None
  | [] => None
  end.

(** The text of a JSON value whose strings need no escaping. *)
Definition quote : string := String (ascii_of_nat 34) EmptyString.

Fixpoint render (j : json) : string :=
  match j with
  | JNull => "null"
  | JBool true => "true"
  | JBool false => "false"
  | JNum n => match Js.integer_value n with
              | Some z => Js.string_of_Z z
              | None => "NaN"
              end
  | JStr s => quote +:+ s +:+ quote
  | JArr items => "[" +:+ Js.join "," (map render items) +:+ "]"
  | JObj fields =>
      "{" +:+ Js.join ","
        ((fix each (fs : list (string * json)) : list string :=
            match fs with
            | [] => []
            | (k, v) :: rest => (quote +:+ k +:+ quote +:+ ":" +:+ render v) :: each rest
            end) fields) +:+ "}"
  end.

Definition testIv : list byte :=
  [x01; x02; x03; x04; x05; x06; x07; x08; x09; x0a; x0b; x0c]%byte.

(** The envelope of the arguments, under the pinned IV of the tests. *)
Definition envelope (args : list msg) : string :=
  Base64.encode testIv +:+ ":" +:+ Base64.encode (pack args ++ [tag]).

Definition webhook_body (type : string) (encrypted_data : string) : json :=
  JObj [("type", JStr type); ("encrypted_data", JStr encrypted_data)].

(** The bodies of the examples. *)
Definition known_bodies : list json :=
  [webhook_body "test1" (envelope [MNum 1]);
   webhook_body "test1" (envelope [MNum 1; MNum 2]);
   webhook_body "fails" (envelope [MNum 1]);
   webhook_body "test2.test3.test4" (envelope [MNum 2]);
   webhook_body "test69" (envelope [MNum 1]);
   webhook_body "test1" "bad"].

Definition parse (s : string) : option json :=
  find (fun j => String.eqb (render j) s) known_bodies.

Definition job_created : FetchResponse :=
  mkFetchResponse 200 None (Some (JObj [("id", JStr "job_id")])).

Definition platform : Platform :=
  mkPlatform (list byte) list_byte_of_string seal open verify pack unpack parse
             (fun _ => Some job_created).

(** No property is inherited: the examples read own properties only. *)
Definition own_only : Inherited := fun _ _ => None.

Definition returns : Handler := mkHandler 1 1 (fun _ => None).
Definition throws : Handler := mkHandler 2 1 (fun _ => Some (Thrown "boom")).
Definition nested : Handler := mkHandler 3 1 (fun _ => None).

Definition fns : list (string * Fns) :=
  [("test1", Fn returns);
   ("fails", Fn throws);
   ("test2", Obj [("test3", customEndpoint "test3_endpoint"
                              (Obj [("test4", Fn nested)]))])].

Definition router : Router platform :=
  createRouter platform "key" "encryption_key_here" "abcd" "default_endpoint_id" fns.

(** A request signed at [timestamp], or with the headers given. *)
Definition hex_of_bytes (bs : list byte) : string :=
  String.concat ""
    (map (fun b => let n := Z.of_N (Byte.to_N b) in
                   String (Js.hex_digit (n / 16)) (String (Js.hex_digit (n mod 16)) EmptyString))
         bs).

Definition signed (timestamp : string) (body : string) : Request :=
  mkRequest (Some (hex_of_bytes (sign (timestamp +:+ body)))) (Some timestamp) body.

(** The one-character string of a lone surrogate, U+D800. *)
Definition lone_surrogate : string :=
  String (ascii_of_nat 237) (String (ascii_of_nat 160)
    (String (ascii_of_nat 128) EmptyString)).

(** [Date.now()] of the examples: second 1000. *)
Definition date_now : Z := 1000000.

(** The tree with a function after a wrapped entry, inside an object. *)
Definition wrapped_then_plain : list (string * Fns) :=
  [("a", Obj [("b", customEndpoint "E2" (Fn returns)); ("c", Fn nested)])].

(** The heap after [fromDatetime(new Date(0))]: the [start_from] object at
    location 0 and the instance at location 1. *)
Definition epoch : string := "1970-01-01T00:00:00.000Z".

Definition props_heap : Heap.heap :=
  match Properties.fromDatetime (Some epoch) None [] with
  | inr (h, _) => h
  | inl _ => []
  end.

Definition props : Heap.loc := 1%nat.

(** Two scheduling calls, on two routes, under the pinned IV. *)
Definition two_calls : list Scheduling :=
  [mkScheduling "test1" "default_endpoint_id" (Some testIv) (fun _ => x00%byte) [MNum 1];
   mkScheduling "test2.test3.test4" "test3_endpoint" (Some testIv) (fun _ => x00%byte)
     [MNum 2]].

End Demo.

(** ** Vocabulary for the properties of Part III *)

Module Stages.
Import Router Http.

(** The request gets through every stage before the route is looked up:
    the two checks on the headers, [JSON.parse], decryption and decoding.
    [type] is what the body holds under that key ([None] for [undefined])
    and [data] the decoded payload. *)
Definition decodes (P : Platform) (router : Router P) (date_now : Z)
    (req : Request) (type : option json) (data : msg) : Prop :=
  authenticated P router date_now req
  /\ exists parsed bytes,
       JSON_parse P (text req) = Some parsed
       /\ parsed <> JNull
       /\ Cipher.decrypt P (internal_encryptionKey router)
            (json_prop parsed "encrypted_data") = inr bytes
       /\ msgpack_decode P bytes = Some data
       /\ json_prop parsed "type" = type.

(** What the loop of [httpRoute] makes of a value it has just read: a
    wrapper is replaced by what it wraps. *)
Definition unwrap (value : Fns) : Fns :=
  match value with
  | Wrapped _ fnOrFns => fnOrFns
  | _ => value
  end.

Definition is_wrapper (value : Fns) : bool :=
  match value with
  | Wrapped _ _ => true
  | _ => false
  end.

(** The leaves of a handler tree as [Router.leaves] lists them, each with
    its function. *)
Fixpoint handler_leaves (endpointId : string) (path : list string) (value : Fns)
  : list (list string * string * Handler) :=
  match value with
  | Fn f => [(path, endpointId, f)]
  | Wrapped customEndpointId customFns =>
      handler_leaves customEndpointId path customFns
  | Obj entries =>
      (fix each (es : list (string * Fns)) :=
         match es with
         | [] => []
         | (k, v) :: rest => handler_leaves endpointId (path ++ [k]) v ++ each rest
         end) entries
  end.

(** No wrapper wraps a wrapper directly. *)
Fixpoint singly_wrapped (value : Fns) : Prop :=
  match value with
  | Fn _ => True
  | Wrapped _ customFns => is_wrapper customFns = false /\ singly_wrapped customFns
  | Obj entries =>
      (fix each (es : list (string * Fns)) : Prop :=
         match es with
         | [] => True
         | (_, v) :: rest => singly_wrapped v /\ each rest
         end) entries
  end.

(** No key of the tree holds a dot. *)
Fixpoint dotless_keys (value : Fns) : Prop :=
  match value with
  | Fn _ => True
  | Wrapped _ customFns => dotless_keys customFns
  | Obj entries =>
      (fix each (es : list (string * Fns)) : Prop :=
         match es with
         | [] => True
         | (k, v) :: rest => Js.lacks "." k = true /\ dotless_keys v /\ each rest
         end) entries
  end.

(** Every character of the string is an ASCII character other than the
    two line terminators. *)
Fixpoint single_line_ascii (s : string) : bool :=
  match s with
  | EmptyString => true
  | String c rest =>
      (Js.code c <? 128) && negb (Js.is_line_terminator c) && single_line_ascii rest
  end.

(** The body the closure posts. *)
Definition post_body (start_from run_every : json) (endpoint encrypted jobType : string)
  : json :=
  JObj [("start_from", start_from); ("run_every", run_every);
        ("endpoint_id", JStr endpoint); ("encrypted_data", JStr encrypted);
        ("job_type", JStr jobType)].

End Stages.

Module Callbacks.

(** What a callback can do with the builder it is handed: the fields are
    private, so it is a sequence of calls of the unit methods and of
    [recurring()], which it may cut short by throwing. *)
Inductive step : Type :=
| Add (u : DeltaBuilder.unit_name) (v : float)
| Recurring
| Throw (e : exn).

Definition is_recurring (s : step) : bool :=
  match s with Recurring => true | _ => false end.

(** One step on the builder that [fromNow] hands out. *)
Definition run (s : step) (c : DeltaBuilder.t * bool) : exn + DeltaBuilder.t * bool :=
  match s with
  | Add u v => inr (DeltaBuilder.call (u, v) (fst c), snd c)
  | Recurring => inr (Properties.recurring c)
  | Throw e => inl e
  end.

(** The callback [c => { c.s1().s2()... }] given to [fromNow]. *)
Fixpoint callback (steps : list step) (c : DeltaBuilder.t * bool)
  : exn + DeltaBuilder.t * bool :=
  match steps with
  | [] => inr c
  | s :: rest =>
      match run s c with
      | inl e => inl e
      | inr c' => callback rest c'
      end
  end.

(** One step on the builder that [fromDatetime] hands out, a plain
    [DeltaBuilder]: it has no method [recurring], and calling what is
    [undefined] throws a [TypeError]. *)
Definition run_plain (s : step) (b : DeltaBuilder.t) : exn + DeltaBuilder.t :=
  match s with
  | Add u v => inr (DeltaBuilder.call (u, v) b)
  | Recurring => inl TypeError
  | Throw e => inl e
  end.

(** The callback given to [fromDatetime]. *)
Fixpoint plain_callback (steps : list step) (b : DeltaBuilder.t)
  : exn + DeltaBuilder.t :=
  match steps with
  | [] => inr b
  | s :: rest =>
      match run_plain s b with
      | inl e => inl e
      | inr b' => plain_callback rest b'
      end
  end.

(** What the callback throws, if it does: the first [Throw] among the
    steps; on a plain builder, a call of [recurring()] counts as one. *)
Fixpoint thrown (steps : list step) : option exn :=
  match steps with
  | [] => None
  | Throw e :: _ => Some e
  | _ :: rest => thrown rest
  end.

Fixpoint thrown_plain (steps : list step) : option exn :=
  match steps with
  | [] => None
  | Throw e :: _ => Some e
  | Recurring :: _ => Some TypeError
  | Add _ _ :: rest => thrown_plain rest
  end.

(** The unit calls among the steps. *)
Fixpoint additions (steps : list step) : list (DeltaBuilder.unit_name * float) :=
  match steps with
  | [] => []
  | Add u v :: rest => (u, v) :: additions rest
  | _ :: rest => additions rest
  end.

(** The delta accumulated by a list of unit calls: for each unit the sum
    of the values passed to it, added as doubles in call order. *)
Definition totals (calls : list (DeltaBuilder.unit_name * float)) : DeltaBody.t :=
  DeltaBody.mk (DeltaBuilder.total DeltaBuilder.Years calls)
               (DeltaBuilder.total DeltaBuilder.Months calls)
               (DeltaBuilder.total DeltaBuilder.Days calls)
               (DeltaBuilder.total DeltaBuilder.Hours calls)
               (DeltaBuilder.total DeltaBuilder.Minutes calls)
               (DeltaBuilder.total DeltaBuilder.Seconds calls).

(** The six fields of a delta as [JSON.stringify] writes them. *)
Definition delta_json (d : DeltaBody.t) : list (string * json) :=
  [("years", json_of_number (DeltaBody.years d));
   ("months", json_of_number (DeltaBody.months d));
   ("days", json_of_number (DeltaBody.days d));
   ("hours", json_of_number (DeltaBody.hours d));
   ("minutes", json_of_number (DeltaBody.minutes d));
   ("seconds", json_of_number (DeltaBody.seconds d))].

End Callbacks.

(** ** More to run the definitions on *)

Module DemoMore.
Import Router Http.

(** Bodies without a usable [type], payloads that are not arrays, and
    types that name no key of a tree. *)
Definition no_type : json := JObj [("encrypted_data", JStr (Demo.envelope [MNum 1]))].

Definition numeric_type : json :=
  JObj [("type", JNum 1); ("encrypted_data", JStr (Demo.envelope [MNum 1]))].

(** msgpack of the number 5, which is no array, sealed as the service
    would. *)
Definition scalar_envelope : string :=
  Base64.encode Demo.testIv +:+ ":" +:+ Base64.encode [x05; Demo.tag]%byte.

Definition scalar_payload : json := Demo.webhook_body "test1" scalar_envelope.

Definition parse (s : string) : option json :=
  match Demo.parse s with
  | Some j => Some j
  | None =>
      find (fun j => String.eqb (Demo.render j) s)
        [no_type; numeric_type; scalar_payload;
         Demo.webhook_body "test1.fnOrFns" (Demo.envelope [MNum 1]);
         Demo.webhook_body "constructor" (Demo.envelope [MNum 1])]
  end.

(** msgpack [decode], which also reads a positive [fixint] on its own. *)
Definition unpack (bytes : list byte) : option msg :=
  match bytes with
  | [b] => if (Byte.to_N b <=? 127)%N then Some (MNum (Z.of_N (Byte.to_N b)))
           else Demo.unpack bytes
  | _ => Demo.unpack bytes
  end.

Definition platform : Platform :=
  mkPlatform (list byte) list_byte_of_string Demo.seal Demo.open Demo.verify
             Demo.pack unpack parse (fun _ => Some Demo.job_created).

Definition router : Router platform :=
  createRouter platform "key" "encryption_key_here" "abcd" "default_endpoint_id" Demo.fns.



(** What every object literal inherits under [constructor]: the function
    [Object], which declares one parameter and returns. *)
Definition object_constructor : Handler := mkHandler 999 1 (fun _ => None).

Definition inherits_constructor : Inherited :=
  fun _ part =>
    if String.eqb part "constructor" then Some (Node (Fn object_constructor)) else None.

(** The callback [c => c.hours(1).recurring().minutes(30)], and one that
    throws after its first call. *)
Definition hourly : list Callbacks.step :=
  [Callbacks.Add DeltaBuilder.Hours 1; Callbacks.Recurring;
   Callbacks.Add DeltaBuilder.Minutes 30].

Definition failing : list Callbacks.step :=
  [Callbacks.Add DeltaBuilder.Hours 1; Callbacks.Throw (Thrown "boom");
   Callbacks.Recurring].

End DemoMore.

(* ===================================================================== *)
(** * Part II: theorems *)
(* ===================================================================== *)

(** ** Doubles

    The primitive [float] is specified by [SpecFloat]; what follows shows
    that integers of magnitude at most 2^53 are added exactly. *)

Module NumberFacts.
Import Js.

Lemma iter_pos_nat {A} (f : A -> A) p : forall x,
  SpecFloat.iter_pos f p x = Nat.iter (Pos.to_nat p) f x.
Proof.
  induction p as [p IH|p IH|]; intros x; cbn [SpecFloat.iter_pos].
  - rewrite !IH. rewrite Pos2Nat.inj_xI.
    replace (S (2 * Pos.to_nat p))%nat with (Pos.to_nat p + (Pos.to_nat p + 1))%nat by lia.
    rewrite !Nat.iter_add. reflexivity.
  - rewrite !IH. rewrite Pos2Nat.inj_xO.
    replace (2 * Pos.to_nat p)%nat with (Pos.to_nat p + Pos.to_nat p)%nat by lia.
    rewrite Nat.iter_add. reflexivity.
  - reflexivity.
Qed.

Lemma Pos_iter_shl m d : Pos.iter xO m d = shl m (Pos.to_nat d).
Proof. rewrite Pos2Nat.inj_iter. reflexivity. Qed.

Lemma shl_shl k a b : shl (shl k a) b = shl k (a + b).
Proof. unfold shl. rewrite Nat.add_comm, Nat.iter_add. reflexivity. Qed.

Lemma shl_S k j : shl k (S j) = xO (shl k j).
Proof. reflexivity. Qed.

Lemma Zpos_shl k j : Zpos (shl k j) = Zpos k * 2 ^ Z.of_nat j.
Proof.
  induction j as [|j IH]; [cbn; lia|].
  rewrite shl_S, Pos2Z.inj_xO, IH, Nat2Z.inj_succ, Z.pow_succ_r by lia. lia.
Qed.

Lemma digits_shl k j :
  Zpos (digits2_pos (shl k j)) = Zpos (digits2_pos k) + Z.of_nat j.
Proof.
  induction j as [|j IH]; [cbn; lia|].
  rewrite shl_S. cbn [digits2_pos]. rewrite Pos2Z.inj_succ, IH. lia.
Qed.

Lemma digits_bounds p :
  2 ^ (Zpos (digits2_pos p) - 1) <= Zpos p < 2 ^ Zpos (digits2_pos p).
Proof.
  induction p as [p IH|p IH|]; cbn [digits2_pos]; [| |cbn; lia];
    rewrite Pos2Z.inj_succ;
    replace (Z.succ (Zpos (digits2_pos p)) - 1) with (Z.succ (Zpos (digits2_pos p) - 1)) by lia;
    rewrite !Z.pow_succ_r by lia; lia.
Qed.

Lemma shr_shl j : forall k i,
  Nat.iter j shr_1 {| shr_m := Zpos (shl k (j + i)); shr_r := false; shr_s := false |}
  = {| shr_m := Zpos (shl k i); shr_r := false; shr_s := false |}.
Proof.
  induction j as [|j IH]; intros k i; [reflexivity|].
  rewrite Nat.iter_succ_r. cbn [Nat.add]. rewrite shl_S. cbn [shr_1 orb].
  apply IH.
Qed.

Lemma fexp_normal e : -1074 <= e - 53 -> fexp prec emax e = e - 53.
Proof. intros H. unfold fexp, emin, prec, emax. lia. Qed.

(** Rounding a mantissa [k * 2^j] whose odd part fits in 53 bits is exact. *)
Lemma binary_round_shl s k j e :
  Zpos (digits2_pos k) <= 53 ->
  -1074 <= e + Z.of_nat j + Zpos (digits2_pos k) - 53 <= 971 ->
  binary_round prec emax s (shl k j) e
  = S754_finite s (shl k (Z.to_nat (53 - Zpos (digits2_pos k))))
      (e + Z.of_nat j + Zpos (digits2_pos k) - 53).
Proof.
  intros Hd Hrange. set (d := Zpos (digits2_pos k)) in *.
  unfold binary_round.
  rewrite digits_shl. fold d.
  rewrite fexp_normal by lia.
  assert (Hfinal : forall m ez,
            Zpos (digits2_pos m) = 53 -> -1074 <= ez <= 971 ->
            binary_round_aux prec emax s (Zpos m) ez loc_Exact = S754_finite s m ez).
  { intros m ez Hm Hez. unfold binary_round_aux, shr_fexp. cbn [Zdigits2 shr_record_of_loc].
    rewrite Hm, fexp_normal by lia.
    replace (53 + ez - 53 - ez) with 0 by lia. cbn [shr shr_m loc_of_shr_record round_nearest_even].
    cbn [Zdigits2]. rewrite Hm, fexp_normal by lia.
    replace (53 + ez - 53 - ez) with 0 by lia. cbn [shr shr_m].
    unfold emax, prec. destruct (Z.leb_spec ez (1024 - 53)) as [_|H]; [reflexivity|lia]. }
  unfold shl_align.
  replace (d + Z.of_nat j + e - 53 - e) with (d + Z.of_nat j - 53) by lia.
  destruct (d + Z.of_nat j - 53) as [|t|t] eqn:Ht.
  - (* already 53 bits *)
    rewrite Hfinal.
    + f_equal; [|lia]. f_equal. lia.
    + rewrite digits_shl. fold d. lia.
    + lia.
  - (* too long: shift right, dropping zeros *)
    unfold binary_round_aux, shr_fexp. cbn [Zdigits2 shr_record_of_loc].
    rewrite digits_shl. fold d. rewrite fexp_normal by lia.
    replace (d + Z.of_nat j + e - 53 - e) with (Zpos t) by lia.
    cbn [shr]. rewrite iter_pos_nat.
    assert (Hshr : Nat.iter (Pos.to_nat t) shr_1
                     {| shr_m := Zpos (shl k j); shr_r := false; shr_s := false |}
                   = {| shr_m := Zpos (shl k (Z.to_nat (53 - d)));
                        shr_r := false; shr_s := false |}).
    { replace j with (Pos.to_nat t + Z.to_nat (53 - d))%nat by lia. apply shr_shl. }
    rewrite Hshr. cbn [shr_m loc_of_shr_record round_nearest_even Zdigits2].
    rewrite digits_shl. fold d. rewrite fexp_normal by lia.
    replace (d + Z.of_nat (Z.to_nat (53 - d)) + (e + Zpos t) - 53 - (e + Zpos t)) with 0 by lia.
    cbn [shr shr_m]. unfold emax, prec.
    destruct (Z.leb_spec (e + Zpos t) (1024 - 53)) as [_|H]; [|lia].
    f_equal. lia.
  - (* too short: shift left *)
    rewrite Pos_iter_shl, shl_shl. rewrite Hfinal.
    + f_equal; [|lia]. f_equal. lia.
    + rewrite digits_shl. fold d. lia.
    + lia.
Qed.


Lemma decompose p :
  Zpos p <= 2 ^ 53 ->
  exists k j, p = shl k j /\ Zpos (digits2_pos k) <= 53
              /\ Z.of_nat j + Zpos (digits2_pos k) <= 54.
Proof.
  intros Hp. destruct (Z.ltb_spec (Zpos p) (2 ^ 53)) as [Hlt|Hge].
  - exists p, 0%nat. split; [reflexivity|].
    pose proof (digits_bounds p) as [Hlow _].
    assert (Zpos (digits2_pos p) - 1 < 53).
    { apply (Z.pow_lt_mono_r_iff 2); lia. }
    cbn [Z.of_nat]. lia.
  - exists 1%positive, 53%nat. split; [|cbn; lia].
    assert (H : Zpos p = Zpos (shl 1 53)) by (rewrite Zpos_shl; lia).
    injection H as ->. reflexivity.
Qed.

Lemma normalize_exact z k j e :
  Z.abs z = Zpos (shl k j) ->
  Zpos (digits2_pos k) <= 53 ->
  -1074 <= e + Z.of_nat j + Zpos (digits2_pos k) - 53 <= 971 ->
  binary_normalize prec emax z e false
  = S754_finite (z <? 0) (shl k (Z.to_nat (53 - Zpos (digits2_pos k))))
      (e + Z.of_nat j + Zpos (digits2_pos k) - 53).
Proof.
  intros Habs Hd Hrange. destruct z as [|p|p]; cbn [Z.abs] in Habs; [discriminate| |];
    injection Habs as ->; cbn [binary_normalize]; apply binary_round_shl; assumption.
Qed.

Lemma canon_nonzero z :
  z <> 0 -> Z.abs z <= 2 ^ 53 ->
  exists k j,
    Z.abs z = Zpos (shl k j)
    /\ Zpos (digits2_pos k) <= 53
    /\ Z.of_nat j + Zpos (digits2_pos k) <= 54
    /\ canon z = S754_finite (z <? 0) (shl k (Z.to_nat (53 - Zpos (digits2_pos k))))
                   (Z.of_nat j + Zpos (digits2_pos k) - 53).
Proof.
  intros Hz Hle.
  assert (Hpos : exists p, Z.abs z = Zpos p) by (destruct z as [|p|p]; [congruence|exists p; reflexivity..]).
  destruct Hpos as [p Hp]. destruct (decompose p) as (k & j & -> & Hd & Hj); [lia|].
  exists k, j. repeat split; try assumption.
  unfold canon. rewrite (normalize_exact z k j 0 Hp Hd).
  - reflexivity.
  - pose proof (Pos2Z.is_pos (digits2_pos k)). lia.
Qed.

Lemma canon_valid z : Z.abs z <= 2 ^ 53 -> valid_binary (canon z) = true.
Proof.
  intros Hle. destruct (Z.eq_dec z 0) as [->|Hz]; [reflexivity|].
  destruct (canon_nonzero z Hz Hle) as (k & j & _ & Hd & Hj & ->).
  pose proof (Pos2Z.is_pos (digits2_pos k)) as Hpos.
  cbn [SpecFloat.valid_binary]. unfold bounded, canonical_mantissa.
  rewrite digits_shl, fexp_normal by lia.
  apply andb_true_iff. split; [apply Z.eqb_eq; lia|].
  unfold emax, prec. apply Z.leb_le. lia.
Qed.

Lemma Prim2SF_double z : Z.abs z <= 2 ^ 53 -> Prim2SF (Js.double z) = canon z.
Proof. intros Hle. apply Prim2SF_SF2Prim, canon_valid, Hle. Qed.

Lemma shl_align_fst m ea ez :
  ez <= ea -> fst (shl_align m ea ez) = shl m (Z.to_nat (ea - ez)).
Proof.
  intros Hle. unfold shl_align. destruct (ez - ea) as [|t|t] eqn:Ht; cbn [fst].
  - replace (ea - ez) with 0 by lia. reflexivity.
  - lia.
  - rewrite Pos_iter_shl. f_equal. lia.
Qed.

Lemma cond_Zopp_abs z c : 0 < c -> cond_Zopp (z <? 0) (Z.abs z * c) = z * c.
Proof.
  intros Hc. unfold cond_Zopp. destruct (Z.ltb_spec z 0); lia.
Qed.

(** Addition of two such doubles is exact when the sum is again of
    magnitude at most 2^53. *)
Lemma SFadd_canon a b :
  Z.abs a <= 2 ^ 53 -> Z.abs b <= 2 ^ 53 -> Z.abs (a + b) <= 2 ^ 53 ->
  SF64add (canon a) (canon b) = canon (a + b).
Proof.
  intros Ha Hb Hab. unfold SF64add.
  destruct (Z.eq_dec a 0) as [->|Hna].
  { rewrite Z.add_0_l. destruct (Z.eq_dec b 0) as [->|Hnb]; [reflexivity|].
    destruct (canon_nonzero b Hnb Hb) as (k & j & _ & _ & _ & ->). reflexivity. }
  destruct (Z.eq_dec b 0) as [->|Hnb].
  { rewrite Z.add_0_r.
    destruct (canon_nonzero a Hna Ha) as (k & j & _ & _ & _ & ->). reflexivity. }
  destruct (canon_nonzero a Hna Ha) as (ka & ja & Haabs & Hda & Hja & ->).
  destruct (canon_nonzero b Hnb Hb) as (kb & jb & Hbabs & Hdb & Hjb & ->).
  pose proof (Pos2Z.is_pos (digits2_pos ka)) as Hpa.
  pose proof (Pos2Z.is_pos (digits2_pos kb)) as Hpb.
  set (da := Zpos (digits2_pos ka)) in *. set (db := Zpos (digits2_pos kb)) in *.
  cbn [SFadd].
  set (ea := Z.of_nat ja + da - 53). set (eb := Z.of_nat jb + db - 53).
  set (ez := Z.min ea eb).
  rewrite !shl_align_fst by (subst ez; lia). rewrite !shl_shl, !Zpos_shl.
  rewrite Zpos_shl in Haabs, Hbabs.
  destruct (Z.leb_spec ez 0) as [Hez|Hez].
  - (* the common exponent is not positive: the sum is (a + b) * 2^(-ez) *)
    assert (Hsum : cond_Zopp (a <? 0)
                     (Zpos ka * 2 ^ Z.of_nat (Z.to_nat (53 - da) + Z.to_nat (ea - ez)))
                   + cond_Zopp (b <? 0)
                       (Zpos kb * 2 ^ Z.of_nat (Z.to_nat (53 - db) + Z.to_nat (eb - ez)))
                   = (a + b) * 2 ^ (- ez)).
    { replace (Z.of_nat (Z.to_nat (53 - da) + Z.to_nat (ea - ez)))
        with (Z.of_nat ja + - ez) by (subst ea ez; lia).
      replace (Z.of_nat (Z.to_nat (53 - db) + Z.to_nat (eb - ez)))
        with (Z.of_nat jb + - ez) by (subst eb ez; lia).
      rewrite !Z.pow_add_r by lia. rewrite !Z.mul_assoc, <- Haabs, <- Hbabs.
      rewrite !cond_Zopp_abs by (apply Z.pow_pos_nonneg; lia). lia. }
    rewrite Hsum. clear Hsum.
    destruct (Z.eq_dec (a + b) 0) as [->|Hn]; [reflexivity|].
    destruct (canon_nonzero (a + b) Hn Hab) as (kn & jn & Hnabs & Hdn & Hjn & ->).
    pose proof (Pos2Z.is_pos (digits2_pos kn)) as Hpn.
    assert (Hpow : 0 < 2 ^ (- ez)) by (apply Z.pow_pos_nonneg; lia).
    rewrite (normalize_exact ((a + b) * 2 ^ (- ez)) kn (jn + Z.to_nat (- ez)) ez).
    + f_equal.
      * destruct (Z.ltb_spec (a + b) 0), (Z.ltb_spec ((a + b) * 2 ^ (- ez)) 0);
          try reflexivity; nia.
      * lia.
    + rewrite Z.abs_mul, Hnabs, !Zpos_shl, Nat2Z.inj_add, Z.pow_add_r by lia.
      rewrite Z2Nat.id by lia. rewrite (Z.abs_eq (2 ^ (- ez))) by lia. lia.
    + exact Hdn.
    + lia.
  - (* both summands are 2^53 in magnitude: the sum is 0 *)
    assert (Hja' : Z.of_nat ja + da = 54) by (subst ez ea eb; lia).
    assert (Hjb' : Z.of_nat jb + db = 54) by (subst ez ea eb; lia).
    assert (Hka : 2 ^ (da - 1) <= Zpos ka) by apply digits_bounds.
    assert (Hkb : 2 ^ (db - 1) <= Zpos kb) by apply digits_bounds.
    assert (Ha53 : Z.abs a = 2 ^ 53).
    { apply Z.le_antisymm; [exact Ha|]. rewrite Haabs.
      replace 53 with ((da - 1) + Z.of_nat ja) by lia.
      rewrite Z.pow_add_r by lia. apply Z.mul_le_mono_nonneg_r; [|exact Hka].
      apply Z.pow_nonneg. lia. }
    assert (Hb53 : Z.abs b = 2 ^ 53).
    { apply Z.le_antisymm; [exact Hb|]. rewrite Hbabs.
      replace 53 with ((db - 1) + Z.of_nat jb) by lia.
      rewrite Z.pow_add_r by lia. apply Z.mul_le_mono_nonneg_r; [|exact Hkb].
      apply Z.pow_nonneg. lia. }
    assert (Hzero : a + b = 0) by lia.
    assert (Hez1 : ez = 1) by (subst ez ea eb; lia).
    replace (Z.of_nat (Z.to_nat (53 - da) + Z.to_nat (ea - ez)))
      with (Z.of_nat ja - 1) by (subst ea; lia).
    replace (Z.of_nat (Z.to_nat (53 - db) + Z.to_nat (eb - ez)))
      with (Z.of_nat jb - 1) by (subst eb; lia).
    assert (Hha : Zpos ka * 2 ^ (Z.of_nat ja - 1) = 2 ^ 52).
    { assert (H : 2 * (Zpos ka * 2 ^ (Z.of_nat ja - 1)) = 2 ^ 53).
      { rewrite <- Ha53, Haabs.
        replace (Z.of_nat ja) with (Z.succ (Z.of_nat ja - 1)) at 2 by lia.
        rewrite Z.pow_succ_r by lia. lia. }
      change (2 ^ 53) with (2 * 2 ^ 52) in H. lia. }
    assert (Hhb : Zpos kb * 2 ^ (Z.of_nat jb - 1) = 2 ^ 52).
    { assert (H : 2 * (Zpos kb * 2 ^ (Z.of_nat jb - 1)) = 2 ^ 53).
      { rewrite <- Hb53, Hbabs.
        replace (Z.of_nat jb) with (Z.succ (Z.of_nat jb - 1)) at 2 by lia.
        rewrite Z.pow_succ_r by lia. lia. }
      change (2 ^ 53) with (2 * 2 ^ 52) in H. lia. }
    rewrite Hha, Hhb, Hzero.
    assert (Hsigns : (a <? 0) = negb (b <? 0)).
    { destruct (Z.ltb_spec a 0), (Z.ltb_spec b 0); try reflexivity; lia. }
    rewrite Hsigns. destruct (b <? 0); reflexivity.
Qed.

(** Adding two integers as doubles is exact as long as the operands and
    the sum are of magnitude at most 2^53. *)
Lemma add_double a b :
  Z.abs a <= 2 ^ 53 -> Z.abs b <= 2 ^ 53 -> Z.abs (a + b) <= 2 ^ 53 ->
  (Js.double a + Js.double b)%float = Js.double (a + b).
Proof.
  intros Ha Hb Hab. apply Prim2SF_inj.
  rewrite add_spec, !Prim2SF_double by assumption.
  apply SFadd_canon; assumption.
Qed.

End NumberFacts.


(** ** DeltaBuilder *)

Module DeltaBuilderFacts.
Import DeltaBuilder.

Lemma chain_cons c calls b : chain (c :: calls) b = chain calls (call c b).
Proof. reflexivity. Qed.

Lemma passed_cons u u' v calls :
  passed u ((u', v) :: calls)
  = if unit_eqb u u' then v :: passed u calls else passed u calls.
Proof. unfold passed. cbn [List.filter fst]. destruct (unit_eqb u u'); reflexivity. Qed.

Lemma running_sum_cons start v values :
  running_sum start (v :: values) = running_sum (start + v) values.
Proof. reflexivity. Qed.

(** Running a chain adds to each field, in call order, the values passed
    to the method of its unit, and nothing else. *)
Lemma chain_fields calls : forall b,
  chain calls b =
    mk (running_sum (p_years b) (passed Years calls))
       (running_sum (p_months b) (passed Months calls))
       (running_sum (p_days b) (passed Days calls))
       (running_sum (p_hours b) (passed Hours calls))
       (running_sum (p_minutes b) (passed Minutes calls))
       (running_sum (p_seconds b) (passed Seconds calls)).
Proof.
  induction calls as [|[u v] calls IH]; intros b.
  - destruct b; reflexivity.
  - rewrite chain_cons, IH, !passed_cons. destruct u; reflexivity.
Qed.

Lemma toObject_chain calls :
  toObject (chain calls new) =
    DeltaBody.mk (total Years calls) (total Months calls) (total Days calls)
                 (total Hours calls) (total Minutes calls) (total Seconds calls).
Proof. rewrite chain_fields. reflexivity. Qed.

Lemma double_0 : Js.double 0 = 0%float.
Proof. reflexivity. Qed.

Lemma magnitude_nonneg u calls : 0 <= magnitude u calls.
Proof.
  induction calls as [|[u' v] calls IH]; cbn [magnitude]; [lia|].
  destruct (unit_eqb u u'); lia.
Qed.

(** Integers are summed exactly while the magnitudes stay within 2^53. *)
Lemma running_sum_integers u calls : forall s,
  Z.abs s + magnitude u calls <= 2 ^ 53 ->
  running_sum (Js.double s) (passed u (integer_calls calls))
  = Js.double (s + integer_total u calls).
Proof.
  induction calls as [|[u' v] calls IH]; intros s Hs.
  - cbn. rewrite Z.add_0_r. reflexivity.
  - pose proof (magnitude_nonneg u calls) as Hm.
    cbn [integer_calls map fst snd magnitude integer_total] in *.
    rewrite passed_cons. fold (integer_calls calls).
    destruct (unit_eqb u u') eqn:E.
    + rewrite running_sum_cons, NumberFacts.add_double by lia.
      rewrite IH by lia. f_equal; lia.
    + rewrite IH by lia. f_equal; lia.
Qed.

Lemma total_integers u calls :
  magnitude u calls <= 2 ^ 53 ->
  total u (integer_calls calls) = Js.double (integer_total u calls).
Proof.
  intros H. unfold total. rewrite <- double_0.
  rewrite running_sum_integers by (cbn; lia). reflexivity.
Qed.

Lemma integer_total_perm u calls calls' :
  Permutation calls calls' -> integer_total u calls = integer_total u calls'.
Proof.
  induction 1 as [|[u1 v1] l l' _ IH|[u1 v1] [u2 v2] l|l1 l2 l3 _ IH1 _ IH2];
    cbn; try lia.
Qed.

Lemma magnitude_perm u calls calls' :
  Permutation calls calls' -> magnitude u calls = magnitude u calls'.
Proof.
  induction 1 as [|[u1 v1] l l' _ IH|[u1 v1] [u2 v2] l|l1 l2 l3 _ IH1 _ IH2];
    cbn; try lia.
Qed.

Lemma toObject_integers calls :
  safe calls ->
  toObject (chain (integer_calls calls) new) =
    DeltaBody.mk (Js.double (integer_total Years calls))
                 (Js.double (integer_total Months calls))
                 (Js.double (integer_total Days calls))
                 (Js.double (integer_total Hours calls))
                 (Js.double (integer_total Minutes calls))
                 (Js.double (integer_total Seconds calls)).
Proof.
  intros Hsafe. rewrite toObject_chain, !total_integers by apply Hsafe. reflexivity.
Qed.

(** C8, as the code has it. Delta accumulation is additive per unit in the
    arithmetic of doubles: after any sequence of unit-method calls on a
    fresh builder, each of the six fields of [toObject()] is the sum of the
    values passed to that unit's method, added one by one in call order
    from 0, whatever is passed to the other units. When the values are
    integers whose magnitudes sum, for each unit, to 2^53 at most, each
    field is exactly their integer sum, and any reordering of the calls
    yields the same delta; and [years(1).months(2).years(1)] yields
    [{2, 2, 0, 0, 0, 0}]. *)
Theorem delta_accumulation_additive_commutative :
  (forall calls,
     toObject (chain calls new) =
       DeltaBody.mk (total Years calls) (total Months calls) (total Days calls)
                    (total Hours calls) (total Minutes calls) (total Seconds calls))
  /\ (forall calls,
        safe calls ->
        toObject (chain (integer_calls calls) new) =
          DeltaBody.mk (Js.double (integer_total Years calls))
                       (Js.double (integer_total Months calls))
                       (Js.double (integer_total Days calls))
                       (Js.double (integer_total Hours calls))
                       (Js.double (integer_total Minutes calls))
                       (Js.double (integer_total Seconds calls)))
  /\ (forall calls calls',
        Permutation calls calls' ->
        safe calls ->
        toObject (chain (integer_calls calls') new)
        = toObject (chain (integer_calls calls) new))
  /\ toObject (years 1 (months 2 (years 1 new))) = DeltaBody.mk 2 2 0 0 0 0.
Proof.
  split; [exact toObject_chain|]. split; [exact toObject_integers|].
  split; [|reflexivity].
  intros calls calls' Hp Hsafe.
  assert (Hsafe' : safe calls').
  { intros u. rewrite <- (magnitude_perm u _ _ Hp). apply Hsafe. }
  rewrite !toObject_integers by assumption.
  f_equal; f_equal; symmetry; apply integer_total_perm; exact Hp.
Qed.

(** The chain of the properties test, in two call orders. *)
Lemma delta_accumulation_witness :
  Permutation [(Years, 1); (Months, 2); (Years, 1)] [(Months, 2); (Years, 1); (Years, 1)]
  /\ safe [(Years, 1); (Months, 2); (Years, 1)]
  /\ toObject (chain (integer_calls [(Months, 2); (Years, 1); (Years, 1)]) new)
     = toObject (chain (integer_calls [(Years, 1); (Months, 2); (Years, 1)]) new).
Proof.
  assert (Hp : Permutation [(Years, 1); (Months, 2); (Years, 1)]
                           [(Months, 2); (Years, 1); (Years, 1)])
    by (apply perm_swap).
  assert (Hsafe : safe [(Years, 1); (Months, 2); (Years, 1)])
    by (intros []; cbn; lia).
  split; [exact Hp|]. split; [exact Hsafe|].
  exact (proj1 (proj2 (proj2 delta_accumulation_additive_commutative)) _ _ Hp Hsafe).
Defined.

(** C8 as stated fails: the sum depends on the call order. Above 2^53 a
    double has no room for an added 1, while 1 + 1 added first is kept:
    [years(2**53).years(1).years(1)] and [years(1).years(1).years(2**53)]
    pass the same values to the same method and yield different deltas. *)
Lemma delta_accumulation_depends_on_call_order :
  let large := 9007199254740992%float in
  Permutation [(Years, large); (Years, 1%float); (Years, 1%float)]
              [(Years, 1%float); (Years, 1%float); (Years, large)]
  /\ toObject (chain [(Years, large); (Years, 1%float); (Years, 1%float)] new)
     = DeltaBody.mk 9007199254740992 0 0 0 0 0
  /\ toObject (chain [(Years, 1%float); (Years, 1%float); (Years, large)] new)
     = DeltaBody.mk 9007199254740994 0 0 0 0 0
  /\ toObject (chain [(Years, 1%float); (Years, 1%float); (Years, large)] new)
     <> toObject (chain [(Years, large); (Years, 1%float); (Years, 1%float)] new).
Proof.
  cbv zeta. split.
  { apply Permutation_sym. change [(Years, 9007199254740992%float); (Years, 1%float); (Years, 1%float)]
      with ([(Years, 9007199254740992%float)] ++ [(Years, 1%float); (Years, 1%float)]).
    change [(Years, 1%float); (Years, 1%float); (Years, 9007199254740992%float)]
      with ([(Years, 1%float); (Years, 1%float)] ++ [(Years, 9007199254740992%float)]).
    apply Permutation_app_comm. }
  split; [reflexivity|]. split; [reflexivity|].
  intros H. apply (f_equal DeltaBody.years) in H.
  apply (f_equal Prim2SF) in H. vm_compute in H. discriminate H.
Qed.

End DeltaBuilderFacts.

(** ** Strings *)

Module JsFacts.
Import Js.

Lemma split_lacks sep s : lacks sep s = true -> split sep s = [s].
Proof.
  induction s as [|c s IH]; cbn [split lacks]; [reflexivity|].
  intros H. apply andb_true_iff in H. destruct H as [Hc Hs].
  apply negb_true_iff in Hc. rewrite Hc, (IH Hs). reflexivity.
Qed.

Lemma append_nil s : "" +:+ s = s.
Proof. reflexivity. Qed.

Lemma append_cons c s1 s2 : String c s1 +:+ s2 = String c (s1 +:+ s2).
Proof. reflexivity. Qed.

Lemma split_app_sep sep s1 s2 :
  lacks sep s1 = true ->
  split sep (s1 +:+ String sep s2) = s1 :: split sep s2.
Proof.
  induction s1 as [|c s1 IH]; rewrite ?append_nil, ?append_cons; cbn [split lacks].
  - intros _. rewrite Ascii.eqb_refl. reflexivity.
  - intros H. apply andb_true_iff in H. destruct H as [Hc Hs].
    apply negb_true_iff in Hc. rewrite Hc, (IH Hs). reflexivity.
Qed.

End JsFacts.

(** ** The base64 codec *)

Module Base64Facts.
Import Base64.

Lemma list_ind3 {A} (P : list A -> Prop) :
  P [] -> (forall a, P [a]) -> (forall a b, P [a; b]) ->
  (forall a b c l, P l -> P (a :: b :: c :: l)) ->
  forall l, P l.
Proof.
  intros H0 H1 H2 H3.
  assert (H : forall l, P l /\ (forall a, P (a :: l)) /\ (forall a b, P (a :: b :: l))).
  { induction l as [|x l (IH0 & IH1 & IH2)]; [now auto|].
    repeat split; auto. }
  intros l. apply H.
Qed.

Lemma enc_char_in n : In (enc_char n) alphabet.
Proof.
  unfold enc_char.
  destruct (Nat.lt_ge_cases (N.to_nat n) (List.length alphabet)) as [Hlt|Hge].
  - apply nth_In. exact Hlt.
  - rewrite nth_overflow by exact Hge. vm_compute. auto.
Qed.

Lemma alphabet_plain :
  forallb (fun c => negb (is_ascii_whitespace c) && negb (Ascii.eqb c pad)) alphabet = true.
Proof. vm_compute. reflexivity. Qed.

Lemma enc_char_plain n :
  is_ascii_whitespace (enc_char n) = false /\ Ascii.eqb (enc_char n) pad = false.
Proof.
  pose proof (proj1 (forallb_forall _ _) alphabet_plain _ (enc_char_in n)) as H.
  apply andb_true_iff in H. destruct H as [H1 H2].
  split; [apply negb_true_iff in H1|apply negb_true_iff in H2]; assumption.
Qed.

Lemma dec_enc_table :
  forallb (fun i => match dec_char (enc_char (N.of_nat i)) with
                    | Some m => N.eqb m (N.of_nat i)
                    | None => false
                    end) (seq 0 64) = true.
Proof. vm_compute. reflexivity. Qed.

Lemma dec_enc_char n : (n < 64)%N -> dec_char (enc_char n) = Some n.
Proof.
  intros Hn.
  assert (Hin : In (N.to_nat n) (seq 0 64)) by (apply in_seq; lia).
  pose proof (proj1 (forallb_forall _ _) dec_enc_table _ Hin) as H.
  cbv beta in H. rewrite N2Nat.id in H.
  destruct (dec_char (enc_char n)) as [m|]; [|discriminate].
  apply N.eqb_eq in H. congruence.
Qed.


Lemma remove_whitespace_encode bs : remove_whitespace (encode bs) = encode bs.
Proof.
  induction bs as [|a|a b|a b c l IH] using list_ind3; cbn [encode remove_whitespace].
  - reflexivity.
  - rewrite !(proj1 (enc_char_plain _)). reflexivity.
  - rewrite !(proj1 (enc_char_plain _)). reflexivity.
  - rewrite !(proj1 (enc_char_plain _)), IH. reflexivity.
Qed.

Local Ltac divmod := zify; Z.to_euclidean_division_equations; lia.

Lemma byte_lt a : (Byte.to_N a < 256)%N.
Proof. pose proof (Byte.to_N_bounded a). lia. Qed.

Lemma of_N_to_N_eq n a : n = Byte.to_N a -> Byte.of_N n = Some a.
Proof. intros ->. apply Byte.of_to_N. Qed.

Lemma decode2_encode a :
  let n := Byte.to_N a in
  decode2 (enc_char (n / 4)) (enc_char ((n mod 4) * 16)) = Some [a].
Proof.
  intros n. pose proof (byte_lt a) as Ha. fold n in Ha.
  unfold decode2.
  rewrite !dec_enc_char by divmod.
  rewrite (of_N_to_N_eq _ a); [reflexivity|].
  fold n. divmod.
Qed.


Lemma decode3_encode a b :
  let n := Byte.to_N a in
  let m := Byte.to_N b in
  decode3 (enc_char (n / 4)) (enc_char ((n mod 4) * 16 + m / 16))
          (enc_char ((m mod 16) * 4)) = Some [a; b].
Proof.
  intros n m. pose proof (byte_lt a) as Ha. pose proof (byte_lt b) as Hb.
  fold n in Ha. fold m in Hb.
  unfold decode3.
  rewrite !dec_enc_char by divmod.
  rewrite (of_N_to_N_eq _ a) by (fold n; divmod).
  rewrite (of_N_to_N_eq _ b) by (fold m; divmod).
  reflexivity.
Qed.

Lemma decode4_encode a b c :
  let n := Byte.to_N a in
  let m := Byte.to_N b in
  let k := Byte.to_N c in
  decode4 (enc_char (n / 4)) (enc_char ((n mod 4) * 16 + m / 16))
          (enc_char ((m mod 16) * 4 + k / 64)) (enc_char (k mod 64)) = Some [a; b; c].
Proof.
  intros n m k.
  pose proof (byte_lt a) as Ha. pose proof (byte_lt b) as Hb. pose proof (byte_lt c) as Hc.
  fold n in Ha. fold m in Hb. fold k in Hc.
  unfold decode4.
  rewrite !dec_enc_char by divmod.
  rewrite (of_N_to_N_eq _ a) by (fold n; divmod).
  rewrite (of_N_to_N_eq _ b) by (fold m; divmod).
  rewrite (of_N_to_N_eq _ c) by (fold k; divmod).
  reflexivity.
Qed.

Lemma decode_groups_encode bs : decode_groups (encode bs) = Some bs.
Proof.
  induction bs as [|a|a b|a b c l IH] using list_ind3.
  - reflexivity.
  - cbn [encode decode_groups]. rewrite !Ascii.eqb_refl. apply decode2_encode.
  - cbn [encode decode_groups]. rewrite Ascii.eqb_refl.
    rewrite (proj2 (enc_char_plain _)). apply decode3_encode.
  - cbn [encode decode_groups]. rewrite (proj2 (enc_char_plain _)).
    pose proof (decode4_encode a b c) as H4. cbv zeta in H4. rewrite H4.
    destruct (encode l) as [|c0 s0].
    + cbn in IH. injection IH as <-. reflexivity.
    + rewrite IH. reflexivity.
Qed.

(** Decoding an encoding gives the bytes back. *)
Lemma decode_encode bs : decode (encode bs) = Some bs.
Proof. unfold decode. rewrite remove_whitespace_encode. apply decode_groups_encode. Qed.

Lemma alphabet_url_plain : forallb Typed.url_plain (pad :: alphabet) = true.
Proof. vm_compute. reflexivity. Qed.

Lemma enc_char_url_plain n : Typed.url_plain (enc_char n) = true.
Proof.
  apply (proj1 (forallb_forall _ _) alphabet_url_plain). right. apply enc_char_in.
Qed.

Lemma pad_url_plain : Typed.url_plain pad = true.
Proof. reflexivity. Qed.

Lemma encode_url_plain bs : Typed.all_url_plain (encode bs) = true.
Proof.
  induction bs as [|a|a b|a b c l IH] using list_ind3;
    cbn [encode Typed.all_url_plain];
    rewrite ?enc_char_url_plain, ?pad_url_plain, ?IH; reflexivity.
Qed.

Lemma data_url_body_plain s : Typed.all_url_plain s = true -> Typed.data_url_body s = s.
Proof.
  intros Hs. unfold Typed.data_url_body.
  assert (Htrim : Typed.trim_end s = s).
  { induction s as [|c s IH]; [reflexivity|].
    cbn [Typed.all_url_plain] in Hs. apply andb_true_iff in Hs. destruct Hs as [Hc Hs].
    cbn [Typed.trim_end]. rewrite (IH Hs). destruct s; [|reflexivity].
    unfold Typed.url_plain in Hc. rewrite !andb_true_iff in Hc. destruct Hc as [_ Hc].
    apply negb_true_iff in Hc. rewrite Hc. reflexivity. }
  rewrite Htrim.
  assert (Hrem : Typed.remove_tab_newline s = s).
  { clear Htrim. induction s as [|c s IH]; [reflexivity|].
    cbn [Typed.all_url_plain] in Hs. apply andb_true_iff in Hs. destruct Hs as [Hc Hs].
    cbn [Typed.remove_tab_newline]. rewrite (IH Hs).
    unfold Typed.url_plain in Hc. rewrite !andb_true_iff in Hc. destruct Hc as [_ Hc].
    apply negb_true_iff, N.leb_gt in Hc. unfold Typed.is_tab_or_newline.
    destruct (N.eqb_spec (N_of_ascii c) 9); [lia|].
    destruct (N.eqb_spec (N_of_ascii c) 10); [lia|].
    destruct (N.eqb_spec (N_of_ascii c) 13); [lia|]. reflexivity. }
  rewrite Hrem.
  assert (Hfrag : Typed.drop_fragment s = s).
  { clear Htrim Hrem. induction s as [|c s IH]; [reflexivity|].
    cbn [Typed.all_url_plain] in Hs. apply andb_true_iff in Hs. destruct Hs as [Hc Hs].
    cbn [Typed.drop_fragment]. rewrite (IH Hs).
    unfold Typed.url_plain in Hc. rewrite !andb_true_iff in Hc. destruct Hc as [[Hc _] _].
    apply negb_true_iff in Hc. rewrite Hc. reflexivity. }
  rewrite Hfrag. clear Htrim Hrem Hfrag.
  induction s as [|c s IH]; [reflexivity|].
  cbn [Typed.all_url_plain] in Hs. apply andb_true_iff in Hs. destruct Hs as [Hc Hs].
  cbn [Typed.percent_decode]. rewrite (IH Hs).
  unfold Typed.url_plain in Hc. rewrite !andb_true_iff in Hc. destruct Hc as [[_ Hc] _].
  apply negb_true_iff in Hc. rewrite Hc. reflexivity.
Qed.

(** What [toBase64Polyfill] wrote is read back by [fromBase64]. *)
Lemma fromBase64_encode bs : Typed.fromBase64 (encode bs) = Some bs.
Proof.
  unfold Typed.fromBase64. rewrite data_url_body_plain by apply encode_url_plain.
  apply decode_encode.
Qed.

Lemma alphabet_lacks_colon :
  forallb (fun c => negb (Ascii.eqb c ":")) alphabet = true.
Proof. vm_compute. reflexivity. Qed.

Lemma enc_char_not_colon n : Ascii.eqb (enc_char n) ":" = false.
Proof.
  pose proof (proj1 (forallb_forall _ _) alphabet_lacks_colon _ (enc_char_in n)) as H.
  apply negb_true_iff in H. exact H.
Qed.

(** No colon in an encoding: the envelope splits where it was joined. *)
Lemma encode_lacks_colon bs : Js.lacks ":" (encode bs) = true.
Proof.
  induction bs as [|a|a b|a b c l IH] using list_ind3;
    cbn [encode Js.lacks]; rewrite ?enc_char_not_colon, ?IH; reflexivity.
Qed.

Lemma encode_truthy bs : bs <> [] -> Js.str_truthy (encode bs) = true.
Proof.
  destruct bs as [|a [|b [|c l]]]; [congruence| | |]; intros _; reflexivity.
Qed.

End Base64Facts.

(** ** encrypt and decrypt *)

Module CipherFacts.
Import Cipher.

Lemma random_iv_not_empty entropy : getRandomValues12 entropy <> [].
Proof. unfold getRandomValues12. cbn. discriminate. Qed.

(** The envelope of [iv] and [ct] is taken apart by [decrypt] into the
    same two byte strings. *)
Lemma decrypt_envelope P (k : Key P) iv ct :
  iv <> [] -> ct <> [] ->
  decrypt P k (Some (JStr (Base64.encode iv +:+ ":" +:+ Base64.encode ct)))
  = match aes_gcm_decrypt P k iv ct with
    | Some p => inr p
    | None => inl OperationError
    end.
Proof.
  intros Hiv Hct. unfold decrypt, Js.split_limit.
  change (":" +:+ Base64.encode ct) with (String ":" (Base64.encode ct)).
  rewrite JsFacts.split_app_sep by apply Base64Facts.encode_lacks_colon.
  rewrite JsFacts.split_lacks by apply Base64Facts.encode_lacks_colon.
  cbn [firstn nth].
  rewrite !Base64Facts.encode_truthy by assumption.
  cbn [negb orb].
  rewrite !Base64Facts.fromBase64_encode. reflexivity.
Qed.

Lemma roundtrip_any_key P (Haead : aead_correct P) (k : Key P) fixedIv entropy p :
  fixedIv <> Some [] ->
  exists envelope,
    encrypt P fixedIv entropy k p = inr envelope
    /\ decrypt P k (Some (JStr envelope)) = inr p.
Proof.
  intros Hfixed. unfold encrypt.
  set (iv := match fixedIv with Some pinned => pinned | None => getRandomValues12 entropy end).
  assert (Hiv : iv <> []).
  { subst iv. destruct fixedIv as [pinned|].
    - intros ->. apply Hfixed. reflexivity.
    - apply random_iv_not_empty. }
  destruct (Haead k iv p Hiv) as (ct & Henc & Hct & Hdec).
  rewrite Henc. unfold Typed.toBase64Polyfill. eexists. split; [reflexivity|].
  rewrite decrypt_envelope by assumption. rewrite Hdec. reflexivity.
Qed.

(** C6. For every plaintext [p] and the key [k] that a router derived from
    its secret, [decrypt(k, encrypt(k, p))] is [p]: encryption yields an
    envelope and decryption of that envelope under the same key returns
    exactly [p]. AES-GCM is taken at its contract; the IV is the random
    one, or a pinned one that is not empty. *)
Theorem encrypt_decrypt_roundtrip
    P (Haead : aead_correct P) apiKey secret publicKey defaultEndpointId fns
    fixedIv entropy (p : list byte) :
  fixedIv <> Some [] ->
  let k := Router.internal_encryptionKey
             (Router.createRouter P apiKey secret publicKey defaultEndpointId fns) in
  exists envelope,
    encrypt P fixedIv entropy k p = inr envelope
    /\ decrypt P k (Some (JStr envelope)) = inr p.
Proof.
  intros Hfixed k. apply roundtrip_any_key; assumption.
Qed.

Lemma demo_aead_correct : aead_correct Demo.platform.
Proof.
  intros k iv p _. exists (p ++ [Demo.tag]). cbn.
  split; [reflexivity|]. split; [destruct p; discriminate|].
  unfold Demo.open. rewrite rev_app_distr. cbn. rewrite rev_involutive.
  reflexivity.
Qed.

(** The round trip on the example platform, with no pinned IV. *)
Lemma encrypt_decrypt_roundtrip_witness :
  (@None (list byte)) <> Some []
  /\ exists envelope,
       encrypt Demo.platform None (fun _ => x07%byte)
         (derive_key Demo.platform "encryption_key_here") [x91; x01]%byte
       = inr envelope
       /\ decrypt Demo.platform
            (derive_key Demo.platform "encryption_key_here")
            (Some (JStr envelope)) = inr [x91; x01]%byte.
Proof.
  split; [discriminate|].
  exact (encrypt_decrypt_roundtrip Demo.platform demo_aead_correct
           "key" "encryption_key_here" "abcd" "default_endpoint_id" Demo.fns
           None (fun _ => x07%byte) [x91; x01]%byte ltac:(discriminate)).
Defined.

End CipherFacts.

(** ** The router *)

Module RouterFacts.
Import Router.

(** The loop inlined in [write_entry] is the loop of [_write]. *)
Lemma inlined_loop endpointId es st :
  (fix loop (es : list (string * Fns)) st' :=
     match es with
     | [] => st'
     | (k, v) :: rest => loop rest (write_entry endpointId k v st')
     end) es st
  = fold_left (fun st e => write_entry endpointId (fst e) (snd e) st) es st.
Proof.
  revert st. induction es as [|[k v] es IH]; intros st; [reflexivity|].
  cbn [fold_left fst snd]. apply IH.
Qed.

(** A function: [obj[key] = apiHandlerBuilder(..., k, endpointId)]. *)
Lemma write_entry_function endpointId key f obj keyStack :
  write_entry endpointId key (Fn f) (obj, keyStack)
  = (obj_set obj key (ApiHandler (job_type keyStack key) endpointId), keyStack).
Proof. reflexivity. Qed.

(** A wrapper:
    [_write(..., customEndpointId, obj, {[key]: customFns}, keyStack)]. *)
Lemma write_entry_wrapped endpointId key customEndpointId customFns obj keyStack :
  write_entry endpointId key (Wrapped customEndpointId customFns) (obj, keyStack)
  = _write customEndpointId obj [(key, customFns)] keyStack.
Proof. reflexivity. Qed.

(** An object: [keyStack.push(key)], then
    [_write(..., endpointId, nextObj, value, keyStack)] on a new [nextObj],
    then [obj[key] = nextObj]. *)
Lemma write_entry_object endpointId key entries obj keyStack :
  write_entry endpointId key (Obj entries) (obj, keyStack)
  = let '(nextObj, keyStack') := _write endpointId [] entries (push keyStack key) in
    (obj_set obj key (Sub nextObj), keyStack').
Proof.
  cbn [write_entry]. rewrite inlined_loop. unfold _write.
  destruct (fold_left _ entries _) as [nextObj keyStack']. reflexivity.
Qed.

Lemma Fns_nested_ind (Q : Fns -> Prop) :
  (forall f, Q (Fn f)) ->
  (forall endpoint v, Q v -> Q (Wrapped endpoint v)) ->
  (forall entries, Forall (fun kv => Q (snd kv)) entries -> Q (Obj entries)) ->
  forall v, Q v.
Proof.
  intros Hfn Hwrapped Hobj.
  fix IH 1. intros [f|endpoint v|entries].
  - apply Hfn.
  - apply Hwrapped, IH.
  - apply Hobj. induction entries as [|[k v] entries IHentries]; constructor.
    + apply IH.
    + exact IHentries.
Qed.

Lemma iter_pop_pop n ks : Nat.iter n pop (pop ks) = pop (Nat.iter n pop ks).
Proof. apply Nat.iter_swap. Qed.

Lemma pop_push ks key : pop (push ks key) = ks.
Proof. unfold pop, push. apply removelast_last. Qed.

Lemma pop_iter_push n ks key :
  pop (Nat.iter n pop (push ks key)) = Nat.iter n pop ks.
Proof.
  rewrite <- iter_pop_pop, pop_push. reflexivity.
Qed.

Lemma iter_add {A} (f : A -> A) n m x :
  Nat.iter (n + m) f x = Nat.iter m f (Nat.iter n f x).
Proof. rewrite Nat.add_comm. apply Nat.iter_add. Qed.

(** What one entry leaves on the shared stack: one key too few for each
    wrapper met inside it. *)
Lemma write_entry_stack value : forall endpointId key obj keyStack,
  snd (write_entry endpointId key value (obj, keyStack))
  = Nat.iter (wrappers value) pop keyStack.
Proof.
  induction value as [f|endpoint v IH|entries IH] using Fns_nested_ind;
    intros endpointId key obj keyStack.
  - reflexivity.
  - cbn [write_entry wrappers].
    specialize (IH endpoint key obj keyStack).
    destruct (write_entry endpoint key v (obj, keyStack)) as [obj' ks'].
    cbn [snd] in *. subst ks'. reflexivity.
  - rewrite write_entry_object. unfold _write.
    assert (Hloop : forall st,
              snd (fold_left (fun st e => write_entry endpointId (fst e) (snd e) st)
                     entries st)
              = Nat.iter (wrappers (Obj entries)) pop (snd st)).
    { induction IH as [|[k v] es Hv _ IHes]; intros [o ks]; [reflexivity|].
      cbn [fold_left fst snd]. rewrite IHes.
      cbn [snd] in Hv. specialize (Hv endpointId k o ks).
      destruct (write_entry endpointId k v (o, ks)) as [o' ks'].
      cbn [snd] in *. subst ks'.
      change (wrappers (Obj ((k, v) :: es))) with (wrappers v + wrappers (Obj es))%nat.
      rewrite iter_add. reflexivity. }
    specialize (Hloop ([], push keyStack key)).
    destruct (fold_left _ entries _) as [nextObj ks'].
    cbn [snd] in *. subst ks'. apply pop_iter_push.
Qed.

Lemma obj_get_set_eq {A} (o : list (string * A)) k v : obj_get (obj_set o k v) k = Some v.
Proof.
  induction o as [|[k' v'] o IH]; cbn.
  - rewrite String.eqb_refl. reflexivity.
  - destruct (String.eqb k k') eqn:E; cbn; rewrite ?String.eqb_refl, ?E; auto.
Qed.

Lemma obj_get_set_ne {A} (o : list (string * A)) k k' v :
  k <> k' -> obj_get (obj_set o k v) k' = obj_get o k'.
Proof.
  intros Hne. induction o as [|[k0 v0] o IH]; cbn.
  - destruct (String.eqb k' k) eqn:E; [apply String.eqb_eq in E; congruence|reflexivity].
  - destruct (String.eqb k k0) eqn:E; cbn.
    + apply String.eqb_eq in E. subst k0.
      destruct (String.eqb k' k) eqn:E'; [apply String.eqb_eq in E'; congruence|reflexivity].
    + rewrite IH. reflexivity.
Qed.

(** An entry writes under its own key only. *)
Lemma write_entry_fst value : forall endpointId key obj keyStack,
  exists route,
    fst (write_entry endpointId key value (obj, keyStack)) = obj_set obj key route.
Proof.
  induction value as [f|endpoint v IH|entries _] using Fns_nested_ind;
    intros endpointId key obj keyStack.
  - eexists. reflexivity.
  - cbn [write_entry]. destruct (IH endpoint key obj keyStack) as [route Hroute].
    destruct (write_entry endpoint key v (obj, keyStack)) as [obj' ks'].
    exists route. exact Hroute.
  - rewrite write_entry_object.
    destruct (_write endpointId [] entries (push keyStack key)) as [nextObj ks'].
    eexists. reflexivity.
Qed.

Lemma write_entry_other endpointId key value obj keyStack k :
  key <> k ->
  obj_get (fst (write_entry endpointId key value (obj, keyStack))) k = obj_get obj k.
Proof.
  intros Hne. destruct (write_entry_fst value endpointId key obj keyStack) as [r ->].
  apply obj_get_set_ne. exact Hne.
Qed.

Lemma loop_other endpointId entries : forall st k,
  ~ In k (map fst entries) ->
  obj_get (fst (fold_left (fun st e => write_entry endpointId (fst e) (snd e) st)
                  entries st)) k
  = obj_get (fst st) k.
Proof.
  induction entries as [|[k0 v0] es IH]; intros [o ks] k Hk; [reflexivity|].
  cbn [fold_left fst snd]. cbn [map fst In] in Hk.
  rewrite IH by tauto.
  apply write_entry_other. tauto.
Qed.

(** The state in which the loop reaches one of its entries: the stack has
    lost one key for each wrapper in the entries before it. And what the
    loop leaves under the key of that entry. *)
Lemma loop_entry endpointId entries : forall obj keyStack k v,
  List.NoDup (map fst entries) ->
  In (k, v) entries ->
  exists obj_k n,
    obj_get (fst (fold_left (fun st e => write_entry endpointId (fst e) (snd e) st)
                    entries (obj, keyStack))) k
    = obj_get (fst (write_entry endpointId k v (obj_k, Nat.iter n pop keyStack))) k
    /\ (tidy (Obj entries) -> n = 0%nat).
Proof.
  induction entries as [|[k0 v0] es IH]; intros obj keyStack k v Hnodup Hin;
    [contradiction|].
  cbn [map fst] in Hnodup. apply NoDup_cons_iff in Hnodup. destruct Hnodup as [Hk0 Hnodup].
  cbn [fold_left fst snd].
  destruct Hin as [[= -> ->]|Hin].
  - exists obj, 0%nat. split; [|reflexivity].
    apply loop_other. exact Hk0.
  - pose proof (write_entry_stack v0 endpointId k0 obj keyStack) as Hstack.
    destruct (write_entry endpointId k0 v0 (obj, keyStack)) as [obj' ks'].
    cbn [snd] in Hstack. subst ks'.
    destruct (IH obj' (Nat.iter (wrappers v0) pop keyStack) k v Hnodup Hin)
      as (obj_k & n & Hget & Htidy).
    exists obj_k, (wrappers v0 + n)%nat. split.
    + rewrite iter_add. exact Hget.
    + intros (_ & [->|Hw] & Hrest); [contradiction|].
      rewrite (Htidy Hrest), Hw. reflexivity.
Qed.

Lemma leaves_object endpointId path entries p ep :
  In (p, ep) (leaves endpointId path (Obj entries)) ->
  exists k v, In (k, v) entries /\ In (p, ep) (leaves endpointId (path ++ [k]) v).
Proof.
  cbn [leaves].
  induction entries as [|[k v] es IH]; [contradiction|].
  intros Hin. apply in_app_or in Hin. destruct Hin as [Hin|Hin].
  - exists k, v. split; [left; reflexivity|exact Hin].
  - destruct (IH Hin) as (k' & v' & Hin' & Hleaf).
    exists k', v'. split; [right; exact Hin'|exact Hleaf].
Qed.

Lemma route_at_step obj k k' rest :
  route_at obj (k :: k' :: rest)
  = match obj_get obj k with
    | Some (Sub obj') => route_at obj' (k' :: rest)
    | _ => None
    end.
Proof. reflexivity. Qed.

Lemma route_at_head obj obj' k rest :
  obj_get obj k = obj_get obj' k -> route_at obj (k :: rest) = route_at obj' (k :: rest).
Proof. intros H. destruct rest; cbn [route_at]; rewrite H; reflexivity. Qed.

Lemma distinct_keys_entry entries k v :
  distinct_keys (Obj entries) -> In (k, v) entries -> distinct_keys v.
Proof.
  intros [_ Heach]. revert Heach.
  induction entries as [|[k0 v0] es IH]; [contradiction|].
  intros [Hv0 Hrest] [[= -> ->]|Hin]; [exact Hv0|exact (IH Hrest Hin)].
Qed.

Lemma tidy_entry entries k v : tidy (Obj entries) -> In (k, v) entries -> tidy v.
Proof.
  cbn [tidy]. induction entries as [|[k0 v0] es IH]; [contradiction|].
  intros (Hv0 & _ & Hrest) [[= -> ->]|Hin]; [exact Hv0|exact (IH Hrest Hin)].
Qed.

Lemma append_assoc a b c : (a +:+ b) +:+ c = a +:+ (b +:+ c).
Proof.
  induction a as [|x a IH]; [reflexivity|].
  rewrite !JsFacts.append_cons, IH. reflexivity.
Qed.

Lemma join_snoc keyStack key :
  keyStack <> [] ->
  Js.join "." (keyStack ++ [key]) = Js.join "." keyStack +:+ "." +:+ key.
Proof.
  unfold Js.join. induction keyStack as [|k ks IH]; [congruence|]. intros _.
  destruct ks as [|k' ks]; [reflexivity|].
  cbn [app String.concat] in *. rewrite IH by discriminate.
  rewrite !append_assoc. reflexivity.
Qed.

Lemma job_type_joinable keyStack key :
  joinable keyStack -> job_type keyStack key = Js.join "." (keyStack ++ [key]).
Proof.
  unfold job_type. intros [->|Hne]; [reflexivity|].
  destruct (String.eqb (Js.join "." keyStack) "") eqn:E;
    [apply String.eqb_eq in E; contradiction|].
  rewrite join_snoc; [reflexivity|]. intros ->. apply Hne. reflexivity.
Qed.

Lemma append_empty_inv a b : a +:+ b = "" -> a = "".
Proof. destruct a; [reflexivity|discriminate]. Qed.

Lemma joinable_push keyStack key :
  joinable keyStack -> (keyStack = [] -> key <> "") -> joinable (keyStack ++ [key]).
Proof.
  intros Hj Hkey. right. destruct keyStack as [|k ks].
  - cbn. apply Hkey. reflexivity.
  - rewrite join_snoc by discriminate. intros H. apply append_empty_inv in H.
    destruct Hj as [Hj|Hj]; [discriminate|contradiction].
Qed.

Lemma iter_pop_nil n : Nat.iter n pop [] = [].
Proof.
  induction n as [|n IH]; [reflexivity|].
  rewrite Nat.iter_succ, IH. reflexivity.
Qed.

(** The route built for a leaf below an entry: it sits at the keys of the
    leaf and has the endpoint of the innermost wrapper; its job type is the
    dot-joined keys when the stack held the path to the entry and the tree
    below is tidy. *)
Lemma write_entry_leaf value : forall endpointId key obj keyStack path p ep,
  distinct_keys value ->
  In (p, ep) (leaves endpointId (path ++ [key]) value) ->
  exists suffix jobType,
    p = path ++ key :: suffix
    /\ route_at (fst (write_entry endpointId key value (obj, keyStack))) (key :: suffix)
       = Some (ApiHandler jobType ep)
    /\ (tidy value -> keyStack = path -> joinable path -> (path = [] -> key <> "") ->
        jobType = Js.join "." p).
Proof.
  induction value as [f|endpoint v IH|entries IH] using Fns_nested_ind;
    intros endpointId key obj keyStack path p ep Hkeys Hin.
  - destruct Hin as [[= <- <-]|[]].
    exists [], (job_type keyStack key). split; [reflexivity|]. split.
    + cbn [write_entry fst route_at]. apply obj_get_set_eq.
    + intros _ -> Hj _. apply job_type_joinable. exact Hj.
  - cbn [leaves] in Hin. cbn [distinct_keys] in Hkeys.
    destruct (IH endpoint key obj keyStack path p ep Hkeys Hin)
      as (suffix & jobType & Hp & Hroute & Hjob).
    exists suffix, jobType. split; [exact Hp|]. split; [|exact Hjob].
    cbn [write_entry].
    destruct (write_entry endpoint key v (obj, keyStack)) as [obj' ks']. exact Hroute.
  - destruct (leaves_object _ _ _ _ _ Hin) as (k & v & Hkv & Hleaf).
    rewrite write_entry_object. unfold _write.
    destruct (loop_entry endpointId entries [] (push keyStack key) k v
                (proj1 Hkeys) Hkv) as (obj_k & n & Hget & Hn).
    destruct (fold_left _ entries _) as [nextObj ks'].
    cbn [fst] in *.
    pose proof (proj1 (List.Forall_forall _ _) IH (k, v) Hkv) as IHv. cbn [snd] in IHv.
    destruct (IHv endpointId k obj_k (Nat.iter n pop (push keyStack key))
                (path ++ [key]) p ep (distinct_keys_entry _ _ _ Hkeys Hkv) Hleaf)
      as (suffix & jobType & Hp & Hroute & Hjob).
    exists (k :: suffix), jobType. split; [|split].
    + rewrite Hp, <- app_assoc. reflexivity.
    + rewrite route_at_step, obj_get_set_eq.
      rewrite (route_at_head nextObj _ k suffix Hget). exact Hroute.
    + intros Htidy -> Hj Hkey. apply Hjob.
      * exact (tidy_entry _ _ _ Htidy Hkv).
      * rewrite (Hn Htidy). reflexivity.
      * apply joinable_push; assumption.
      * intros Hnil. destruct path; discriminate.
Qed.

(** For every tree with distinct keys and every leaf of it, the router has
    a route at the keys of the leaf whose endpoint is that of the innermost
    wrapper, or the default one. When in every object below the root only
    the last entry holds wrappers, and no key of the root is empty, the job
    type of that route is the dot-joined keys. *)
Theorem createRouter_routes P apiKey secret publicKey defaultEndpointId fns p ep :
  distinct_keys (Obj fns) ->
  In (p, ep) (router_leaves defaultEndpointId fns) ->
  exists jobType,
    route_at (routes (createRouter P apiKey secret publicKey defaultEndpointId fns)) p
    = Some (ApiHandler jobType ep)
    /\ (Forall (fun kv => tidy (snd kv) /\ fst kv <> "") fns ->
        jobType = Js.join "." p).
Proof.
  intros Hkeys Hin. unfold router_leaves in Hin.
  destruct (leaves_object _ _ _ _ _ Hin) as (k & v & Hkv & Hleaf).
  cbn [createRouter routes]. unfold _write.
  destruct (loop_entry defaultEndpointId fns [] [] k v (proj1 Hkeys) Hkv)
    as (obj_k & n & Hget & _).
  rewrite iter_pop_nil in Hget.
  destruct (fold_left _ fns _) as [obj ks'].
  cbn [fst] in *.
  destruct (write_entry_leaf v defaultEndpointId k obj_k [] [] p ep
              (distinct_keys_entry _ _ _ Hkeys Hkv) Hleaf)
    as (suffix & jobType & Hp & Hroute & Hjob).
  exists jobType. split.
  - rewrite Hp. cbn [app]. rewrite (route_at_head obj _ k suffix Hget). exact Hroute.
  - intros Hall. pose proof (proj1 (List.Forall_forall _ _) Hall (k, v) Hkv) as [Htidy Hk].
    apply Hjob; [exact Htidy|reflexivity|left; reflexivity|intros _; exact Hk].
Qed.

(** C1, at an input where the code departs from it. In
    [{a: {b: customEndpoint("E2", f), c: g}}] the function [g] is the leaf
    with keys [a], [c] and no wrapper around it. The route built for it has
    the default endpoint, as claimed, but its job type is ["c"], not the
    dot-joined ["a.c"]: the [keyStack.pop()] that ends the call made for
    the wrapped entry [b] removed [a] from the shared stack
    ([write_entry_stack]). The route of the wrapped [b] is as claimed. *)
Theorem write_drops_keys_after_wrapped_entry P apiKey secret publicKey :
  let router := createRouter P apiKey secret publicKey "default_endpoint_id"
                  Demo.wrapped_then_plain in
  In (["a"; "c"], "default_endpoint_id")
     (router_leaves "default_endpoint_id" Demo.wrapped_then_plain)
  /\ route_at (routes router) ["a"; "c"]
     = Some (ApiHandler "c" "default_endpoint_id")
  /\ Js.join "." ["a"; "c"] = "a.c"
  /\ route_at (routes router) ["a"; "b"] = Some (ApiHandler "a.b" "E2").
Proof.
  cbn. repeat split; auto.
Qed.

End RouterFacts.

(** ** The inbound webhook *)

Module HttpFacts.
Import Router Http.

(** A request that reaches a handler ends as the handler ends: nothing
    stands between the call and the caller of the request function. *)
Lemma httpRoute_reaches P inherited router date_now req fn args :
  reaches_handler P inherited router date_now req fn args ->
  httpRoute P inherited router date_now req
  = match h_run fn args with
    | Some e => mkResult (Reject e) [(h_id fn, args)]
    | None => mkResult (Respond 204 None) [(h_id fn, args)]
    end.
Proof.
  intros (Hold & Hsig & parsed & bytes & data & type_str
          & Hparse & Hnull & Hdec & Hdecode & Htype & Hwalk & Hspread).
  unfold httpRoute. rewrite Hold, Hsig, Hparse.
  destruct parsed; try congruence;
    rewrite Hdec, Hdecode, Htype, Hwalk, Hspread; reflexivity.
Qed.

(** Before anything else: a parsed timestamp more than 300 seconds behind
    the clock ends the request. *)
Lemma httpRoute_too_old P inherited router date_now req :
  too_old (date_now / 1000)
    (Js.parseInt (Js.string_of_nullable (x_signature_timestamp req)) 10) = true ->
  httpRoute P inherited router date_now req = mkResult stale_response [].
Proof. intros H. unfold httpRoute. rewrite H. reflexivity. Qed.

Lemma httpRoute_not_too_old P inherited router date_now req :
  too_old (date_now / 1000)
    (Js.parseInt (Js.string_of_nullable (x_signature_timestamp req)) 10) = false ->
  outcome (httpRoute P inherited router date_now req) <> stale_response.
Proof.
  intros H. unfold httpRoute, stale_response. rewrite H.
  repeat match goal with
         | |- context [match ?x with _ => _ end] => destruct x
         end; cbn; congruence.
Qed.

(** An absent signature header reaches [fromHex] as [null]. *)
Lemma verifySignature_null P publicKey message :
  exists e, verifySignature P publicKey message None = inl e /\ e = TypeError.
Proof.
  unfold verifySignature. destruct (fromHex (Some publicKey)) as [e|bytes] eqn:E.
  - exists e. split; [reflexivity|].
    unfold fromHex in E. destruct (Js.match_chunks publicKey); congruence.
  - exists TypeError. split; reflexivity.
Qed.

(** Without the signature header, a request that is not too old rejects
    with a [TypeError]. *)
Lemma httpRoute_no_signature P inherited router date_now req :
  x_signature_ed25519 req = None ->
  too_old (date_now / 1000)
    (Js.parseInt (Js.string_of_nullable (x_signature_timestamp req)) 10) = false ->
  httpRoute P inherited router date_now req = mkResult (Reject TypeError) [].
Proof.
  intros Hsig Hold. unfold httpRoute. rewrite Hold, Hsig.
  destruct (verifySignature_null P (internal_publicKey router)
              (Js.string_of_nullable (x_signature_timestamp req) +:+ text req))
    as (e & -> & ->).
  reflexivity.
Qed.

(** An accepted request whose body is not JSON rejects with the
    [SyntaxError] of [JSON.parse]. *)
Lemma httpRoute_malformed_body P inherited router date_now req :
  authenticated P router date_now req ->
  JSON_parse P (text req) = None ->
  httpRoute P inherited router date_now req = mkResult (Reject SyntaxError) [].
Proof.
  intros [Hold Hsig] Hparse. unfold httpRoute. rewrite Hold, Hsig, Hparse.
  reflexivity.
Qed.

(** An accepted request whose body parses to an object, but whose
    [encrypted_data] does not decrypt or does not decode, is answered 400
    and no handler is called. *)
Lemma httpRoute_undecryptable P inherited router date_now req fields :
  authenticated P router date_now req ->
  JSON_parse P (text req) = Some (JObj fields) ->
  match Cipher.decrypt P (internal_encryptionKey router) (obj_get fields "encrypted_data") with
  | inl _ => True
  | inr bytes => msgpack_decode P bytes = None
  end ->
  httpRoute P inherited router date_now req
  = mkResult (Respond 400 (Some "Bad Request")) [].
Proof.
  intros [Hold Hsig] Hparse Hdec. unfold httpRoute.
  rewrite Hold, Hsig, Hparse. cbn [json_prop].
  destruct (Cipher.decrypt _ _ _) as [e|bytes]; [reflexivity|].
  rewrite Hdec. reflexivity.
Qed.

(** C2, as the code has it. When the request passes authentication,
    decrypts and resolves to a handler, and the handler throws [e], the
    request function does not catch [e]: the promise it returned rejects
    with [e], after the one call of the handler, and no response is
    produced. *)
Theorem handler_exception_propagates P inherited router date_now req fn args e :
  reaches_handler P inherited router date_now req fn args ->
  h_run fn args = Some e ->
  httpRoute P inherited router date_now req = mkResult (Reject e) [(h_id fn, args)].
Proof.
  intros Hreach Hthrow. rewrite (httpRoute_reaches _ _ _ _ _ _ _ Hreach), Hthrow.
  reflexivity.
Qed.

(** Running the stages of [reaches_handler] on a concrete request. *)
Local Ltac run_stages :=
  unfold reaches_handler, authenticated;
  repeat match goal with
         | |- _ /\ _ => split
         | |- exists _, _ => eexists
         | |- _ <> _ => discriminate
         | |- _ = _ => vm_compute; reflexivity
         end.

Lemma demo_reaches_throwing_handler :
  reaches_handler Demo.platform Demo.own_only Demo.router Demo.date_now
    (Demo.signed "1000"
       (Demo.render (Demo.webhook_body "fails" (Demo.envelope [MNum 1]))))
    Demo.throws [MNum 1].
Proof. run_stages. Qed.

Lemma demo_reaches_with_two_arguments :
  reaches_handler Demo.platform Demo.own_only Demo.router Demo.date_now
    (Demo.signed "1000"
       (Demo.render (Demo.webhook_body "test1" (Demo.envelope [MNum 1; MNum 2]))))
    Demo.returns [MNum 1; MNum 2].
Proof. run_stages. Qed.

(** A signed, fresh request for the route [fails], whose handler throws. *)
Lemma handler_exception_propagates_witness :
  let req := Demo.signed "1000"
               (Demo.render (Demo.webhook_body "fails" (Demo.envelope [MNum 1]))) in
  reaches_handler Demo.platform Demo.own_only Demo.router Demo.date_now
    req Demo.throws [MNum 1]
  /\ h_run Demo.throws [MNum 1] = Some (Thrown "boom")
  /\ httpRoute Demo.platform Demo.own_only Demo.router Demo.date_now req
     = mkResult (Reject (Thrown "boom")) [(2%nat, [MNum 1])].
Proof.
  cbv zeta. split; [exact demo_reaches_throwing_handler|]. split; [reflexivity|].
  exact (handler_exception_propagates _ _ _ _ _ _ _ _
           demo_reaches_throwing_handler eq_refl).
Defined.

(** C2 as stated fails. The signed, fresh request for the route [fails]
    reaches a handler that throws: the request function rejects with what
    was thrown, and answers neither 500 nor anything else. *)
Lemma handler_exception_is_not_answered_500 :
  let req := Demo.signed "1000"
               (Demo.render (Demo.webhook_body "fails" (Demo.envelope [MNum 1]))) in
  outcome (httpRoute Demo.platform Demo.own_only Demo.router Demo.date_now req)
  = Reject (Thrown "boom")
  /\ ~ (forall P inherited router date_now req fn args e,
          reaches_handler P inherited router date_now req fn args ->
          h_run fn args = Some e ->
          exists body,
            outcome (httpRoute P inherited router date_now req) = Respond 500 body).
Proof.
  cbv zeta. split; [vm_compute; reflexivity|].
  intros Hclaim.
  destruct (Hclaim _ _ _ _ _ _ _ _ demo_reaches_throwing_handler eq_refl)
    as [body Hbody].
  vm_compute in Hbody. discriminate.
Qed.

(** C3, as the code has it. The request is answered 401 "too old" exactly
    when its timestamp parses to a number that is more than 300 seconds
    behind the clock ([now - timestamp > 300], no absolute value), whatever
    the signature: a timestamp more than 300 seconds in the past is
    rejected as stale even when the signature verifies, and a timestamp in
    the future never is. *)
Theorem stale_iff_timestamp_too_far_behind P inherited router date_now req :
  outcome (httpRoute P inherited router date_now req) = stale_response
  <-> exists t,
        Js.parseInt (Js.string_of_nullable (x_signature_timestamp req)) 10 = Some t
        /\ 300 < date_now / 1000 - t.
Proof.
  destruct (too_old (date_now / 1000)
              (Js.parseInt (Js.string_of_nullable (x_signature_timestamp req)) 10))
    eqn:Hold.
  - split.
    + intros _. unfold too_old, MAX_TIME_DIFF in Hold.
      destruct (Js.parseInt _ 10) as [t|]; [|discriminate].
      exists t. split; [reflexivity|]. apply Z.ltb_lt. exact Hold.
    + intros _. rewrite (httpRoute_too_old _ _ _ _ _ Hold). reflexivity.
  - split.
    + intros H. exfalso. exact (httpRoute_not_too_old _ _ _ _ _ Hold H).
    + intros (t & Ht & Hlt). exfalso.
      unfold too_old, MAX_TIME_DIFF in Hold. rewrite Ht in Hold.
      apply Z.ltb_ge in Hold. lia.
Qed.

(** At second 1000, a signed request stamped 600 is stale. *)
Lemma stale_iff_timestamp_too_far_behind_witness :
  let req := Demo.signed "600"
               (Demo.render (Demo.webhook_body "test1" (Demo.envelope [MNum 1]))) in
  (exists t,
     Js.parseInt (Js.string_of_nullable (x_signature_timestamp req)) 10 = Some t
     /\ 300 < Demo.date_now / 1000 - t)
  /\ outcome (httpRoute Demo.platform Demo.own_only Demo.router Demo.date_now req)
     = stale_response.
Proof.
  cbv zeta.
  assert (Hbehind : exists t,
            Js.parseInt (Js.string_of_nullable
                           (x_signature_timestamp
                              (Demo.signed "600"
                                 (Demo.render
                                    (Demo.webhook_body "test1" (Demo.envelope [MNum 1]))))))
              10 = Some t
            /\ 300 < Demo.date_now / 1000 - t)
    by (exists 600; split; vm_compute; reflexivity).
  split; [exact Hbehind|].
  exact (proj2 (stale_iff_timestamp_too_far_behind _ _ _ _ _) Hbehind).
Defined.

(** C3 as stated fails. At second 1000, a signed request stamped 2000 is
    1000 seconds away from the clock; it is not rejected but dispatched. *)
Lemma future_timestamp_is_not_stale :
  let req := Demo.signed "2000"
               (Demo.render (Demo.webhook_body "test1" (Demo.envelope [MNum 1]))) in
  Js.parseInt (Js.string_of_nullable (x_signature_timestamp req)) 10 = Some 2000
  /\ 300 < Z.abs (Demo.date_now / 1000 - 2000)
  /\ httpRoute Demo.platform Demo.own_only Demo.router Demo.date_now req
     = mkResult (Respond 204 None) [(1%nat, [MNum 1])]
  /\ ~ (forall P inherited router date_now req t,
          Js.parseInt (Js.string_of_nullable (x_signature_timestamp req)) 10 = Some t ->
          300 < Z.abs (date_now / 1000 - t) ->
          exists body,
            outcome (httpRoute P inherited router date_now req) = Respond 401 body).
Proof.
  cbv zeta. split; [reflexivity|]. split; [reflexivity|].
  split; [vm_compute; reflexivity|].
  intros Hclaim.
  destruct (Hclaim Demo.platform Demo.own_only Demo.router Demo.date_now
              (Demo.signed "2000"
                 (Demo.render (Demo.webhook_body "test1" (Demo.envelope [MNum 1]))))
              2000 eq_refl eq_refl) as [body Hbody].
  vm_compute in Hbody. discriminate.
Qed.

(** C4, at an input where the code departs from it: a signed, fresh
    request whose body is not JSON. [JSON.parse] is called outside the
    [try]: the request function rejects with its [SyntaxError] and no
    response is produced. A body that parses but whose [encrypted_data] does
    not decrypt is answered 400, as claimed. *)
Theorem malformed_body_is_not_answered :
  let malformed := Demo.signed "1000" "not json" in
  let undecryptable :=
    Demo.signed "1000" (Demo.render (Demo.webhook_body "test1" "bad")) in
  authenticated Demo.platform Demo.router Demo.date_now malformed
  /\ JSON_parse Demo.platform (text malformed) = None
  /\ httpRoute Demo.platform Demo.own_only Demo.router Demo.date_now malformed
     = mkResult (Reject SyntaxError) []
  /\ httpRoute Demo.platform Demo.own_only Demo.router Demo.date_now undecryptable
     = mkResult (Respond 400 (Some "Bad Request")) [].
Proof.
  cbv zeta.
  assert (Hauth : authenticated Demo.platform Demo.router Demo.date_now
                    (Demo.signed "1000" "not json")) by run_stages.
  split; [exact Hauth|]. split; [reflexivity|].
  split; [apply httpRoute_malformed_body; [exact Hauth|reflexivity]|].
  vm_compute. reflexivity.
Qed.

(** C5, at an input where the code departs from it: a fresh request
    without the [X-Signature-Ed25519] header. [fromHex(null)] throws: the
    request function rejects with a [TypeError], no response is produced
    (and no handler is called). *)
Theorem missing_signature_header_throws :
  let req :=
    mkRequest None (Some "1000")
      (Demo.render (Demo.webhook_body "test1" (Demo.envelope [MNum 1]))) in
  x_signature_ed25519 req = None
  /\ httpRoute Demo.platform Demo.own_only Demo.router Demo.date_now req
     = mkResult (Reject TypeError) [].
Proof.
  cbv zeta. split; [reflexivity|].
  apply httpRoute_no_signature; [reflexivity|vm_compute; reflexivity].
Qed.

(** Without the timestamp header the message is ["null" + body] and the
    freshness test compares with [NaN]: a signature over that message is
    accepted and the handler is called. *)
Lemma missing_timestamp_header_is_dispatched :
  let body := Demo.render (Demo.webhook_body "test1" (Demo.envelope [MNum 1])) in
  httpRoute Demo.platform Demo.own_only Demo.router Demo.date_now
    (mkRequest (Some (Demo.hex_of_bytes (Demo.sign ("null" +:+ body)))) None body)
  = mkResult (Respond 204 None) [(1%nat, [MNum 1])].
Proof. vm_compute. reflexivity. Qed.

Lemma demo_resolves_with_two_arguments :
  resolves_to_handler Demo.platform Demo.own_only Demo.router Demo.date_now
    (Demo.signed "1000"
       (Demo.render (Demo.webhook_body "test1" (Demo.envelope [MNum 1; MNum 2]))))
    Demo.returns (MArr [MNum 1; MNum 2]).
Proof. unfold resolves_to_handler. run_stages. Qed.

(** C7, as the code has it. A dispatch that resolves to a handler never
    looks at the declared arity [h_length fn]. When the decoded payload can
    be spread (an array, a string, a byte array) the handler is called,
    once, with all its elements as arguments, however many they are, and
    when the handler returns the answer is 204. When the payload cannot be
    spread (nil, a boolean, a number, a map) the call throws a [TypeError]
    before the handler is entered: the request function rejects and no
    handler is called. *)
Theorem dispatch_ignores_arity P inherited router date_now req fn data :
  resolves_to_handler P inherited router date_now req fn data ->
  match spread data with
  | Some args =>
      invoked (httpRoute P inherited router date_now req) = [(h_id fn, args)]
      /\ (h_run fn args = None ->
          outcome (httpRoute P inherited router date_now req) = Respond 204 None)
  | None =>
      httpRoute P inherited router date_now req = mkResult (Reject TypeError) []
  end.
Proof.
  intros (Hold & Hsig & parsed & bytes & type_str
          & Hparse & Hnull & Hdec & Hdecode & Htype & Hwalk).
  destruct (spread data) as [args|] eqn:Hspread.
  - assert (Hreach : reaches_handler P inherited router date_now req fn args).
    { split; [exact Hold|]. split; [exact Hsig|].
      exists parsed, bytes, data, type_str. repeat split; assumption. }
    rewrite (httpRoute_reaches _ _ _ _ _ _ _ Hreach).
    destruct (h_run fn args) as [e|]; split; try reflexivity; discriminate.
  - unfold httpRoute. rewrite Hold, Hsig, Hparse.
    destruct parsed; try congruence;
      rewrite Hdec, Hdecode, Htype, Hwalk, Hspread; reflexivity.
Qed.

(** Two arguments for a handler that declares one parameter. *)
Lemma dispatch_ignores_arity_witness :
  resolves_to_handler Demo.platform Demo.own_only Demo.router Demo.date_now
    (Demo.signed "1000"
       (Demo.render (Demo.webhook_body "test1" (Demo.envelope [MNum 1; MNum 2]))))
    Demo.returns (MArr [MNum 1; MNum 2])
  /\ List.length [MNum 1; MNum 2] <> h_length Demo.returns
  /\ invoked (httpRoute Demo.platform Demo.own_only Demo.router Demo.date_now
                (Demo.signed "1000"
                   (Demo.render
                      (Demo.webhook_body "test1" (Demo.envelope [MNum 1; MNum 2])))))
     = [(h_id Demo.returns, [MNum 1; MNum 2])].
Proof.
  split; [exact demo_resolves_with_two_arguments|]. split; [discriminate|].
  exact (proj1 (dispatch_ignores_arity _ _ _ _ _ _ _ demo_resolves_with_two_arguments)).
Defined.

(** C7 as stated fails. The handler of [test1] declares one parameter; a
    request that carries two arguments for it is dispatched all the same,
    and answered 204. *)
Lemma arity_mismatch_is_dispatched :
  let req := Demo.signed "1000"
               (Demo.render (Demo.webhook_body "test1" (Demo.envelope [MNum 1; MNum 2]))) in
  h_length Demo.returns = 1%nat
  /\ httpRoute Demo.platform Demo.own_only Demo.router Demo.date_now req
     = mkResult (Respond 204 None) [(h_id Demo.returns, [MNum 1; MNum 2])]
  /\ ~ (forall P inherited router date_now req fn args,
          reaches_handler P inherited router date_now req fn args ->
          List.length args <> h_length fn ->
          invoked (httpRoute P inherited router date_now req) = []).
Proof.
  cbv zeta. split; [reflexivity|]. split; [vm_compute; reflexivity|].
  intros Hclaim.
  pose proof (Hclaim _ _ _ _ _ _ _ demo_reaches_with_two_arguments
                ltac:(discriminate)) as H.
  vm_compute in H. discriminate.
Qed.

End HttpFacts.
(** ** The outbound calls *)

Module OutboundFacts.
Import Heap Router Http.

(** Case analysis on a [match] whose scrutinee holds no other [match]. *)
Ltac destruct_innermost :=
  match goal with
  | |- context [match ?x with _ => _ end] =>
      lazymatch x with
      | context [match _ with _ => _ end] => fail
      | _ => destruct x
      end
  end.

(** Whatever the answer, [errorHandledFetch] calls [fetch] once. *)
Lemma errorHandledFetch_calls P url apiKey method body :
  snd (errorHandledFetch P url apiKey method body)
  = [mkFetchCall url method
       (match body with
        | Some _ => [("Authorization", "Bearer " +:+ apiKey);
                     ("Content-Type", "application/json")]
        | None => [("Authorization", "Bearer " +:+ apiKey)]
        end) body].
Proof.
  unfold errorHandledFetch. cbv zeta.
  repeat first [reflexivity | destruct_innermost].
Qed.

(** C9, as the code has it. [deleteJob] with the empty string fails with
    the local error "Invalid job ID." and makes no call to [fetch]. With
    any other string that is well-formed Unicode it makes exactly one call:
    a DELETE, with the bearer token, to the jobs URL followed by [/] and the
    URL-encoded identifier, whatever [fetch] answers. With a string that
    holds a lone surrogate, [encodeURIComponent] throws a [URIError] and no
    call is made. *)
Theorem deleteJob_fetches_once_unless_empty P apiKey :
  deleteJob P apiKey (VStr "") = (inl (JsError "Invalid job ID."), [])
  /\ forall id,
       id <> "" ->
       if Js.well_formed id
       then snd (deleteJob P apiKey (VStr id))
            = [mkFetchCall (jobs_url +:+ "/" +:+ Js.escape id) "DELETE"
                 [("Authorization", "Bearer " +:+ apiKey)] None]
       else deleteJob P apiKey (VStr id) = (inl URIError, []).
Proof.
  split; [reflexivity|].
  intros id Hid. unfold deleteJob, Js.encodeURIComponent.
  destruct (String.eqb id "") eqn:E; [apply String.eqb_eq in E; contradiction|].
  destruct (Js.well_formed id); [|reflexivity].
  pose proof (errorHandledFetch_calls P
                (jobs_url +:+ "/" +:+ Js.escape id) apiKey "DELETE" None)
    as Hcalls.
  destruct (errorHandledFetch P _ apiKey "DELETE" None) as [[e|res] calls];
    exact Hcalls.
Qed.

(** The identifier of the repository's test. *)
Lemma deleteJob_fetches_once_unless_empty_witness :
  "%%%&@" <> "" /\ Js.well_formed "%%%&@" = true
  /\ snd (deleteJob Demo.platform "key" (VStr "%%%&@"))
     = [mkFetchCall "https://clocktick.dev/api/v1/jobs/%25%25%25%26%40" "DELETE"
          [("Authorization", "Bearer key")] None].
Proof.
  split; [discriminate|]. split; [reflexivity|].
  exact (proj2 (deleteJob_fetches_once_unless_empty Demo.platform "key")
           "%%%&@" ltac:(discriminate)).
Defined.

(** C9 as stated fails. A string that holds a lone surrogate is not
    empty, and [deleteJob] makes no call for it: [encodeURIComponent]
    throws before the fetch. *)
Lemma deleteJob_lone_surrogate_fetches_nothing :
  Demo.lone_surrogate <> ""
  /\ (forall P apiKey,
        deleteJob P apiKey (VStr Demo.lone_surrogate) = (inl URIError, []))
  /\ ~ (forall P apiKey id,
          id <> "" ->
          exists call, snd (deleteJob P apiKey (VStr id)) = [call]).
Proof.
  split; [discriminate|]. split; [reflexivity|].
  intros Hclaim.
  destruct (Hclaim Demo.platform "key" Demo.lone_surrogate ltac:(discriminate))
    as [call Hcall].
  discriminate Hcall.
Qed.

End OutboundFacts.
(** ** The heap *)

Module HeapFacts.
Import Heap.

Lemma traverse_ext {A B} (f g : A -> option B) l ys :
  (forall x y, f x = Some y -> g x = Some y) ->
  traverse f l = Some ys -> traverse g l = Some ys.
Proof.
  intros Hfg. revert ys. induction l as [|x l IH]; intros ys; cbn; [auto|].
  destruct (f x) as [y|] eqn:Hx; [|discriminate].
  destruct (traverse f l) as [ys'|]; [|discriminate].
  intros [= <-]. rewrite (Hfg _ _ Hx), (IH _ eq_refl). reflexivity.
Qed.

(** What was serialisable stays so, with the same result, when the heap
    grows and the depth allowed grows. *)
Lemma stringify_mono fuel : forall (h : heap) v j,
  stringify fuel h v = Some j ->
  forall fuel' (h' : heap), (fuel <= fuel')%nat -> h `prefix_of` h' ->
  stringify fuel' h' v = Some j.
Proof.
  induction fuel as [|fuel IH]; intros h v j Hj fuel' h' Hfuel Hpre.
  - destruct v; cbn in Hj; try discriminate; destruct fuel'; exact Hj.
  - destruct v as [| | |l]; try (destruct fuel'; exact Hj).
    destruct fuel' as [|fuel']; [lia|].
    cbn [stringify] in *.
    destruct (h !! l) as [c|] eqn:Hl; [|discriminate].
    rewrite (prefix_lookup_Some _ _ _ _ Hl Hpre).
    assert (Hfield : forall (kv : string * val) (y : string * json),
              match stringify fuel h kv.2 with Some j0 => Some (kv.1, j0) | None => None end = Some y ->
              match stringify fuel' h' kv.2 with Some j0 => Some (kv.1, j0) | None => None end = Some y).
    { intros kv y Hy. destruct (stringify fuel h kv.2) as [j0|] eqn:E; [|discriminate].
      rewrite (IH _ _ _ E fuel' h') by (lia || assumption). exact Hy. }
    destruct c as [cid sf re|fields].
    + destruct (traverse _ _) as [js|] eqn:E in Hj; [|discriminate].
      rewrite (traverse_ext _ _ _ _ Hfield E). exact Hj.
    + destruct (traverse _ fields) as [js|] eqn:E in Hj; [|discriminate].
      rewrite (traverse_ext _ _ _ _ Hfield E). exact Hj.
Qed.

Lemma JSON_stringify_mono (h h' : heap) v j :
  JSON_stringify h v = Some j -> h `prefix_of` h' -> JSON_stringify h' v = Some j.
Proof.
  unfold JSON_stringify. intros Hj Hpre.
  apply (stringify_mono _ _ _ _ Hj); [|exact Hpre].
  apply prefix_length in Hpre. lia.
Qed.

Lemma lookup_alloc (h : heap) c : (h ++ [c]) !! length h = Some c.
Proof. apply list_lookup_middle. reflexivity. Qed.

(** [toObject()] allocates its two objects past every existing cell. *)
Lemma toObject_fresh this (h : heap) id startFrom runEvery :
  h !! this = Some (PropsInstance id startFrom runEvery) ->
  CreateJobProperties.toObject this h
  = Some (h ++ [PlainObject [("start_from", VRef startFrom);
                             ("run_every", val_of_loc runEvery)];
                PlainObject [("id", val_of_string id); ("data", VRef (length h))]],
          S (length h)).
Proof.
  intros Hthis. unfold CreateJobProperties.toObject, alloc. rewrite Hthis.
  rewrite <- app_assoc. cbn [app]. rewrite length_app. cbn [length].
  repeat f_equal. lia.
Qed.

(** Reading and writing the two objects of [toObject()]. *)
Lemma get_field_outer (h : heap) data outer k :
  get_field (h ++ [data; PlainObject outer]) (S (length h)) k = obj_get outer k.
Proof.
  unfold get_field.
  replace (h ++ [data; PlainObject outer]) with ((h ++ [data]) ++ [PlainObject outer])
    by (rewrite <- app_assoc; reflexivity).
  replace (S (length h)) with (length (h ++ [data]))
    by (rewrite length_app; cbn; lia).
  rewrite lookup_alloc. reflexivity.
Qed.

Lemma set_field_data (h : heap) fields outer k v :
  set_field (h ++ [PlainObject fields; outer]) (length h) k v
  = Some (h ++ [PlainObject (obj_set fields k v); outer]).
Proof.
  unfold set_field.
  rewrite (list_lookup_middle h [outer] (PlainObject fields) (length h) eq_refl).
  f_equal. rewrite insert_app_r_alt by lia. rewrite Nat.sub_diag. reflexivity.
Qed.

(** One step of [stringify] through a reference to a plain object. *)
Lemma stringify_plain fuel (h : heap) l fields :
  h !! l = Some (PlainObject fields) ->
  stringify (S fuel) h (VRef l)
  = match traverse (fun kv : string * val =>
                      match stringify fuel h (snd kv) with
                      | Some j => Some (fst kv, j)
                      | None => None
                      end) fields with
    | Some js => Some (JObj js)
    | None => None
    end.
Proof. intros Hl. cbn [stringify]. rewrite Hl. reflexivity. Qed.

Lemma stringify_string fuel (h : heap) s : stringify fuel h (VStr s) = Some (JStr s).
Proof. destruct fuel; reflexivity. Qed.

(** The body serialised from the [data] object of a call, once the three
    fields are written. *)
Lemma JSON_stringify_data (h : heap) startFrom runEvery outer start_from run_every
    endpoint encrypted jobType :
  JSON_stringify h (VRef startFrom) = Some start_from ->
  JSON_stringify h (val_of_loc runEvery) = Some run_every ->
  JSON_stringify
    (h ++ [PlainObject [("start_from", VRef startFrom);
                        ("run_every", val_of_loc runEvery);
                        ("endpoint_id", VStr endpoint);
                        ("encrypted_data", VStr encrypted);
                        ("job_type", VStr jobType)]; outer])
    (VRef (length h))
  = Some (JObj [("start_from", start_from); ("run_every", run_every);
                ("endpoint_id", JStr endpoint); ("encrypted_data", JStr encrypted);
                ("job_type", JStr jobType)]).
Proof.
  intros Hsf Hre. unfold JSON_stringify in *.
  set (h' := h ++ _).
  assert (Hpre : h `prefix_of` h') by (eexists; reflexivity).
  assert (Hlen : length h' = S (S (length h)))
    by (subst h'; rewrite length_app; cbn; lia).
  rewrite Hlen.
  rewrite (stringify_plain _ _ _ _
             (list_lookup_middle h [outer] _ (length h) eq_refl : h' !! length h = _)).
  cbn [traverse fst snd].
  rewrite (stringify_mono _ _ _ _ Hsf (S (S (length h))) _ (le_S _ _ (le_n _)) Hpre).
  rewrite (stringify_mono _ _ _ _ Hre (S (S (length h))) _ (le_S _ _ (le_n _)) Hpre).
  rewrite !stringify_string. reflexivity.
Qed.

End HeapFacts.

(** ** Scheduling *)

Module SchedulingFacts.
Import Heap Router Http HeapFacts OutboundFacts.

(** The URL read off the object that [toObject()] returned. *)
Lemma url_of_id (id : option string) :
  match Some (val_of_string id) with
  | Some (VStr s) => post_url (Some s)
  | _ => post_url None
  end = post_url id.
Proof. destruct id; reflexivity. Qed.

Lemma apiHandler_frame P apiKey (key : Key P) jobType endpoint fixedIv entropy
    props args (h : heap) id startFrom runEvery start_from run_every :
  h !! props = Some (PropsInstance id startFrom runEvery) ->
  JSON_stringify h (VRef startFrom) = Some start_from ->
  JSON_stringify h (val_of_loc runEvery) = Some run_every ->
  exists data result sent,
    apiHandlerBuilder P apiKey key jobType endpoint fixedIv entropy props args h
    = (h ++ [PlainObject data;
             PlainObject [("id", val_of_string id); ("data", VRef (length h))]],
       result, sent)
    /\ Forall (sends id start_from run_every) sent.
Proof.
  intros Hprops Hsf Hre. unfold apiHandlerBuilder.
  rewrite (toObject_fresh _ _ _ _ _ Hprops).
  rewrite !get_field_outer. cbn [obj_get String.eqb Ascii.eqb Bool.eqb].
  rewrite url_of_id.
  destruct (post_url id) as [url|] eqn:Hurl.
  2:{ eexists _, _, _. split; [reflexivity|constructor]. }
  rewrite set_field_data. cbn [obj_set String.eqb Ascii.eqb Bool.eqb].
  destruct (Cipher.encrypt P fixedIv entropy key (msgpack_encode P args))
    as [e|encrypted].
  { eexists _, _, _. split; [reflexivity|constructor]. }
  rewrite set_field_data. cbn [obj_set String.eqb Ascii.eqb Bool.eqb].
  rewrite set_field_data. cbn [obj_set String.eqb Ascii.eqb Bool.eqb].
  rewrite (JSON_stringify_data _ _ _ _ _ _ _ _ _ Hsf Hre).
  match goal with
  | |- context [errorHandledFetch P ?url apiKey "POST" ?body] =>
      pose proof (errorHandledFetch_calls P url apiKey "POST" body) as Hcalls;
      destruct (errorHandledFetch P url apiKey "POST" body) as [r calls]
  end.
  cbn [snd] in Hcalls. subst calls.
  assert (Hsends : Forall (sends id start_from run_every)
            [mkFetchCall url "POST"
               [("Authorization", "Bearer " +:+ apiKey);
                ("Content-Type", "application/json")]
               (Some (JObj [("start_from", start_from); ("run_every", run_every);
                            ("endpoint_id", JStr endpoint);
                            ("encrypted_data", JStr encrypted);
                            ("job_type", JStr jobType)]))]).
  { constructor; [|constructor]. unfold sends. cbn [fc_method fc_url fc_body].
    split; [reflexivity|]. split; [exact Hurl|].
    eexists. split; [reflexivity|]. split; reflexivity. }
  destruct r as [e|res]; [|destruct (res_json res)];
    eexists _, _, _; (split; [reflexivity|exact Hsends]).
Qed.

(** C10. Scheduling does not mutate the [CreateJobProperties] object it is
    given. Each call works on the two objects that [toObject()] allocates
    for it: whatever the routes, the arguments and the answers, after any
    number of calls with the same object the heap it started from is
    unchanged (it is a prefix of the final heap, the instance and the
    objects it refers to included), and every request sent carries the
    [start_from] and [run_every] that the instance held at the start, and
    goes to the URL of its identifier. *)
Theorem scheduling_leaves_props_unchanged P apiKey (key : Key P) props calls :
  forall (h : heap) id startFrom runEvery start_from run_every,
  h !! props = Some (PropsInstance id startFrom runEvery) ->
  JSON_stringify h (VRef startFrom) = Some start_from ->
  JSON_stringify h (val_of_loc runEvery) = Some run_every ->
  h `prefix_of` fst (schedule_all P apiKey key props calls h)
  /\ fst (schedule_all P apiKey key props calls h) !! props
     = Some (PropsInstance id startFrom runEvery)
  /\ Forall (sends id start_from run_every)
            (snd (schedule_all P apiKey key props calls h)).
Proof.
  induction calls as [|c calls IH]; intros h id startFrom runEvery start_from run_every
    Hprops Hsf Hre.
  - cbn. split; [reflexivity|]. split; [exact Hprops|constructor].
  - cbn [schedule_all].
    destruct (apiHandler_frame P apiKey key (s_jobType c) (s_endpoint c) (s_fixedIv c)
                (s_entropy c) props (s_args c) h id startFrom runEvery
                start_from run_every Hprops Hsf Hre)
      as (data & result & sent & -> & Hsent).
    set (h1 := h ++ _).
    assert (Hpre : h `prefix_of` h1) by (eexists; reflexivity).
    destruct (IH h1 id startFrom runEvery start_from run_every
                (prefix_lookup_Some _ _ _ _ Hprops Hpre)
                (JSON_stringify_mono _ _ _ _ Hsf Hpre)
                (JSON_stringify_mono _ _ _ _ Hre Hpre))
      as (Hpre' & Hprops' & Hsent').
    destruct (schedule_all P apiKey key props calls h1) as [h2 sent'].
    cbn [fst snd] in *.
    split; [etransitivity; eassumption|]. split; [exact Hprops'|].
    apply Forall_app. split; assumption.
Qed.

(** The object made by [fromDatetime(new Date(0))], used for two calls. *)
Lemma scheduling_leaves_props_unchanged_witness :
  let start_from := JObj [("type", JStr "datetime"); ("datetime", JStr Demo.epoch)] in
  let run := schedule_all Demo.platform "key"
               (derive_key Demo.platform "encryption_key_here")
               Demo.props Demo.two_calls Demo.props_heap in
  Demo.props_heap !! Demo.props = Some (PropsInstance None 0%nat None)
  /\ JSON_stringify Demo.props_heap (VRef 0%nat) = Some start_from
  /\ JSON_stringify Demo.props_heap (val_of_loc None) = Some JNull
  /\ (Demo.props_heap `prefix_of` fst run
      /\ fst run !! Demo.props = Some (PropsInstance None 0%nat None)
      /\ Forall (sends None start_from JNull) (snd run))
  /\ List.length (snd run) = 2%nat.
Proof.
  cbv zeta.
  assert (H1 : Demo.props_heap !! Demo.props = Some (PropsInstance None 0%nat None))
    by reflexivity.
  assert (H2 : JSON_stringify Demo.props_heap (VRef 0%nat)
               = Some (JObj [("type", JStr "datetime"); ("datetime", JStr Demo.epoch)]))
    by reflexivity.
  assert (H3 : JSON_stringify Demo.props_heap (val_of_loc None) = Some JNull)
    by reflexivity.
  split; [exact H1|]. split; [exact H2|]. split; [exact H3|].
  split; [|vm_compute; reflexivity].
  exact (scheduling_leaves_props_unchanged Demo.platform "key"
           (derive_key Demo.platform "encryption_key_here")
           Demo.props Demo.two_calls Demo.props_heap
           None 0%nat None _ _ H1 H2 H3).
Defined.

(** The submit scenario of the repository's tests: the body posted for
    [router.test1(fromDatetime(new Date(0)), ...)]. *)
Example submit_scenario :
  snd (call_route Demo.platform Demo.router ["test1"] (Some Demo.testIv)
         (fun _ => x00%byte) Demo.props [MNum 1] Demo.props_heap)
  = [mkFetchCall "https://clocktick.dev/api/v1/jobs" "POST"
       [("Authorization", "Bearer key"); ("Content-Type", "application/json")]
       (Some (JObj [("start_from",
                     JObj [("type", JStr "datetime"); ("datetime", JStr Demo.epoch)]);
                    ("run_every", JNull);
                    ("endpoint_id", JStr "default_endpoint_id");
                    ("encrypted_data", JStr "AQIDBAUGBwgJCgsM:kQEq");
                    ("job_type", JStr "test1")]))].
Proof. vm_compute. reflexivity. Qed.

End SchedulingFacts.
(** ** The repository's tests, run on the embedding *)

Module RepositoryTests.
Import Heap Router Http.

(** typed.test.ts: [[1, 2, 3]] encodes to ["AQID"]. *)
Example toBase64_AQID : Base64.encode [x01; x02; x03]%byte = "AQID".
Proof. reflexivity. Qed.

(** properties.test.ts: "DeltaBuilder builds the delta properly". *)
Example delta_builder_builds :
  DeltaBuilder.toObject
    (DeltaBuilder.years 1
       (DeltaBuilder.seconds 6
          (DeltaBuilder.minutes 5
             (DeltaBuilder.hours 4
                (DeltaBuilder.days 3
                   (DeltaBuilder.months 2
                      (DeltaBuilder.years 1 DeltaBuilder.new)))))))
  = DeltaBody.mk 2 2 3 4 5 6.
Proof. reflexivity. Qed.

(** properties.test.ts: "inputting a recurring delta works": [run_every]
    is the delta body itself, [start_from] a copy tagged ["delta"]. *)
Example fromNow_recurring :
  match Properties.fromNow
          (Some (fun c => inr (Properties.recurring (DeltaBuilder.years 1 (fst c), snd c))))
          [] with
  | inr (h, props) =>
      h !! props = Some (PropsInstance None 1%nat (Some 0%nat))
      /\ JSON_stringify h (VRef 1%nat)
         = Some (JObj [("type", JStr "delta"); ("years", JNum 1); ("months", JNum 0);
                       ("days", JNum 0); ("hours", JNum 0); ("minutes", JNum 0);
                       ("seconds", JNum 0)])
      /\ JSON_stringify h (VRef 0%nat)
         = Some (JObj [("years", JNum 1); ("months", JNum 0); ("days", JNum 0);
                       ("hours", JNum 0); ("minutes", JNum 0); ("seconds", JNum 0)])
  | inl _ => False
  end.
Proof. vm_compute. repeat split. Qed.

(** properties.test.ts: "customId is set properly". *)
Example customId_is_set :
  match Properties.fromNow None [] with
  | inr (h, props) =>
      match CreateJobProperties.customId "test" props h with
      | Some h' =>
          match CreateJobProperties.toObject props h,
                CreateJobProperties.toObject props h' with
          | Some (h1, o1), Some (h2, o2) =>
              get_field h1 o1 "id" = Some VNull /\ get_field h2 o2 "id" = Some (VStr "test")
          | _, _ => False
          end
      | None => False
      end
  | inl _ => False
  end.
Proof. cbn. split; reflexivity. Qed.

(** index.test.ts: "multiple levels". *)
Example createRouter_multiple_levels P :
  routes (createRouter P "key" "encryption_key_here" "public_key_here"
            "default_endpoint_id"
            [("test1", Fn Demo.returns);
             ("test2", customEndpoint "test2_endpoint"
                         (Obj [("test3", Fn Demo.returns);
                               ("test4", customEndpoint "test4_endpoint"
                                           (Fn Demo.returns))]))])
  = [("test1", ApiHandler "test1" "default_endpoint_id");
     ("test2", Sub [("test3", ApiHandler "test2.test3" "test2_endpoint");
                    ("test4", ApiHandler "test2.test4" "test4_endpoint")])].
Proof. reflexivity. Qed.

(** index.test.ts: "httpRoute routes to correct functions": 204 for the two
    registered routes, 400 for a payload that does not decrypt, 401 for a
    bad signature, 404 for an unknown route. *)
Example httpRoute_statuses :
  let route := httpRoute Demo.platform Demo.own_only Demo.router Demo.date_now in
  let body type data := Demo.render (Demo.webhook_body type data) in
  route (Demo.signed "1000" (body "test1" (Demo.envelope [MNum 1])))
  = mkResult (Respond 204 None) [(1%nat, [MNum 1])]
  /\ route (Demo.signed "1000" (body "test2.test3.test4" (Demo.envelope [MNum 2])))
     = mkResult (Respond 204 None) [(3%nat, [MNum 2])]
  /\ outcome (route (Demo.signed "1000" (body "test1" "bad")))
     = Respond 400 (Some "Bad Request")
  /\ outcome (route (mkRequest (Some "bad") (Some "1000")
                       (body "test1" (Demo.envelope [MNum 1]))))
     = Respond 401 (Some "Bad Request - invalid signature")
  /\ outcome (route (Demo.signed "1000" (body "test69" (Demo.envelope [MNum 1]))))
     = Respond 404 (Some "Endpoint Not Found").
Proof. vm_compute. repeat split. Qed.

End RepositoryTests.
(* ===================================================================== *)
(** * Part III: further properties of the code *)
(* ===================================================================== *)

(** ** The codec and the cipher *)

Module CipherMore.
Import Cipher.

(** X1. Decoding what was encoded gives the bytes back:
    [fromBase64(toBase64Polyfill(arr))] is [arr], for every byte array. *)
Theorem fromBase64_toBase64Polyfill (arr : list byte) :
  Typed.fromBase64 (Typed.toBase64Polyfill arr) = Some arr.
Proof. unfold Typed.toBase64Polyfill. apply Base64Facts.fromBase64_encode. Qed.

Lemma split_limit_no_colon s :
  Js.lacks ":" s = true -> Js.split_limit ":" 2 s = [s].
Proof. intros H. unfold Js.split_limit. rewrite JsFacts.split_lacks by exact H. reflexivity. Qed.

Lemma split_limit_two a b :
  Js.lacks ":" a = true -> Js.lacks ":" b = true ->
  Js.split_limit ":" 2 (a +:+ ":" +:+ b) = [a; b].
Proof.
  intros Ha Hb. unfold Js.split_limit.
  change (":" +:+ b) with (String ":" b).
  rewrite JsFacts.split_app_sep by exact Ha.
  rewrite JsFacts.split_lacks by exact Hb. reflexivity.
Qed.

Lemma split_limit_three a b c :
  Js.lacks ":" a = true -> Js.lacks ":" b = true ->
  Js.split_limit ":" 2 (a +:+ ":" +:+ b +:+ ":" +:+ c) = [a; b].
Proof.
  intros Ha Hb. unfold Js.split_limit.
  change (":" +:+ b +:+ ":" +:+ c) with (String ":" (b +:+ String ":" c)).
  rewrite JsFacts.split_app_sep by exact Ha.
  rewrite JsFacts.split_app_sep by exact Hb.
  destruct (Js.split ":" c); reflexivity.
Qed.

(** X2. [decrypt] refuses, before any decoding or decryption, whatever is
    not an envelope: a value that is not a string throws a [TypeError]; a
    string without a colon, or with nothing before the first colon, or with
    nothing between the first colon and the end, throws "Invalid encrypted
    data.". *)
Theorem decrypt_rejects_malformed_envelope P (k : Key P) :
  decrypt P k None = inl TypeError
  /\ (forall s, Js.lacks ":" s = true ->
        decrypt P k (Some (JStr s)) = inl (JsError "Invalid encrypted data."))
  /\ (forall rest,
        decrypt P k (Some (JStr (":" +:+ rest))) = inl (JsError "Invalid encrypted data."))
  /\ (forall iv, Js.lacks ":" iv = true ->
        decrypt P k (Some (JStr (iv +:+ ":"))) = inl (JsError "Invalid encrypted data.")).
Proof.
  split; [reflexivity|]. split; [|split].
  - intros s Hs. unfold decrypt. rewrite (split_limit_no_colon s Hs).
    cbn [nth Js.str_truthy negb]. rewrite orb_true_r. reflexivity.
  - intros rest. unfold decrypt, Js.split_limit.
    change (":" +:+ rest) with (String ":" rest). cbn [Js.split].
    rewrite Ascii.eqb_refl. cbn [firstn nth Js.str_truthy negb orb]. reflexivity.
  - intros iv Hiv. unfold decrypt.
    change (iv +:+ ":") with (iv +:+ ":" +:+ "").
    rewrite (split_limit_two iv "" Hiv eq_refl).
    cbn [nth Js.str_truthy negb]. rewrite orb_true_r. reflexivity.
Qed.

(** The payload of the repository's test, and the two ways to lack a half. *)
Lemma decrypt_rejects_malformed_envelope_witness :
  Js.lacks ":" "bad" = true
  /\ decrypt Demo.platform [] (Some (JStr "bad")) = inl (JsError "Invalid encrypted data.")
  /\ decrypt Demo.platform [] (Some (JStr "AQID:")) = inl (JsError "Invalid encrypted data.").
Proof.
  split; [reflexivity|]. split.
  - exact (proj1 (proj2 (decrypt_rejects_malformed_envelope Demo.platform [])) "bad" eq_refl).
  - exact (proj2 (proj2 (proj2 (decrypt_rejects_malformed_envelope Demo.platform [])))
             "AQID" eq_refl).
Defined.

(** X3. [decrypt] reads the text before the first colon and the text
    between the first and the second: [split(":", 2)] drops the rest, so
    whatever follows a second colon does not change the result. *)
Theorem decrypt_ignores_what_follows_second_colon P (k : Key P) a b c :
  Js.lacks ":" a = true -> Js.lacks ":" b = true ->
  decrypt P k (Some (JStr (a +:+ ":" +:+ b +:+ ":" +:+ c)))
  = decrypt P k (Some (JStr (a +:+ ":" +:+ b))).
Proof.
  intros Ha Hb. unfold decrypt.
  rewrite (split_limit_three a b c Ha Hb), (split_limit_two a b Ha Hb). reflexivity.
Qed.

(** The envelope of the tests, followed by a third piece. *)
Lemma decrypt_ignores_what_follows_second_colon_witness :
  Js.lacks ":" "AQIDBAUGBwgJCgsM" = true
  /\ Js.lacks ":" "kQEq" = true
  /\ decrypt Demo.platform [] (Some (JStr "AQIDBAUGBwgJCgsM:kQEq:anything"))
     = decrypt Demo.platform [] (Some (JStr "AQIDBAUGBwgJCgsM:kQEq"))
  /\ decrypt Demo.platform [] (Some (JStr "AQIDBAUGBwgJCgsM:kQEq:anything"))
     = inr [x91; x01]%byte.
Proof.
  split; [reflexivity|]. split; [reflexivity|]. split; [|vm_compute; reflexivity].
  exact (decrypt_ignores_what_follows_second_colon Demo.platform []
           "AQIDBAUGBwgJCgsM" "kQEq" "anything" eq_refl eq_refl).
Defined.

(** X4. The envelope [encrypt] returns. It holds one colon, between the
    base64 text of the IV and the base64 text of what AES-GCM returned for
    the data under that IV; the IV is twelve bytes of the random source
    unless one was pinned, and a pinned IV is used as it is. The only
    failure is the one of AES-GCM. *)
Theorem encrypt_envelope_shape P (k : Key P) fixedIv entropy data :
  match encrypt P fixedIv entropy k data with
  | inr envelope =>
      exists iv encrypted,
        aes_gcm_encrypt P k iv data = Some encrypted
        /\ Js.split ":" envelope
           = [Typed.toBase64Polyfill iv; Typed.toBase64Polyfill encrypted]
        /\ match fixedIv with
           | Some pinned => iv = pinned
           | None => iv = map entropy (seq 0 12) /\ List.length iv = 12%nat
           end
  | inl e => e = OperationError
  end.
Proof.
  unfold encrypt.
  set (iv := match fixedIv with Some pinned => pinned | None => getRandomValues12 entropy end).
  destruct (aes_gcm_encrypt P k iv data) as [encrypted|] eqn:Henc.
  - exists iv, encrypted. split; [exact Henc|]. split.
    + unfold Typed.toBase64Polyfill.
      change (":" +:+ Base64.encode encrypted) with (String ":" (Base64.encode encrypted)).
      rewrite JsFacts.split_app_sep by apply Base64Facts.encode_lacks_colon.
      rewrite JsFacts.split_lacks by apply Base64Facts.encode_lacks_colon.
      reflexivity.
    + subst iv. destruct fixedIv; [reflexivity|]. split; [reflexivity|].
      unfold getRandomValues12. rewrite length_map, length_seq. reflexivity.
  - reflexivity.
Qed.

End CipherMore.
(** ** The inbound webhook *)

Module HttpMore.
Import Router Http Stages.

Ltac innermost :=
  match goal with
  | |- context [match ?x with _ => _ end] =>
      lazymatch x with
      | context [match _ with _ => _ end] => fail
      | _ => destruct x
      end
  end.

(** Running the stages of [decodes] on a concrete request. *)
Ltac run_decodes :=
  unfold decodes, authenticated;
  repeat match goal with
         | |- _ /\ _ => split
         | |- exists _, _ => eexists
         | |- _ <> _ => discriminate
         | |- _ = _ => vm_compute; reflexivity
         end.

(** What [httpRoute] does once the payload is decoded. *)
Lemma httpRoute_decodes P inherited router date_now req type data :
  decodes P router date_now req type data ->
  httpRoute P inherited router date_now req
  = match type with
    | Some (JStr type_str) =>
        match walk inherited (Node (Obj (internal_fns router))) (Js.split "." type_str) with
        | Some (Node (Fn fn)) =>
            match spread data with
            | None => mkResult (Reject TypeError) []
            | Some args =>
                match h_run fn args with
                | Some e => mkResult (Reject e) [(h_id fn, args)]
                | None => mkResult (Respond 204 None) [(h_id fn, args)]
                end
            end
        | _ => mkResult (Respond 404 (Some "Endpoint Not Found")) []
        end
    | _ => mkResult (Reject TypeError) []
    end.
Proof.
  intros ([Hold Hsig] & parsed & bytes & Hparse & Hnull & Hdec & Hdecode & Htype).
  unfold httpRoute. rewrite Hold, Hsig, Hparse.
  destruct parsed; try congruence; rewrite Hdec, Hdecode, Htype; reflexivity.
Qed.

(** X5. No handler is called for a request that is not authenticated: when
    [httpRoute] calls a handler, the timestamp was not too old and
    [verifySignature] returned true for the timestamp followed by the
    body; and it calls one handler at most. *)
Theorem handler_called_only_when_authenticated P inherited router date_now req :
  invoked (httpRoute P inherited router date_now req) <> [] ->
  authenticated P router date_now req
  /\ List.length (invoked (httpRoute P inherited router date_now req)) = 1%nat.
Proof.
  unfold authenticated, httpRoute.
  destruct (too_old _ _) eqn:Hold; [cbn; congruence|].
  destruct (verifySignature _ _ _ _) as [e|[|]] eqn:Hsig; [cbn; congruence| |cbn; congruence].
  intros H. split; [split; reflexivity|]. revert H.
  repeat innermost; cbn; congruence.
Qed.

(** A signed, fresh request for a registered route. *)
Lemma handler_called_only_when_authenticated_witness :
  let req := Demo.signed "1000"
               (Demo.render (Demo.webhook_body "test1" (Demo.envelope [MNum 1]))) in
  invoked (httpRoute Demo.platform Demo.own_only Demo.router Demo.date_now req) <> []
  /\ authenticated Demo.platform Demo.router Demo.date_now req.
Proof.
  cbv zeta.
  assert (H : invoked (httpRoute Demo.platform Demo.own_only Demo.router Demo.date_now
                         (Demo.signed "1000"
                            (Demo.render (Demo.webhook_body "test1"
                                            (Demo.envelope [MNum 1]))))) <> [])
    by (vm_compute; discriminate).
  split; [exact H|].
  exact (proj1 (handler_called_only_when_authenticated _ _ _ _ _ H)).
Defined.

(** X6. The status tells whether a handler ran: a response other than 204
    (the 400, 401 and 404 of [httpRoute]) means that no handler was called,
    and a 204 means that exactly one was called and returned. *)
Theorem response_tells_whether_handler_ran P inherited router date_now req status body :
  outcome (httpRoute P inherited router date_now req) = Respond status body ->
  (status <> 204 -> invoked (httpRoute P inherited router date_now req) = [])
  /\ (status = 204 ->
      exists fn args,
        invoked (httpRoute P inherited router date_now req) = [(h_id fn, args)]
        /\ h_run fn args = None).
Proof.
  unfold httpRoute.
  repeat first
    [ match goal with
      | |- context [match h_run ?f ?a with _ => _ end] => destruct (h_run f a) eqn:?
      end
    | innermost ];
    cbn; intros Hout; try discriminate Hout; injection Hout as <- <-;
    (split;
     [ intros Hs; first [reflexivity | exfalso; apply Hs; reflexivity]
     | intros Hs; first [discriminate Hs
                        | eexists _, _; split; [reflexivity|eassumption]] ]).
Qed.

(** The unknown route of the repository's test: 404, no handler. *)
Lemma response_tells_whether_handler_ran_witness :
  let req := Demo.signed "1000"
               (Demo.render (Demo.webhook_body "test69" (Demo.envelope [MNum 1]))) in
  outcome (httpRoute Demo.platform Demo.own_only Demo.router Demo.date_now req)
  = Respond 404 (Some "Endpoint Not Found")
  /\ invoked (httpRoute Demo.platform Demo.own_only Demo.router Demo.date_now req) = [].
Proof.
  cbv zeta.
  assert (H : outcome (httpRoute Demo.platform Demo.own_only Demo.router Demo.date_now
                         (Demo.signed "1000"
                            (Demo.render (Demo.webhook_body "test69"
                                            (Demo.envelope [MNum 1])))))
              = Respond 404 (Some "Endpoint Not Found"))
    by (vm_compute; reflexivity).
  split; [exact H|].
  exact (proj1 (response_tells_whether_handler_ran _ _ _ _ _ _ _ H) ltac:(discriminate)).
Defined.

Lemma obj_get_In {A} (o : list (string * A)) k v :
  List.NoDup (map fst o) -> In (k, v) o -> obj_get o k = Some v.
Proof.
  induction o as [|[k0 v0] o IH]; [contradiction|].
  cbn [map fst]. intros Hnd Hin. apply NoDup_cons_iff in Hnd. destruct Hnd as [Hk0 Hnd].
  cbn [obj_get]. destruct Hin as [[= -> ->]|Hin].
  - rewrite String.eqb_refl. reflexivity.
  - destruct (String.eqb k k0) eqn:E; [|exact (IH Hnd Hin)].
    apply String.eqb_eq in E. subst k0. exfalso. apply Hk0.
    apply in_map_iff. exists (k, v). split; [reflexivity|exact Hin].
Qed.



(** X8. A body without a string under [type] is not answered: once the
    payload has decrypted and decoded, [type.split] throws on anything but a
    string, outside the [try], and the request function rejects with a
    [TypeError]; no handler is called. *)
Theorem missing_type_throws P inherited router date_now req type data :
  decodes P router date_now req type data ->
  (forall s, type <> Some (JStr s)) ->
  httpRoute P inherited router date_now req = mkResult (Reject TypeError) [].
Proof.
  intros Hdec Htype. rewrite (httpRoute_decodes _ _ _ _ _ _ _ Hdec).
  destruct type as [[| | |s| |]|]; try reflexivity.
  exfalso. exact (Htype s eq_refl).
Qed.

Lemma missing_type_throws_witness :
  let req := Demo.signed "1000" (Demo.render DemoMore.no_type) in
  decodes DemoMore.platform DemoMore.router Demo.date_now req None (MArr [MNum 1])
  /\ httpRoute DemoMore.platform Demo.own_only DemoMore.router Demo.date_now req
     = mkResult (Reject TypeError) [].
Proof.
  cbv zeta.
  assert (Hdec : decodes DemoMore.platform DemoMore.router Demo.date_now
                   (Demo.signed "1000" (Demo.render DemoMore.no_type))
                   None (MArr [MNum 1])).
  { unfold decodes, authenticated.
    repeat match goal with
           | |- _ /\ _ => split
           | |- exists _, _ => eexists
           | |- _ <> _ => discriminate
           | |- _ = _ => vm_compute; reflexivity
           end. }
  split; [exact Hdec|].
  exact (missing_type_throws _ _ _ _ _ _ _ Hdec ltac:(intros s; discriminate)).
Defined.

Lemma match_chunks_length s :
  single_line_ascii s = true ->
  List.length (Js.match_chunks s) = Nat.div (String.length s + 1) 2.
Proof.
  assert (H : forall s,
            (single_line_ascii s = true ->
             List.length (Js.match_chunks s) = Nat.div (String.length s + 1) 2)
            /\ (forall c, single_line_ascii (String c s) = true ->
                List.length (Js.match_chunks (String c s))
                = Nat.div (String.length (String c s) + 1) 2)).
  { clear s. induction s as [|d s [IH0 IH1]].
    - split; [reflexivity|].
      intros c Hc. cbn [single_line_ascii] in Hc. rewrite !andb_true_iff in Hc.
      destruct Hc as [[_ Hc] _].
      apply negb_true_iff in Hc. cbn [Js.match_chunks]. rewrite Hc. reflexivity.
    - split; [exact (IH1 d)|].
      intros c Hc. cbn [single_line_ascii] in Hc. rewrite !andb_true_iff in Hc.
      destruct Hc as [[_ Hc] [[_ Hd] Hs]].
      apply negb_true_iff in Hc, Hd.
      cbn [Js.match_chunks]. rewrite Hc, Hd. cbn [List.length String.length].
      rewrite (IH0 Hs).
      replace (S (S (String.length s)) + 1)%nat with (String.length s + 1 + 1 * 2)%nat by lia.
      rewrite Nat.div_add by discriminate. lia. }
  apply H.
Qed.

(** X9. [fromHex] validates nothing but presence: [null] and the empty
    string throw a [TypeError]; any other single-line ASCII string is
    converted, two characters per byte (the last one alone when the length
    is odd), whether or not the characters are hexadecimal digits. *)
Theorem fromHex_checks_presence_only :
  fromHex None = inl TypeError
  /\ fromHex (Some "") = inl TypeError
  /\ forall s, s <> "" -> single_line_ascii s = true ->
       exists bytes,
         fromHex (Some s) = inr bytes
         /\ List.length bytes = Nat.div (String.length s + 1) 2.
Proof.
  split; [reflexivity|]. split; [reflexivity|].
  intros s Hs Hlt. pose proof (match_chunks_length s Hlt) as Hlen.
  unfold fromHex. destruct (Js.match_chunks s) as [|chunk chunks] eqn:E.
  - exfalso. destruct s as [|c s]; [congruence|].
    cbn [List.length String.length] in Hlen.
    replace (S (String.length s) + 1)%nat with (String.length s + 1 * 2)%nat in Hlen by lia.
    rewrite Nat.div_add in Hlen by discriminate. lia.
  - eexists. split; [reflexivity|]. rewrite length_map. exact Hlen.
Qed.

(** The signature the repository's test sends as invalid. *)
Lemma fromHex_checks_presence_only_witness :
  "bad" <> "" /\ single_line_ascii "bad" = true
  /\ exists bytes, fromHex (Some "bad") = inr bytes /\ List.length bytes = 2%nat.
Proof.
  split; [discriminate|]. split; [reflexivity|].
  exact (proj2 (proj2 fromHex_checks_presence_only) "bad" ltac:(discriminate) eq_refl).
Defined.

(** X10. [verifySignature] accepts exactly when [verifyAsync] returned true
    on the converted signature, the message and the converted public key:
    a verifier that throws, like one that returns false, gives false. *)
Theorem verifySignature_accepts_iff_verified P publicKey message signature :
  verifySignature P publicKey message signature = inr true
  <-> exists signatureBytes publicKeyBytes,
        fromHex signature = inr signatureBytes
        /\ fromHex (Some publicKey) = inr publicKeyBytes
        /\ verifyAsync P signatureBytes message publicKeyBytes = Some true.
Proof.
  unfold verifySignature. split.
  - destruct (fromHex (Some publicKey)) as [e|pb]; [discriminate|].
    destruct (fromHex signature) as [e|sb]; [discriminate|].
    destruct (verifyAsync P sb message pb) as [[|]|] eqn:E; try discriminate.
    intros _. exists sb, pb. repeat split. exact E.
  - intros (sb & pb & -> & -> & ->). reflexivity.
Qed.

(** X11. [verifySignature] throws exactly when one of its two hexadecimal
    arguments is missing or holds no character to convert; what
    [verifyAsync] does never makes it throw. *)
Theorem verifySignature_throws_iff_nothing_to_convert P publicKey message signature :
  (exists e, verifySignature P publicKey message signature = inl e)
  <-> Js.match_chunks publicKey = []
      \/ match signature with
         | None => True
         | Some s => Js.match_chunks s = []
         end.
Proof.
  unfold verifySignature, fromHex. split.
  - destruct (Js.match_chunks publicKey) as [|c cs]; [auto|].
    destruct signature as [s|]; [|auto].
    destruct (Js.match_chunks s) as [|d ds]; [auto|].
    destruct (verifyAsync P _ message _) as [b|]; intros [e He]; discriminate.
  - intros [->|H]; [eexists; reflexivity|].
    destruct (Js.match_chunks publicKey) as [|c cs]; [eexists; reflexivity|].
    destruct signature as [s|]; [rewrite H|]; eexists; reflexivity.
Qed.

(** X12. A payload that cannot be spread is not an answer either: when
    the body decrypts and decodes to a value that is neither an array nor a
    string and [type] leads to a function, the spread in the call throws a
    [TypeError] before the function is entered; the request function
    rejects and no handler is called. *)
Theorem non_iterable_payload_throws P inherited router date_now req type_str data fn :
  decodes P router date_now req (Some (JStr type_str)) data ->
  walk inherited (Node (Obj (internal_fns router))) (Js.split "." type_str)
  = Some (Node (Fn fn)) ->
  spread data = None ->
  httpRoute P inherited router date_now req = mkResult (Reject TypeError) [].
Proof.
  intros Hdec Hwalk Hspread.
  rewrite (httpRoute_decodes _ _ _ _ _ _ _ Hdec), Hwalk, Hspread. reflexivity.
Qed.

Lemma non_iterable_payload_throws_witness :
  let req := Demo.signed "1000" (Demo.render DemoMore.scalar_payload) in
  decodes DemoMore.platform DemoMore.router Demo.date_now req
    (Some (JStr "test1")) (MNum 5)
  /\ walk Demo.own_only (Node (Obj (internal_fns DemoMore.router))) (Js.split "." "test1")
     = Some (Node (Fn Demo.returns))
  /\ spread (MNum 5) = None
  /\ httpRoute DemoMore.platform Demo.own_only DemoMore.router Demo.date_now req
     = mkResult (Reject TypeError) [].
Proof.
  cbv zeta.
  assert (Hdec : decodes DemoMore.platform DemoMore.router Demo.date_now
                   (Demo.signed "1000" (Demo.render DemoMore.scalar_payload))
                   (Some (JStr "test1")) (MNum 5)).
  { unfold decodes, authenticated.
    repeat match goal with
           | |- _ /\ _ => split
           | |- exists _, _ => eexists
           | |- _ <> _ => discriminate
           | |- _ = _ => vm_compute; reflexivity
           end. }
  split; [exact Hdec|]. split; [reflexivity|]. split; [reflexivity|].
  exact (non_iterable_payload_throws _ _ _ _ _ _ _ _ Hdec eq_refl eq_refl).
Defined.

(** X13. Dispatch is not confined to the handler tree. [httpRoute] reads
    the tree by plain property reads, so what the root object inherits is
    found as its own keys are: when a name is no key of the tree and the
    root inherits a function under it (as every object literal inherits
    [constructor], [toString] and the like from [Object.prototype]), every
    authenticated, decodable request whose type is that name calls the
    inherited function with the decoded arguments, and is answered 204 when
    it returns. *)
Theorem inherited_function_is_dispatched
    P inherited router date_now req name data args g :
  decodes P router date_now req (Some (JStr name)) data ->
  Js.lacks "." name = true ->
  obj_get (internal_fns router) name = None ->
  inherited (Node (Obj (internal_fns router))) name = Some (Node (Fn g)) ->
  spread data = Some args ->
  httpRoute P inherited router date_now req
  = mkResult (match h_run g args with
              | Some e => Reject e
              | None => Respond 204 None
              end) [(h_id g, args)].
Proof.
  intros Hdec Hdot Hown Hinherited Hspread.
  rewrite (httpRoute_decodes _ _ _ _ _ _ _ Hdec).
  rewrite (JsFacts.split_lacks _ _ Hdot).
  cbn [walk get_prop]. rewrite Hown, Hinherited. cbn [walk]. rewrite Hspread.
  destruct (h_run g args); reflexivity.
Qed.

(** A request of type [constructor] to the router of the tests. *)
Lemma inherited_function_is_dispatched_witness :
  let req := Demo.signed "1000"
               (Demo.render (Demo.webhook_body "constructor" (Demo.envelope [MNum 1]))) in
  decodes DemoMore.platform DemoMore.router Demo.date_now req
    (Some (JStr "constructor")) (MArr [MNum 1])
  /\ obj_get (internal_fns DemoMore.router) "constructor" = None
  /\ httpRoute DemoMore.platform DemoMore.inherits_constructor DemoMore.router
       Demo.date_now req
     = mkResult (Respond 204 None) [(999%nat, [MNum 1])].
Proof.
  cbv zeta.
  assert (Hdec : decodes DemoMore.platform DemoMore.router Demo.date_now
                   (Demo.signed "1000"
                      (Demo.render (Demo.webhook_body "constructor"
                                      (Demo.envelope [MNum 1]))))
                   (Some (JStr "constructor")) (MArr [MNum 1])) by run_decodes.
  split; [exact Hdec|]. split; [reflexivity|].
  exact (inherited_function_is_dispatched DemoMore.platform DemoMore.inherits_constructor
           DemoMore.router Demo.date_now _ "constructor" (MArr [MNum 1]) [MNum 1]
           DemoMore.object_constructor Hdec eq_refl eq_refl eq_refl eq_refl).
Defined.

End HttpMore.

Module RouterMore.
Import Router Http Stages.

Lemma fold_write_stack endpointId fns : forall obj keyStack,
  snd (fold_left (fun st e => write_entry endpointId (fst e) (snd e) st) fns
         (obj, keyStack))
  = Nat.iter (wrappers (Obj fns)) pop keyStack.
Proof.
  induction fns as [|[k v] es IH]; intros obj keyStack; [reflexivity|].
  cbn [fold_left fst snd].
  pose proof (RouterFacts.write_entry_stack v endpointId k obj keyStack) as Hv.
  destruct (write_entry endpointId k v (obj, keyStack)) as [obj' ks'].
  cbn [snd] in Hv. subst ks'. rewrite IH.
  change (wrappers (Obj ((k, v) :: es))) with (wrappers v + wrappers (Obj es))%nat.
  rewrite RouterFacts.iter_add. reflexivity.
Qed.

(** X14. What a call of [_write] does to the shared key stack: it removes
    one key for itself and one more for every wrapper anywhere in the tree
    it was given, whatever the keys and the functions are. A call on a tree
    without wrappers gives back the stack its caller had before pushing;
    each wrapper costs the caller one key of its own. *)
Theorem write_pops_once_and_once_per_wrapper endpointId obj fns keyStack :
  snd (_write endpointId obj fns keyStack)
  = Nat.iter (S (wrappers (Obj fns))) pop keyStack.
Proof.
  unfold _write.
  pose proof (fold_write_stack endpointId fns obj keyStack) as H.
  destruct (fold_left _ fns (obj, keyStack)) as [obj' ks'].
  cbn [snd] in *. subst ks'. reflexivity.
Qed.

Lemma leaves_of_handler_leaves value : forall endpointId path,
  leaves endpointId path value = map fst (handler_leaves endpointId path value).
Proof.
  induction value as [f|endpoint v IH|entries IH] using RouterFacts.Fns_nested_ind;
    intros endpointId path.
  - reflexivity.
  - cbn [leaves handler_leaves]. apply IH.
  - cbn [leaves handler_leaves].
    induction IH as [|[k v] es Hv _ IHes]; [reflexivity|].
    rewrite map_app, <- IHes. cbn [snd] in Hv. rewrite Hv. reflexivity.
Qed.

Lemma handler_leaf_is_leaf endpointId path value p ep f :
  In (p, ep, f) (handler_leaves endpointId path value) ->
  In (p, ep) (leaves endpointId path value).
Proof.
  intros H. rewrite leaves_of_handler_leaves.
  apply in_map_iff. exists (p, ep, f). split; [reflexivity|exact H].
Qed.

(** X15. [createRouter] gives every function of the tree a route at the
    keys that lead to it, whatever the shape of the tree, and the endpoint
    the route captured is the one of the innermost [customEndpoint] around
    the function, the default one when there is none. *)
Theorem every_function_gets_a_route
    P apiKey secret publicKey defaultEndpointId fns p ep f :
  distinct_keys (Obj fns) ->
  In (p, ep, f) (handler_leaves defaultEndpointId [] (Obj fns)) ->
  exists jobType,
    route_at (routes (createRouter P apiKey secret publicKey defaultEndpointId fns)) p
    = Some (ApiHandler jobType ep).
Proof.
  intros Hkeys Hin. apply handler_leaf_is_leaf in Hin.
  destruct (RouterFacts.createRouter_routes P apiKey secret publicKey defaultEndpointId
              fns p ep Hkeys Hin) as (jobType & Hroute & _).
  exists jobType. exact Hroute.
Qed.

Lemma every_function_gets_a_route_witness :
  distinct_keys (Obj Demo.fns)
  /\ In (["test2"; "test3"; "test4"], "test3_endpoint", Demo.nested)
       (handler_leaves "default_endpoint_id" [] (Obj Demo.fns))
  /\ exists jobType,
       route_at (routes Demo.router) ["test2"; "test3"; "test4"]
       = Some (ApiHandler jobType "test3_endpoint").
Proof.
  assert (Hkeys : distinct_keys (Obj Demo.fns)).
  { cbn. repeat first [split | constructor]; cbn; intuition discriminate. }
  assert (Hin : In (["test2"; "test3"; "test4"], "test3_endpoint", Demo.nested)
                  (handler_leaves "default_endpoint_id" [] (Obj Demo.fns))).
  { cbn. right. right. left. reflexivity. }
  split; [exact Hkeys|]. split; [exact Hin|].
  exact (every_function_gets_a_route Demo.platform "key" "encryption_key_here" "abcd"
           "default_endpoint_id" Demo.fns _ _ _ Hkeys Hin).
Defined.

Lemma join_cons key k keys :
  Js.join "." (key :: k :: keys) = key +:+ String "." (Js.join "." (k :: keys)).
Proof. reflexivity. Qed.

Lemma split_join key keys :
  Forall (fun k => Js.lacks "." k = true) (key :: keys) ->
  Js.split "." (Js.join "." (key :: keys)) = key :: keys.
Proof.
  revert key. induction keys as [|k ks IH]; intros key Hall.
  - apply JsFacts.split_lacks. exact (Forall_inv Hall).
  - rewrite join_cons.
    rewrite JsFacts.split_app_sep by exact (Forall_inv Hall).
    rewrite (IH k (Forall_inv_tail Hall)). reflexivity.
Qed.

Lemma walk_unwrap inherited entries k v rest :
  List.NoDup (map fst entries) ->
  In (k, v) entries ->
  walk inherited (Node (Obj entries)) (k :: rest)
  = walk inherited (Node (unwrap v)) rest.
Proof.
  intros Hnd Hin. cbn [walk get_prop].
  rewrite (HttpMore.obj_get_In _ _ _ Hnd Hin). destruct v; reflexivity.
Qed.

Lemma handler_leaves_object endpointId path entries x :
  In x (handler_leaves endpointId path (Obj entries)) ->
  exists k v, In (k, v) entries /\ In x (handler_leaves endpointId (path ++ [k]) v).
Proof.
  cbn [handler_leaves].
  induction entries as [|[k v] es IH]; [contradiction|].
  intros Hin. apply in_app_or in Hin. destruct Hin as [Hin|Hin].
  - exists k, v. split; [left; reflexivity|exact Hin].
  - destruct (IH Hin) as (k' & v' & Hin' & Hleaf).
    exists k', v'. split; [right; exact Hin'|exact Hleaf].
Qed.

Lemma singly_wrapped_entry entries k v :
  singly_wrapped (Obj entries) -> In (k, v) entries -> singly_wrapped v.
Proof.
  cbn [singly_wrapped]. induction entries as [|[k0 v0] es IH]; [contradiction|].
  intros [Hv0 Hrest] [[= -> ->]|Hin]; [exact Hv0|exact (IH Hrest Hin)].
Qed.

Lemma dotless_keys_entry entries k v :
  dotless_keys (Obj entries) -> In (k, v) entries ->
  Js.lacks "." k = true /\ dotless_keys v.
Proof.
  cbn [dotless_keys]. induction entries as [|[k0 v0] es IH]; [contradiction|].
  intros (Hk0 & Hv0 & Hrest) [[= -> ->]|Hin]; [split; assumption|exact (IH Hrest Hin)].
Qed.

(** The loop of [httpRoute], started below the keys of [path], reaches the
    function of every leaf by the remaining keys. *)
Lemma walk_leaf inherited value : forall endpointId path p ep f,
  distinct_keys value -> singly_wrapped value -> dotless_keys value ->
  In (p, ep, f) (handler_leaves endpointId path value) ->
  exists suffix,
    p = path ++ suffix
    /\ Forall (fun k => Js.lacks "." k = true) suffix
    /\ walk inherited (Node (unwrap value)) suffix = Some (Node (Fn f)).
Proof.
  induction value as [g|endpoint v IH|entries IH] using RouterFacts.Fns_nested_ind;
    intros endpointId path p ep f Hkeys Hsingle Hdots Hin.
  - destruct Hin as [[= <- <- <-]|[]]. exists []. rewrite app_nil_r.
    repeat split. constructor.
  - cbn [handler_leaves] in Hin. destruct Hsingle as [Hnot Hsingle].
    destruct (IH endpoint path p ep f Hkeys Hsingle Hdots Hin) as (suffix & Hp & Hall & Hwalk).
    exists suffix. repeat split; [exact Hp|exact Hall|].
    destruct v; [exact Hwalk|discriminate Hnot|exact Hwalk].
  - destruct (handler_leaves_object _ _ _ _ Hin) as (k & v & Hkv & Hleaf).
    rewrite List.Forall_forall in IH.
    destruct (dotless_keys_entry _ _ _ Hdots Hkv) as [Hk Hdv].
    destruct (IH (k, v) Hkv endpointId (path ++ [k]) p ep f
                (RouterFacts.distinct_keys_entry _ _ _ Hkeys Hkv)
                (singly_wrapped_entry _ _ _ Hsingle Hkv) Hdv Hleaf)
      as (suffix & Hp & Hall & Hwalk).
    exists (k :: suffix). repeat split.
    + rewrite Hp, <- app_assoc. reflexivity.
    + constructor; assumption.
    + cbn [unwrap]. rewrite (walk_unwrap _ _ _ _ _ (proj1 Hkeys) Hkv). exact Hwalk.
Qed.

(** The route of a leaf and the walk over its job type. *)
Lemma route_and_walk
    P apiKey secret publicKey defaultEndpointId fns inherited p ep f :
  let router := createRouter P apiKey secret publicKey defaultEndpointId fns in
  distinct_keys (Obj fns) ->
  singly_wrapped (Obj fns) ->
  dotless_keys (Obj fns) ->
  Forall (fun kv => tidy (snd kv) /\ fst kv <> "") fns ->
  In (p, ep, f) (handler_leaves defaultEndpointId [] (Obj fns)) ->
  route_at (routes router) p = Some (ApiHandler (Js.join "." p) ep)
  /\ walk inherited (Node (Obj (internal_fns router))) (Js.split "." (Js.join "." p))
     = Some (Node (Fn f)).
Proof.
  intros router Hkeys Hsingle Hdots Htidy Hin. split.
  - destruct (RouterFacts.createRouter_routes P apiKey secret publicKey defaultEndpointId
                fns p ep Hkeys (handler_leaf_is_leaf _ _ _ _ _ _ Hin))
      as (jobType & Hroute & Hjob).
    rewrite <- (Hjob Htidy). exact Hroute.
  - destruct (walk_leaf inherited (Obj fns) defaultEndpointId [] p ep f
                Hkeys Hsingle Hdots Hin) as (suffix & Hp & Hall & Hwalk).
    cbn [app] in Hp. subst suffix. cbn [unwrap] in Hwalk.
    destruct p as [|k ks].
    + cbn in Hwalk. discriminate Hwalk.
    + rewrite (split_join _ _ Hall). exact Hwalk.
Qed.

(** X16. Scheduling and dispatch agree on tidy trees. When the root keys
    are not empty, no key holds a dot, only last entries hold wrappers and
    no wrapper wraps a wrapper, the route of every function carries the
    dot-joined keys as its job type, and [httpRoute]'s walk over the pieces
    of that job type ends at that same function, whatever the objects of
    the tree inherit. *)
Theorem scheduled_job_type_reaches_its_function
    P apiKey secret publicKey defaultEndpointId fns inherited p ep f :
  let router := createRouter P apiKey secret publicKey defaultEndpointId fns in
  distinct_keys (Obj fns) ->
  singly_wrapped (Obj fns) ->
  dotless_keys (Obj fns) ->
  Forall (fun kv => tidy (snd kv) /\ fst kv <> "") fns ->
  In (p, ep, f) (handler_leaves defaultEndpointId [] (Obj fns)) ->
  route_at (routes router) p = Some (ApiHandler (Js.join "." p) ep)
  /\ walk inherited (Node (Obj (internal_fns router))) (Js.split "." (Js.join "." p))
     = Some (Node (Fn f)).
Proof. apply route_and_walk. Qed.

Lemma scheduled_job_type_reaches_its_function_witness :
  distinct_keys (Obj Demo.fns) /\ singly_wrapped (Obj Demo.fns)
  /\ dotless_keys (Obj Demo.fns)
  /\ Forall (fun kv => tidy (snd kv) /\ fst kv <> "") Demo.fns
  /\ route_at (routes Demo.router) ["test2"; "test3"; "test4"]
     = Some (ApiHandler "test2.test3.test4" "test3_endpoint")
  /\ walk Demo.own_only (Node (Obj (internal_fns Demo.router)))
       (Js.split "." "test2.test3.test4")
     = Some (Node (Fn Demo.nested)).
Proof.
  assert (Hkeys : distinct_keys (Obj Demo.fns)).
  { cbn. repeat first [split | constructor]; cbn; intuition discriminate. }
  assert (Hsingle : singly_wrapped (Obj Demo.fns)) by (cbn; intuition reflexivity).
  assert (Hdots : dotless_keys (Obj Demo.fns)) by (cbn; intuition reflexivity).
  assert (Htidy : Forall (fun kv => tidy (snd kv) /\ fst kv <> "") Demo.fns).
  { repeat constructor; cbn; try discriminate; auto. }
  assert (Hin : In (["test2"; "test3"; "test4"], "test3_endpoint", Demo.nested)
                  (handler_leaves "default_endpoint_id" [] (Obj Demo.fns))).
  { cbn. right. right. left. reflexivity. }
  split; [exact Hkeys|]. split; [exact Hsingle|]. split; [exact Hdots|].
  split; [exact Htidy|].
  exact (scheduled_job_type_reaches_its_function Demo.platform "key"
           "encryption_key_here" "abcd" "default_endpoint_id" Demo.fns Demo.own_only
           _ _ _ Hkeys Hsingle Hdots Htidy Hin).
Defined.

End RouterMore.

Module OutboundMore.
Import Heap Router Http Stages.

(** The call [errorHandledFetch] makes. *)
Lemma errorHandledFetch_unfold P url apiKey method body :
  errorHandledFetch P url apiKey method body
  = let call := mkFetchCall url method
                  (match body with
                   | Some _ => [("Authorization", "Bearer " +:+ apiKey);
                                ("Content-Type", "application/json")]
                   | None => [("Authorization", "Bearer " +:+ apiKey)]
                   end) body in
    match fetch P call with
    | None => (inl FetchError, [call])
    | Some res =>
        if res_ok res then (inr res, [call])
        else
          if match res_is_application_error res with
             | Some v => String.eqb v "true"
             | None => false
             end
          then
            match res_json res with
            | None => (inl SyntaxError, [call])
            | Some JNull => (inl TypeError, [call])
            | Some error =>
                match json_prop error "reasons" with
                | Some (JArr reasons) =>
                    (inl (APIError (json_prop error "type") reasons), [call])
                | _ => (inl TypeError, [call])
                end
            end
          else (inl (JsError ("HTTP error: " +:+ Js.string_of_Z (res_status res))),
                [call])
    end.
Proof. reflexivity. Qed.

Lemma res_ok_range res : res_ok res = true <-> 200 <= res_status res <= 299.
Proof. unfold res_ok. rewrite andb_true_iff, !Z.leb_le. reflexivity. Qed.


Lemma fetch_resolution P url apiKey method body res :
  fst (errorHandledFetch P url apiKey method body) = inr res
  <-> fetch P (mkFetchCall url method
                 (match body with
                  | Some _ => [("Authorization", "Bearer " +:+ apiKey);
                               ("Content-Type", "application/json")]
                  | None => [("Authorization", "Bearer " +:+ apiKey)]
                  end) body) = Some res
      /\ 200 <= res_status res <= 299.
Proof.
  rewrite errorHandledFetch_unfold. cbv zeta. rewrite <- res_ok_range.
  destruct (fetch P _) as [r|]; [|split; [discriminate|intros [[=] _]]].
  destruct (res_ok r) eqn:Hok.
  - split.
    + intros [= ->]. split; [reflexivity|exact Hok].
    + intros [[= ->] _]. reflexivity.
  - split.
    + intros H. exfalso. revert H.
      repeat first [discriminate | OutboundFacts.destruct_innermost].
    + intros [[= ->] Hok']. congruence.
Qed.

(** X17. [errorHandledFetch] returns a response exactly when [fetch]
    resolved with a status from 200 to 299, and then it returns that very
    response; every other answer, and a rejected [fetch], makes it throw. *)
Theorem errorHandledFetch_resolves_iff_2xx P url apiKey method body res :
  fst (errorHandledFetch P url apiKey method body) = inr res
  <-> fetch P (mkFetchCall url method
                 (match body with
                  | Some _ => [("Authorization", "Bearer " +:+ apiKey);
                               ("Content-Type", "application/json")]
                  | None => [("Authorization", "Bearer " +:+ apiKey)]
                  end) body) = Some res
      /\ 200 <= res_status res <= 299.
Proof. apply fetch_resolution. Qed.


(** X19. [deleteJob] checks before it fetches. An identifier that is not a
    string throws the local error, and a string that holds a lone surrogate
    makes [encodeURIComponent] throw a [URIError]: in both cases nothing is
    fetched. The promise resolves exactly when the identifier is a
    non-empty string of well-formed Unicode and the service answered the
    DELETE for its encoded form with a status from 200 to 299. *)
Theorem deleteJob_validates_then_deletes P apiKey jobId :
  ((forall id, jobId <> VStr id) ->
   deleteJob P apiKey jobId = (inl (JsError "Invalid job ID."), []))
  /\ (forall id,
        jobId = VStr id -> id <> "" -> Js.well_formed id = false ->
        deleteJob P apiKey jobId = (inl URIError, []))
  /\ (fst (deleteJob P apiKey jobId) = inr tt
      <-> exists id encoded res,
            jobId = VStr id /\ id <> ""
            /\ Js.encodeURIComponent id = Some encoded
            /\ fetch P (mkFetchCall (jobs_url +:+ "/" +:+ encoded)
                          "DELETE" [("Authorization", "Bearer " +:+ apiKey)] None)
               = Some res
            /\ 200 <= res_status res <= 299).
Proof.
  split; [|split].
  - intros Hnot. destruct jobId as [|n|id|l]; try reflexivity.
    exfalso. exact (Hnot id eq_refl).
  - intros id -> Hid Hill. unfold deleteJob, Js.encodeURIComponent.
    destruct (String.eqb id "") eqn:E; [apply String.eqb_eq in E; contradiction|].
    rewrite Hill. reflexivity.
  - destruct jobId as [|n|id|l];
      try (split; [discriminate|intros (id' & encoded & res & [=] & _)]).
    unfold deleteJob. destruct (String.eqb id "") eqn:E.
    + apply String.eqb_eq in E. subst id.
      split; [discriminate|]. intros (id' & encoded & res & [= <-] & Hne & _). congruence.
    + apply String.eqb_neq in E.
      destruct (Js.encodeURIComponent id) as [encoded|] eqn:Henc.
      2:{ split; [discriminate|].
          intros (id' & encoded & res & [= <-] & _ & Henc' & _). congruence. }
      pose proof (fun res => fetch_resolution P
                    (jobs_url +:+ "/" +:+ encoded) apiKey "DELETE"
                    None res) as Hiff.
      destruct (errorHandledFetch P _ apiKey "DELETE" None) as [[e|res] calls].
      * split; [discriminate|].
        intros (id' & encoded' & res & [= <-] & _ & Henc' & Hfetch & Hrange).
        rewrite Henc in Henc'. injection Henc' as <-.
        specialize (Hiff res). cbn [fst] in Hiff.
        discriminate (proj2 Hiff (conj Hfetch Hrange)).
      * split; [|reflexivity]. intros _. exists id, encoded, res.
        destruct (proj1 (Hiff res) eq_refl) as [Hfetch Hrange].
        repeat split; try assumption; apply Hrange.
Qed.

(** An identifier that is a number, and one that is a lone surrogate. *)
Lemma deleteJob_validates_then_deletes_witness :
  (forall id, VNum 5 <> VStr id)
  /\ deleteJob Demo.platform "key" (VNum 5) = (inl (JsError "Invalid job ID."), [])
  /\ Demo.lone_surrogate <> "" /\ Js.well_formed Demo.lone_surrogate = false
  /\ deleteJob Demo.platform "key" (VStr Demo.lone_surrogate) = (inl URIError, []).
Proof.
  split; [discriminate|]. split.
  { exact (proj1 (deleteJob_validates_then_deletes Demo.platform "key" (VNum 5))
             ltac:(discriminate)). }
  split; [discriminate|]. split; [reflexivity|].
  exact (proj1 (proj2 (deleteJob_validates_then_deletes Demo.platform "key"
                         (VStr Demo.lone_surrogate)))
           Demo.lone_surrogate eq_refl ltac:(discriminate) eq_refl).
Defined.

(** A call of the closure whose identifier cannot be encoded. *)
Lemma apiHandlerBuilder_uri_error P apiKey (key : Key P) jobType endpoint fixedIv entropy
    props args (h : heap) id startFrom runEvery :
  h !! props = Some (PropsInstance id startFrom runEvery) ->
  post_url id = None ->
  snd (apiHandlerBuilder P apiKey key jobType endpoint fixedIv entropy props args h) = []
  /\ snd (fst (apiHandlerBuilder P apiKey key jobType endpoint fixedIv entropy
                 props args h)) = inl URIError.
Proof.
  intros Hprops Hurl. unfold apiHandlerBuilder.
  rewrite (HeapFacts.toObject_fresh _ _ _ _ _ Hprops).
  rewrite !HeapFacts.get_field_outer. cbn [obj_get String.eqb Ascii.eqb Bool.eqb].
  rewrite SchedulingFacts.url_of_id, Hurl. split; reflexivity.
Qed.

(** A call of the closure, up to the call of [errorHandledFetch]. *)
Lemma apiHandlerBuilder_run P apiKey (key : Key P) jobType endpoint fixedIv entropy
    props args (h : heap) id startFrom runEvery start_from run_every url :
  h !! props = Some (PropsInstance id startFrom runEvery) ->
  JSON_stringify h (VRef startFrom) = Some start_from ->
  JSON_stringify h (val_of_loc runEvery) = Some run_every ->
  post_url id = Some url ->
  match Cipher.encrypt P fixedIv entropy key (msgpack_encode P args) with
  | inl e =>
      snd (apiHandlerBuilder P apiKey key jobType endpoint fixedIv entropy props args h)
      = []
      /\ snd (fst (apiHandlerBuilder P apiKey key jobType endpoint fixedIv entropy
                     props args h)) = inl e
  | inr encrypted =>
      let answer :=
        errorHandledFetch P url apiKey "POST"
          (Some (post_body start_from run_every endpoint encrypted jobType)) in
      snd (apiHandlerBuilder P apiKey key jobType endpoint fixedIv entropy props args h)
      = snd answer
      /\ snd (fst (apiHandlerBuilder P apiKey key jobType endpoint fixedIv entropy
                     props args h))
         = match fst answer with
           | inl e => inl e
           | inr res => match res_json res with
                        | Some j => inr j
                        | None => inl SyntaxError
                        end
           end
  end.
Proof.
  intros Hprops Hsf Hre Hurl. unfold apiHandlerBuilder.
  rewrite (HeapFacts.toObject_fresh _ _ _ _ _ Hprops).
  rewrite !HeapFacts.get_field_outer. cbn [obj_get String.eqb Ascii.eqb Bool.eqb].
  rewrite SchedulingFacts.url_of_id, Hurl.
  rewrite HeapFacts.set_field_data. cbn [obj_set String.eqb Ascii.eqb Bool.eqb].
  destruct (Cipher.encrypt P fixedIv entropy key (msgpack_encode P args))
    as [e|encrypted]; [split; reflexivity|].
  rewrite HeapFacts.set_field_data. cbn [obj_set String.eqb Ascii.eqb Bool.eqb].
  rewrite HeapFacts.set_field_data. cbn [obj_set String.eqb Ascii.eqb Bool.eqb].
  rewrite (HeapFacts.JSON_stringify_data _ _ _ _ _ _ _ _ _ Hsf Hre).
  cbv zeta. fold (post_body start_from run_every endpoint encrypted jobType).
  destruct (errorHandledFetch P url apiKey "POST" _) as [[e|res] calls];
    cbn [fst snd]; [split; reflexivity|].
  destruct (res_json res); split; reflexivity.
Qed.



(** X21. What the closure made by [apiHandlerBuilder] returns. Its promise
    resolves, with the decoded body of the answer, exactly when the URL
    could be built, [encrypt] succeeded, the service answered the POST with
    a status from 200 to 299 and the body of the answer is JSON. *)
Theorem apiHandlerBuilder_resolves_iff_accepted
    P apiKey (key : Key P) jobType endpoint fixedIv entropy
    props args (h : heap) id startFrom runEvery start_from run_every result :
  h !! props = Some (PropsInstance id startFrom runEvery) ->
  JSON_stringify h (VRef startFrom) = Some start_from ->
  JSON_stringify h (val_of_loc runEvery) = Some run_every ->
  snd (fst (apiHandlerBuilder P apiKey key jobType endpoint fixedIv entropy
              props args h)) = inr result
  <-> exists url encrypted res,
        post_url id = Some url
        /\ Cipher.encrypt P fixedIv entropy key (msgpack_encode P args) = inr encrypted
        /\ fetch P (mkFetchCall url "POST"
                      [("Authorization", "Bearer " +:+ apiKey);
                       ("Content-Type", "application/json")]
                      (Some (post_body start_from run_every endpoint encrypted jobType)))
           = Some res
        /\ 200 <= res_status res <= 299
        /\ res_json res = Some result.
Proof.
  intros Hprops Hsf Hre.
  destruct (post_url id) as [url|] eqn:Hurl.
  2:{ destruct (apiHandlerBuilder_uri_error P apiKey key jobType endpoint fixedIv entropy
                  props args h id startFrom runEvery Hprops Hurl) as [_ ->].
      split; [discriminate|]. intros (url & encrypted & res & [=] & _). }
  pose proof (apiHandlerBuilder_run P apiKey key jobType endpoint fixedIv entropy
                props args h id startFrom runEvery start_from run_every url
                Hprops Hsf Hre Hurl) as Hrun.
  destruct (Cipher.encrypt P fixedIv entropy key (msgpack_encode P args))
    as [e|encrypted].
  { destruct Hrun as [_ ->]. split; [discriminate|].
    intros (url' & encrypted & res & _ & [=] & _). }
  cbv zeta in Hrun. destruct Hrun as [_ ->].
  pose proof (fun res => fetch_resolution P url apiKey
                "POST" (Some (post_body start_from run_every endpoint encrypted jobType))
                res) as Hiff.
  destruct (fst (errorHandledFetch P url apiKey "POST" _)) as [e|res].
  - split; [discriminate|].
    intros (url' & encrypted' & res & [= <-] & [= <-] & Hfetch & Hrange & _).
    discriminate (proj2 (Hiff res) (conj Hfetch Hrange)).
  - destruct (proj1 (Hiff res) eq_refl) as [Hfetch Hrange]. split.
    + intros Hjson. exists url, encrypted, res.
      destruct (res_json res) as [j|]; [|discriminate].
      injection Hjson as ->. repeat split; try assumption; apply Hrange.
    + intros (url' & encrypted' & res' & [= <-] & [= <-] & Hfetch' & _ & Hjson).
      rewrite Hfetch in Hfetch'. injection Hfetch' as <-. rewrite Hjson. reflexivity.
Qed.

(** The answer of the repository's mock service. *)
Lemma apiHandlerBuilder_resolves_iff_accepted_witness :
  Demo.props_heap !! Demo.props = Some (PropsInstance None 0%nat None)
  /\ JSON_stringify Demo.props_heap (VRef 0%nat)
     = Some (JObj [("type", JStr "datetime"); ("datetime", JStr Demo.epoch)])
  /\ JSON_stringify Demo.props_heap (val_of_loc None) = Some JNull
  /\ snd (fst (apiHandlerBuilder Demo.platform "key"
                 (derive_key Demo.platform "encryption_key_here") "test1"
                 "default_endpoint_id" (Some Demo.testIv) (fun _ => x00%byte)
                 Demo.props [MNum 1] Demo.props_heap))
     = inr (JObj [("id", JStr "job_id")]).
Proof.
  split; [reflexivity|]. split; [reflexivity|]. split; [reflexivity|].
  apply (proj2 (apiHandlerBuilder_resolves_iff_accepted Demo.platform "key"
                  (derive_key Demo.platform "encryption_key_here") "test1"
                  "default_endpoint_id" (Some Demo.testIv) (fun _ => x00%byte)
                  Demo.props [MNum 1] Demo.props_heap None 0%nat None _ _ _
                  eq_refl eq_refl eq_refl)).
  exists jobs_url, "AQIDBAUGBwgJCgsM:kQEq", Demo.job_created.
  split; [reflexivity|]. split; [reflexivity|]. split; [reflexivity|].
  split; [|reflexivity].
  split; discriminate.
Defined.

End OutboundMore.

Module Delivery.
Import Heap Router Http Stages.

(** X22. A scheduled call comes back to the function it was made for. On a
    tidy tree, calling the route of a function with [args] posts a job
    whose body names the dot-joined keys as job type, the endpoint of the
    innermost wrapper, and an envelope; and every authenticated request
    whose body carries that job type under [type] and that envelope under
    [encrypted_data] makes [httpRoute] call that same function, once, with
    exactly [args]. AES-GCM is taken at its contract, msgpack at its round
    trip on [args], the IV is the random one or a pinned one that is not
    empty, and the identifier of the properties object is one that
    [encodeURIComponent] accepts. *)
Theorem scheduled_call_is_delivered
    P (Haead : Cipher.aead_correct P) apiKey secret publicKey defaultEndpointId fns
    inherited p ep f fixedIv entropy props args (h : heap)
    id startFrom runEvery start_from run_every url :
  let router := createRouter P apiKey secret publicKey defaultEndpointId fns in
  distinct_keys (Obj fns) ->
  singly_wrapped (Obj fns) ->
  dotless_keys (Obj fns) ->
  Forall (fun kv => tidy (snd kv) /\ fst kv <> "") fns ->
  In (p, ep, f) (handler_leaves defaultEndpointId [] (Obj fns)) ->
  fixedIv <> Some [] ->
  msgpack_decode P (msgpack_encode P args) = Some (MArr args) ->
  h !! props = Some (PropsInstance id startFrom runEvery) ->
  JSON_stringify h (VRef startFrom) = Some start_from ->
  JSON_stringify h (val_of_loc runEvery) = Some run_every ->
  post_url id = Some url ->
  exists encrypted,
    snd (call_route P router p fixedIv entropy props args h)
    = [mkFetchCall url "POST"
         [("Authorization", "Bearer " +:+ apiKey); ("Content-Type", "application/json")]
         (Some (post_body start_from run_every ep encrypted (Js.join "." p)))]
    /\ forall date_now req parsed,
         authenticated P router date_now req ->
         JSON_parse P (text req) = Some parsed ->
         json_prop parsed "type" = Some (JStr (Js.join "." p)) ->
         json_prop parsed "encrypted_data" = Some (JStr encrypted) ->
         httpRoute P inherited router date_now req
         = mkResult (match h_run f args with
                     | Some e => Reject e
                     | None => Respond 204 None
                     end) [(h_id f, args)].
Proof.
  intros router Hkeys Hsingle Hdots Htidy Hin Hiv Hpack Hprops Hsf Hre Hurl.
  destruct (RouterMore.route_and_walk P apiKey secret publicKey defaultEndpointId fns
              inherited p ep f Hkeys Hsingle Hdots Htidy Hin) as [Hroute Hwalk].
  fold router in Hroute, Hwalk.
  destruct (CipherFacts.roundtrip_any_key P Haead (internal_encryptionKey router)
              fixedIv entropy (msgpack_encode P args) Hiv)
    as (encrypted & Henc & Hdec).
  exists encrypted. split.
  - unfold call_route. rewrite Hroute.
    pose proof (OutboundMore.apiHandlerBuilder_run P (router_apiKey router)
                  (internal_encryptionKey router) (Js.join "." p) ep fixedIv entropy
                  props args h id startFrom runEvery start_from run_every url
                  Hprops Hsf Hre Hurl) as Hrun.
    rewrite Henc in Hrun. cbv zeta in Hrun. destruct Hrun as [-> _].
    apply OutboundFacts.errorHandledFetch_calls.
  - intros date_now req parsed Hauth Hparse Htype Hdata.
    assert (Hdecodes : decodes P router date_now req (Some (JStr (Js.join "." p)))
                         (MArr args)).
    { split; [exact Hauth|]. exists parsed, (msgpack_encode P args).
      split; [exact Hparse|]. split; [intros ->; discriminate Htype|].
      split; [rewrite Hdata; exact Hdec|]. split; [exact Hpack|exact Htype]. }
    rewrite (HttpMore.httpRoute_decodes _ _ _ _ _ _ _ Hdecodes), Hwalk.
    cbn [spread]. destruct (h_run f args); reflexivity.
Qed.

(** The call [router.test1(props, 1)] of the repository's tests, and the
    webhook the service makes of it. *)
Lemma scheduled_call_is_delivered_witness :
  let req := Demo.signed "1000"
               (Demo.render (Demo.webhook_body "test1" (Demo.envelope [MNum 1]))) in
  Cipher.aead_correct Demo.platform
  /\ distinct_keys (Obj Demo.fns) /\ singly_wrapped (Obj Demo.fns)
  /\ dotless_keys (Obj Demo.fns)
  /\ Forall (fun kv => tidy (snd kv) /\ fst kv <> "") Demo.fns
  /\ Some Demo.testIv <> Some []
  /\ msgpack_decode Demo.platform (msgpack_encode Demo.platform [MNum 1])
     = Some (MArr [MNum 1])
  /\ authenticated Demo.platform Demo.router Demo.date_now req
  /\ httpRoute Demo.platform Demo.own_only Demo.router Demo.date_now req
     = mkResult (Respond 204 None) [(h_id Demo.returns, [MNum 1])].
Proof.
  cbv zeta.
  assert (Hkeys : distinct_keys (Obj Demo.fns)).
  { cbn. repeat first [split | constructor]; cbn; intuition discriminate. }
  assert (Hsingle : singly_wrapped (Obj Demo.fns)) by (cbn; intuition reflexivity).
  assert (Hdots : dotless_keys (Obj Demo.fns)) by (cbn; intuition reflexivity).
  assert (Htidy : Forall (fun kv => tidy (snd kv) /\ fst kv <> "") Demo.fns).
  { repeat constructor; cbn; try discriminate; auto. }
  assert (Hin : In (["test1"], "default_endpoint_id", Demo.returns)
                  (handler_leaves "default_endpoint_id" [] (Obj Demo.fns))).
  { cbn. left. reflexivity. }
  assert (Hiv : Some Demo.testIv <> Some []) by discriminate.
  assert (Hpack : msgpack_decode Demo.platform (msgpack_encode Demo.platform [MNum 1])
                  = Some (MArr [MNum 1])) by reflexivity.
  assert (Hauth : authenticated Demo.platform Demo.router Demo.date_now
                    (Demo.signed "1000"
                       (Demo.render (Demo.webhook_body "test1"
                                       (Demo.envelope [MNum 1]))))).
  { split; vm_compute; reflexivity. }
  split; [exact CipherFacts.demo_aead_correct|].
  split; [exact Hkeys|]. split; [exact Hsingle|]. split; [exact Hdots|].
  split; [exact Htidy|]. split; [exact Hiv|]. split; [exact Hpack|].
  split; [exact Hauth|].
  destruct (scheduled_call_is_delivered Demo.platform CipherFacts.demo_aead_correct
              "key" "encryption_key_here" "abcd" "default_endpoint_id" Demo.fns
              Demo.own_only ["test1"] "default_endpoint_id" Demo.returns
              (Some Demo.testIv) (fun _ => x00%byte) Demo.props [MNum 1]
              Demo.props_heap None 0%nat None
              (JObj [("type", JStr "datetime"); ("datetime", JStr Demo.epoch)]) JNull
              jobs_url
              Hkeys Hsingle Hdots Htidy Hin Hiv Hpack eq_refl eq_refl eq_refl eq_refl)
    as (encrypted & Hsent & Hdelivered).
  vm_compute in Hsent. injection Hsent as <-.
  apply (Hdelivered Demo.date_now _
           (Demo.webhook_body "test1" (Demo.envelope [MNum 1])) Hauth);
    vm_compute; reflexivity.
Defined.

End Delivery.

Module PropertiesMore.
Import Heap Router Http Stages Callbacks.

(** What a callback does to the builder of [fromNow]: it throws, or it
    leaves the unit calls made and the flag set. *)
Lemma callback_run steps : forall b r,
  callback steps (b, r)
  = match thrown steps with
    | Some e => inl e
    | None => inr (DeltaBuilder.chain (additions steps) b,
                   r || existsb is_recurring steps)
    end.
Proof.
  induction steps as [|[u v| |e] steps IH]; intros b r.
  - cbn. rewrite orb_false_r. reflexivity.
  - cbn [callback run fst snd thrown additions existsb is_recurring orb].
    rewrite IH. reflexivity.
  - cbn [callback run thrown additions existsb is_recurring]. unfold Properties.recurring.
    cbn [fst]. rewrite IH. cbn [orb]. rewrite orb_true_r. reflexivity.
  - reflexivity.
Qed.

(** The same on the plain builder of [fromDatetime]. *)
Lemma plain_callback_run steps : forall b,
  plain_callback steps b
  = match thrown_plain steps with
    | Some e => inl e
    | None => inr (DeltaBuilder.chain (additions steps) b)
    end.
Proof.
  induction steps as [|[u v| |e] steps IH]; intros b; try reflexivity.
  cbn [plain_callback run_plain thrown_plain additions]. rewrite IH. reflexivity.
Qed.

Lemma toObject_totals calls :
  DeltaBuilder.toObject (DeltaBuilder.chain calls DeltaBuilder.new) = totals calls.
Proof. apply DeltaBuilderFacts.toObject_chain. Qed.

Lemma stringify_number fuel (h : heap) n :
  stringify fuel h (VNum n) = Some (json_of_number n).
Proof. destruct fuel; reflexivity. Qed.

Lemma stringify_delta fuel (h : heap) l d :
  h !! l = Some (PlainObject (Properties.delta_fields d)) ->
  stringify (S fuel) h (VRef l) = Some (JObj (delta_json d)).
Proof.
  intros Hl. rewrite (HeapFacts.stringify_plain _ _ _ _ Hl).
  unfold Properties.delta_fields. cbn [traverse fst snd].
  rewrite !stringify_number. reflexivity.
Qed.

Lemma stringify_typed_delta fuel (h : heap) l type d :
  h !! l = Some (PlainObject (("type", VStr type) :: Properties.delta_fields d)) ->
  stringify (S fuel) h (VRef l) = Some (JObj (("type", JStr type) :: delta_json d)).
Proof.
  intros Hl. rewrite (HeapFacts.stringify_plain _ _ _ _ Hl).
  unfold Properties.delta_fields. cbn [traverse fst snd].
  rewrite !stringify_number, HeapFacts.stringify_string. reflexivity.
Qed.

Lemma lookup_past (h : heap) cells i c :
  cells !! i = Some c -> (h ++ cells) !! (length h + i)%nat = Some c.
Proof.
  intros Hc. rewrite lookup_app_r by lia.
  replace (length h + i - length h)%nat with i by lia. exact Hc.
Qed.

Lemma lookup_first (h : heap) c rest : (h ++ c :: rest) !! length h = Some c.
Proof. apply list_lookup_middle. reflexivity. Qed.

Lemma lookup_second (h : heap) c0 c rest :
  (h ++ c0 :: c :: rest) !! S (length h) = Some c.
Proof.
  replace (S (length h)) with (length h + 1)%nat by lia. apply lookup_past. reflexivity.
Qed.

Lemma lookup_third (h : heap) c0 c1 c rest :
  (h ++ c0 :: c1 :: c :: rest) !! S (S (length h)) = Some c.
Proof.
  replace (S (S (length h))) with (length h + 2)%nat by lia.
  apply lookup_past. reflexivity.
Qed.

(** What [fromNow] builds on the heap. *)
Lemma fromNow_heap steps (h : heap) :
  Properties.fromNow (Some (callback steps)) h
  = match thrown steps with
    | Some e => inl e
    | None =>
        inr (h ++ [PlainObject (Properties.delta_fields (totals (additions steps)));
                   PlainObject (("type", VStr "delta")
                                :: Properties.delta_fields (totals (additions steps)));
                   PropsInstance None (S (length h))
                     (if existsb is_recurring steps then Some (length h) else None)],
             S (S (length h)))
    end.
Proof.
  unfold Properties.fromNow. rewrite callback_run.
  destruct (thrown steps) as [e|]; [reflexivity|].
  rewrite toObject_totals.
  unfold CreateJobProperties.new, alloc. cbn [orb].
  rewrite <- !app_assoc. cbn [app]. rewrite !length_app. cbn [length].
  repeat f_equal; lia.
Qed.

(** The instance made by [fromNow] when the callback returns, and what
    its two fields serialise to. *)
Lemma fromNow_instance steps (h : heap) :
  thrown steps = None ->
  exists h' props startFrom runEvery,
    Properties.fromNow (Some (callback steps)) h = inr (h', props)
    /\ h `prefix_of` h'
    /\ h' !! props = Some (PropsInstance None startFrom runEvery)
    /\ JSON_stringify h' (VRef startFrom)
       = Some (JObj (("type", JStr "delta") :: delta_json (totals (additions steps))))
    /\ JSON_stringify h' (val_of_loc runEvery)
       = Some (if existsb is_recurring steps
               then JObj (delta_json (totals (additions steps)))
               else JNull).
Proof.
  intros Hreturns. rewrite fromNow_heap, Hreturns.
  eexists _, _, _, _. split; [reflexivity|].
  split; [eexists; reflexivity|].
  split; [apply lookup_third|].
  unfold JSON_stringify. split.
  - apply stringify_typed_delta. apply lookup_second.
  - destruct (existsb is_recurring steps); [|reflexivity].
    cbn [val_of_loc]. apply stringify_delta. apply lookup_first.
Qed.

(** X23. [fromNow] and its callback. A callback that throws makes
    [fromNow] throw the same. Otherwise, whatever the callback does with
    the builder, the new properties object starts from [{type: delta}] with
    six fields: for each unit the sum of the values passed to its method,
    added as doubles in call order; and it repeats with those same six
    fields exactly when [recurring()] was called somewhere in the chain,
    unit calls made after it included; otherwise [run_every] is [null]. Its
    identifier is [null], the objects that existed are untouched, and no
    callback is the empty callback. *)
Theorem fromNow_totals_and_recurrence steps (h : heap) :
  Properties.fromNow None h = Properties.fromNow (Some (callback [])) h
  /\ match thrown steps with
     | Some e => Properties.fromNow (Some (callback steps)) h = inl e
     | None =>
         exists h' props startFrom runEvery,
           Properties.fromNow (Some (callback steps)) h = inr (h', props)
           /\ h `prefix_of` h'
           /\ h' !! props = Some (PropsInstance None startFrom runEvery)
           /\ JSON_stringify h' (VRef startFrom)
              = Some (JObj (("type", JStr "delta")
                            :: delta_json (totals (additions steps))))
           /\ JSON_stringify h' (val_of_loc runEvery)
              = Some (if existsb is_recurring steps
                      then JObj (delta_json (totals (additions steps)))
                      else JNull)
     end.
Proof.
  split; [reflexivity|].
  destruct (thrown steps) as [e|] eqn:Hthrown.
  - rewrite fromNow_heap, Hthrown. reflexivity.
  - apply fromNow_instance, Hthrown.
Qed.

(** A callback that throws after its first call: nothing is built, on
    either builder. *)
Example failing_callback_builds_nothing :
  Properties.fromNow (Some (callback DemoMore.failing)) [] = inl (Thrown "boom")
  /\ Properties.fromDatetime (Some Demo.epoch) (Some (plain_callback DemoMore.failing)) []
     = inl (Thrown "boom").
Proof. split; reflexivity. Qed.

(** What [fromDatetime] builds on the heap. *)
Lemma fromDatetime_heap dtStr steps (h : heap) :
  Properties.fromDatetime (Some dtStr) (option_map plain_callback steps) h
  = match steps with
    | Some cs =>
        match thrown_plain cs with
        | Some e => inl e
        | None =>
            inr (h ++ [PlainObject (Properties.delta_fields (totals (additions cs)));
                       PlainObject [("type", VStr "datetime"); ("datetime", VStr dtStr)];
                       PropsInstance None (S (length h)) (Some (length h))],
                 S (S (length h)))
        end
    | None =>
        inr (h ++ [PlainObject [("type", VStr "datetime"); ("datetime", VStr dtStr)];
                   PropsInstance None (length h) None],
             S (length h))
    end.
Proof.
  unfold Properties.fromDatetime, CreateJobProperties.new, alloc.
  destruct steps as [cs|]; cbn [option_map].
  - rewrite plain_callback_run. destruct (thrown_plain cs) as [e|]; [reflexivity|].
    rewrite toObject_totals. rewrite <- !app_assoc. cbn [app].
    rewrite !length_app. cbn [length]. repeat f_equal; lia.
  - rewrite <- !app_assoc. cbn [app]. rewrite !length_app. cbn [length].
    repeat f_equal; lia.
Qed.

(** X24. [fromDatetime] and its callback. A date that [toISOString]
    refuses makes it throw a [RangeError], callback or not; a callback that
    throws, or that calls [recurring()], which the plain builder it is
    handed does not have, makes it throw as well. Otherwise the new
    properties object starts from [{type: datetime, datetime}] with the ISO
    string, and its [run_every] is [null] only when no callback was given:
    with a callback it holds six fields, for each unit the sum of the
    values passed to its method, added as doubles in call order, so a
    callback that calls nothing gives six zeros, where [fromNow] without
    [recurring()] gives [null]. *)
Theorem fromDatetime_start_and_recurrence :
  (forall runEvery (h : heap), Properties.fromDatetime None runEvery h = inl RangeError)
  /\ forall dtStr steps (h : heap),
       match steps with
       | Some cs =>
           match thrown_plain cs with
           | Some e =>
               Properties.fromDatetime (Some dtStr) (Some (plain_callback cs)) h = inl e
           | None =>
               exists h' props startFrom runEvery,
                 Properties.fromDatetime (Some dtStr) (Some (plain_callback cs)) h
                 = inr (h', props)
                 /\ h `prefix_of` h'
                 /\ h' !! props = Some (PropsInstance None startFrom runEvery)
                 /\ JSON_stringify h' (VRef startFrom)
                    = Some (JObj [("type", JStr "datetime"); ("datetime", JStr dtStr)])
                 /\ JSON_stringify h' (val_of_loc runEvery)
                    = Some (JObj (delta_json (totals (additions cs))))
           end
       | None =>
           exists h' props startFrom,
             Properties.fromDatetime (Some dtStr) None h = inr (h', props)
             /\ h `prefix_of` h'
             /\ h' !! props = Some (PropsInstance None startFrom None)
             /\ JSON_stringify h' (VRef startFrom)
                = Some (JObj [("type", JStr "datetime"); ("datetime", JStr dtStr)])
       end.
Proof.
  split; [reflexivity|].
  intros dtStr steps h. pose proof (fromDatetime_heap dtStr steps h) as Hheap.
  destruct steps as [cs|]; cbn [option_map] in Hheap.
  - destruct (thrown_plain cs) as [e|]; [exact Hheap|].
    eexists _, _, _, _. split; [exact Hheap|].
    split; [eexists; reflexivity|]. split; [apply lookup_third|].
    unfold JSON_stringify. split.
    + erewrite HeapFacts.stringify_plain by apply lookup_second.
      cbn [traverse fst snd]. rewrite !HeapFacts.stringify_string. reflexivity.
    + cbn [val_of_loc]. apply stringify_delta. apply lookup_first.
  - eexists _, _, _. split; [exact Hheap|].
    split; [eexists; reflexivity|]. split; [apply lookup_second|].
    unfold JSON_stringify.
    erewrite HeapFacts.stringify_plain by apply lookup_first.
    cbn [traverse fst snd]. rewrite !HeapFacts.stringify_string. reflexivity.
Qed.

(** X25. What is posted for a job made by [fromNow]: for every callback
    that returns and every route, when [encrypt] succeeds the one request
    goes to the jobs URL and its body starts from the delta of the
    callback, the sums of doubles of X23, and repeats with it exactly when
    the callback called [recurring()]. *)
Theorem fromNow_job_is_posted
    P apiKey (key : Key P) jobType endpoint fixedIv entropy args steps (h : heap)
    encrypted :
  thrown steps = None ->
  Cipher.encrypt P fixedIv entropy key (msgpack_encode P args) = inr encrypted ->
  exists h' props,
    Properties.fromNow (Some (callback steps)) h = inr (h', props)
    /\ snd (apiHandlerBuilder P apiKey key jobType endpoint fixedIv entropy
              props args h')
       = [mkFetchCall jobs_url "POST"
            [("Authorization", "Bearer " +:+ apiKey);
             ("Content-Type", "application/json")]
            (Some (JObj [("start_from",
                          JObj (("type", JStr "delta")
                                :: delta_json (totals (additions steps))));
                         ("run_every",
                          if existsb is_recurring steps
                          then JObj (delta_json (totals (additions steps)))
                          else JNull);
                         ("endpoint_id", JStr endpoint);
                         ("encrypted_data", JStr encrypted);
                         ("job_type", JStr jobType)]))].
Proof.
  intros Hreturns Henc.
  destruct (fromNow_instance steps h Hreturns)
    as (h' & props & startFrom & runEvery & Hbuilt & _ & Hprops & Hsf & Hre).
  exists h', props. split; [exact Hbuilt|].
  pose proof (OutboundMore.apiHandlerBuilder_run P apiKey key jobType endpoint fixedIv
                entropy props args h' None startFrom runEvery _ _ jobs_url
                Hprops Hsf Hre eq_refl) as Hrun.
  rewrite Henc in Hrun. cbv zeta in Hrun. destruct Hrun as [-> _].
  apply OutboundFacts.errorHandledFetch_calls.
Qed.

(** The job [fromNow(c => c.hours(1).recurring().minutes(30))]. *)
Lemma fromNow_job_is_posted_witness :
  thrown DemoMore.hourly = None
  /\ Cipher.encrypt Demo.platform (Some Demo.testIv) (fun _ => x00%byte)
       (derive_key Demo.platform "encryption_key_here")
       (msgpack_encode Demo.platform [MNum 1]) = inr "AQIDBAUGBwgJCgsM:kQEq"
  /\ exists h' props,
       Properties.fromNow (Some (callback DemoMore.hourly)) [] = inr (h', props)
       /\ snd (apiHandlerBuilder Demo.platform "key"
                 (derive_key Demo.platform "encryption_key_here") "test1"
                 "default_endpoint_id" (Some Demo.testIv) (fun _ => x00%byte)
                 props [MNum 1] h')
          = [mkFetchCall "https://clocktick.dev/api/v1/jobs" "POST"
               [("Authorization", "Bearer key"); ("Content-Type", "application/json")]
               (Some (JObj [("start_from",
                             JObj [("type", JStr "delta"); ("years", JNum 0);
                                   ("months", JNum 0); ("days", JNum 0);
                                   ("hours", JNum 1); ("minutes", JNum 30);
                                   ("seconds", JNum 0)]);
                            ("run_every",
                             JObj [("years", JNum 0); ("months", JNum 0);
                                   ("days", JNum 0); ("hours", JNum 1);
                                   ("minutes", JNum 30); ("seconds", JNum 0)]);
                            ("endpoint_id", JStr "default_endpoint_id");
                            ("encrypted_data", JStr "AQIDBAUGBwgJCgsM:kQEq");
                            ("job_type", JStr "test1")]))].
Proof.
  split; [reflexivity|]. split; [reflexivity|].
  exact (fromNow_job_is_posted Demo.platform "key"
           (derive_key Demo.platform "encryption_key_here") "test1"
           "default_endpoint_id" (Some Demo.testIv) (fun _ => x00%byte) [MNum 1]
           DemoMore.hourly [] "AQIDBAUGBwgJCgsM:kQEq" eq_refl eq_refl).
Defined.

Lemma traverse_eq {A B} (f g : A -> option B) l :
  (forall x, f x = g x) -> traverse f l = traverse g l.
Proof.
  intros Hfg. induction l as [|x l IH]; [reflexivity|].
  cbn [traverse]. rewrite Hfg, IH. reflexivity.
Qed.

(** [JSON.stringify] does not see the private [#customId]. *)
Lemma stringify_customId fuel : forall (h : heap) this id0 id startFrom runEvery v,
  h !! this = Some (PropsInstance id0 startFrom runEvery) ->
  stringify fuel (<[this := PropsInstance id startFrom runEvery]> h) v
  = stringify fuel h v.
Proof.
  induction fuel as [|fuel IH]; intros h this id0 id startFrom runEvery v Hthis;
    [destruct v; reflexivity|].
  destruct v as [| | |l]; try reflexivity.
  cbn [stringify].
  assert (Hfield : forall kv : string * val,
            match stringify fuel (<[this := PropsInstance id startFrom runEvery]> h) kv.2
            with Some j => Some (kv.1, j) | None => None end
            = match stringify fuel h kv.2 with Some j => Some (kv.1, j) | None => None end).
  { intros kv. rewrite (IH h this id0 id startFrom runEvery _ Hthis). reflexivity. }
  destruct (decide (l = this)) as [->|Hne].
  - rewrite list_lookup_insert_eq by (eapply lookup_lt_Some; exact Hthis).
    rewrite Hthis. rewrite (traverse_eq _ _ _ Hfield). reflexivity.
  - rewrite list_lookup_insert_ne by congruence.
    destruct (h !! l) as [[cid sf re|fields]|]; try reflexivity;
      rewrite (traverse_eq _ _ _ Hfield); reflexivity.
Qed.

(** X26. [customId] writes the private identifier of the instance in
    place and nothing else: every other object is as it was and the last
    call wins. The next scheduling call builds its URL from the new
    identifier: when the identifier holds a lone surrogate it throws a
    [URIError] and sends nothing; otherwise, when [encrypt] succeeds, it
    makes one POST to the jobs URL followed by the encoded identifier (the
    jobs URL alone when the identifier is the empty string), whose body
    holds the same [start_from] and [run_every] as before. *)
Theorem customId_changes_only_the_url
    P apiKey (key : Key P) jobType endpoint fixedIv entropy args
    (h : heap) props id0 startFrom runEvery start_from run_every id :
  h !! props = Some (PropsInstance id0 startFrom runEvery) ->
  JSON_stringify h (VRef startFrom) = Some start_from ->
  JSON_stringify h (val_of_loc runEvery) = Some run_every ->
  exists h1,
    CreateJobProperties.customId id props h = Some h1
    /\ h1 !! props = Some (PropsInstance (Some id) startFrom runEvery)
    /\ (forall l, l <> props -> h1 !! l = h !! l)
    /\ (forall id', CreateJobProperties.customId id' props h1
                    = CreateJobProperties.customId id' props h)
    /\ let run := apiHandlerBuilder P apiKey key jobType endpoint fixedIv entropy
                    props args h1 in
       match post_url (Some id) with
       | None => snd run = [] /\ snd (fst run) = inl URIError
       | Some url =>
           match Cipher.encrypt P fixedIv entropy key (msgpack_encode P args) with
           | inl e => snd run = [] /\ snd (fst run) = inl e
           | inr encrypted =>
               snd run
               = [mkFetchCall url "POST"
                    [("Authorization", "Bearer " +:+ apiKey);
                     ("Content-Type", "application/json")]
                    (Some (post_body start_from run_every endpoint encrypted jobType))]
           end
       end.
Proof.
  intros Hprops Hsf Hre.
  assert (Hlt : (props < length h)%nat) by (eapply lookup_lt_Some; exact Hprops).
  unfold CreateJobProperties.customId. rewrite Hprops.
  eexists. split; [reflexivity|].
  set (h1 := <[props := PropsInstance (Some id) startFrom runEvery]> h).
  assert (Hprops1 : h1 !! props = Some (PropsInstance (Some id) startFrom runEvery))
    by (apply list_lookup_insert_eq; exact Hlt).
  split; [exact Hprops1|].
  split; [intros l Hl; apply list_lookup_insert_ne; congruence|].
  split.
  { intros id'. rewrite Hprops1. subst h1. rewrite list_insert_insert_eq. reflexivity. }
  assert (Hlen : length h1 = length h) by apply length_insert.
  assert (Hsf1 : JSON_stringify h1 (VRef startFrom) = Some start_from).
  { unfold JSON_stringify. rewrite Hlen. subst h1.
    rewrite (stringify_customId _ _ _ _ _ _ _ _ Hprops). exact Hsf. }
  assert (Hre1 : JSON_stringify h1 (val_of_loc runEvery) = Some run_every).
  { unfold JSON_stringify. rewrite Hlen. subst h1.
    rewrite (stringify_customId _ _ _ _ _ _ _ _ Hprops). exact Hre. }
  cbv zeta. destruct (post_url (Some id)) as [url|] eqn:Hurl.
  2:{ exact (OutboundMore.apiHandlerBuilder_uri_error P apiKey key jobType endpoint
               fixedIv entropy props args h1 (Some id) startFrom runEvery
               Hprops1 Hurl). }
  pose proof (OutboundMore.apiHandlerBuilder_run P apiKey key jobType endpoint fixedIv
                entropy props args h1 (Some id) startFrom runEvery start_from run_every
                url Hprops1 Hsf1 Hre1 Hurl) as Hrun.
  destruct (Cipher.encrypt P fixedIv entropy key (msgpack_encode P args))
    as [e|encrypted]; [exact Hrun|].
  cbv zeta in Hrun. destruct Hrun as [-> _].
  apply OutboundFacts.errorHandledFetch_calls.
Qed.

(** The properties object of the repository's tests, given the identifier
    of the delete test, and given a lone surrogate. *)
Lemma customId_changes_only_the_url_witness :
  Demo.props_heap !! Demo.props = Some (PropsInstance None 0%nat None)
  /\ JSON_stringify Demo.props_heap (VRef 0%nat)
     = Some (JObj [("type", JStr "datetime"); ("datetime", JStr Demo.epoch)])
  /\ JSON_stringify Demo.props_heap (val_of_loc None) = Some JNull
  /\ (exists h1,
        CreateJobProperties.customId "%%%&@" Demo.props Demo.props_heap = Some h1
        /\ map fc_url
             (snd (apiHandlerBuilder Demo.platform "key"
                     (derive_key Demo.platform "encryption_key_here") "test1"
                     "default_endpoint_id" (Some Demo.testIv) (fun _ => x00%byte)
                     Demo.props [MNum 1] h1))
           = ["https://clocktick.dev/api/v1/jobs/%25%25%25%26%40"])
  /\ (exists h1,
        CreateJobProperties.customId Demo.lone_surrogate Demo.props Demo.props_heap
        = Some h1
        /\ snd (apiHandlerBuilder Demo.platform "key"
                  (derive_key Demo.platform "encryption_key_here") "test1"
                  "default_endpoint_id" (Some Demo.testIv) (fun _ => x00%byte)
                  Demo.props [MNum 1] h1) = []).
Proof.
  split; [reflexivity|]. split; [reflexivity|]. split; [reflexivity|]. split.
  - destruct (customId_changes_only_the_url Demo.platform "key"
                (derive_key Demo.platform "encryption_key_here") "test1"
                "default_endpoint_id" (Some Demo.testIv) (fun _ => x00%byte) [MNum 1]
                Demo.props_heap Demo.props None 0%nat None _ _ "%%%&@"
                eq_refl eq_refl eq_refl) as (h1 & Hid & _ & _ & _ & Hrun).
    exists h1. split; [exact Hid|].
    cbv zeta in Hrun. rewrite Hrun. reflexivity.
  - destruct (customId_changes_only_the_url Demo.platform "key"
                (derive_key Demo.platform "encryption_key_here") "test1"
                "default_endpoint_id" (Some Demo.testIv) (fun _ => x00%byte) [MNum 1]
                Demo.props_heap Demo.props None 0%nat None _ _ Demo.lone_surrogate
                eq_refl eq_refl eq_refl) as (h1 & Hid & _ & _ & _ & Hrun).
    exists h1. split; [exact Hid|].
    exact (proj1 Hrun).
Defined.

End PropertiesMore.
